(** * Hyundai car controller and car interface: a shallow embedding

    The development follows
      selfdrive/car/hyundai/carcontroller.py   (accel_hysteresis,
        process_hud_alert, CarController.update)
      selfdrive/car/hyundai/interface.py       (CarInterface.update,
        CarInterface.apply)

    Numbers.  Python floats are idealised as exact rationals [Q]; every
    comparison of the source is the corresponding decidable comparison on
    [Q].  Integer-valued quantities (frame, message counters, torque,
    bus indices, button codes) are [Z]; Python's [%] and [//] with a
    positive divisor coincide with [Z.modulo] and [Z.div].

    Collaborators.  Modules the two files import but do not define
    (unit conversions, DT_CTRL, the button codes, the steering torque
    limiter, the feature table) are gathered in the record [Externals],
    taken as a section variable.  The SccSmoother object has hidden state
    of its own; what it answers during one cycle is a per-cycle oracle
    ([SmootherCycle]). *)

From Stdlib Require Import ZArith QArith Qabs Qround Qminmax.
From Stdlib Require Import Bool List String Lia Lqa.
Import ListNotations.

Open Scope Z_scope.

(** ** Comparisons and rounding on rationals *)

Definition Qltb (x y : Q) : bool := negb (Qle_bool y x).
Definition Qgtb (x y : Q) : bool := Qltb y x.
Definition Qneb (x y : Q) : bool := negb (Qeq_bool x y).

(** [abs(x) < y] and friends read better with infix notation. *)
Infix "<?q" := Qltb (at level 70, no associativity).
Infix ">?q" := Qgtb (at level 70, no associativity).
Infix "==?q" := Qeq_bool (at level 70, no associativity).
Infix "!=?q" := Qneb (at level 70, no associativity).

(** Python 3 [round(x)] on a float: nearest integer, ties to even. *)
Definition py_round (x : Q) : Z :=
  let f := Qfloor x in
  match (x - inject_Z f ?= 1 # 2)%Q with
  | Lt => f
  | Gt => f + 1
  | Eq => if Z.even f then f else f + 1
  end.

(** Modelled from the spec: [common.numpy_fast.clip] is imported by
    carcontroller.py and not defined there; the spec says the scaled value
    is "clipped to [ACCEL_MIN, ACCEL_MAX]".  The body is the usual
    [max(lo, min(hi, x))]. *)
Definition clip (x lo hi : Q) : Q := Qmax lo (Qmin hi x).

(** ** Enumerations of the message schema and of values.py *)

(** car.CarControl.HUDControl.VisualAlert *)
Inductive VisualAlert : Type :=
| va_none | va_fcw | steerRequired | va_brakePressed | va_wrongGear
| va_seatbeltUnbuckled | va_speedTooHigh | va_ldw.

Definition VisualAlert_eqb (a b : VisualAlert) : bool :=
  match a, b with
  | va_none, va_none | va_fcw, va_fcw | steerRequired, steerRequired
  | va_brakePressed, va_brakePressed | va_wrongGear, va_wrongGear
  | va_seatbeltUnbuckled, va_seatbeltUnbuckled
  | va_speedTooHigh, va_speedTooHigh | va_ldw, va_ldw => true
  | _, _ => false
  end.

(** values.CAR: the variants the two files name, and all the others. *)
Inductive CAR : Type :=
| GENESIS | GENESIS_G70 | GENESIS_G80 | GENESIS_G90 | GENESIS_G90_L
| SONATA | PALISADE
| OTHER_CAR (name : string).

Definition CAR_eqb (a b : CAR) : bool :=
  match a, b with
  | GENESIS, GENESIS | GENESIS_G70, GENESIS_G70 | GENESIS_G80, GENESIS_G80
  | GENESIS_G90, GENESIS_G90 | GENESIS_G90_L, GENESIS_G90_L
  | SONATA, SONATA | PALISADE, PALISADE => true
  | OTHER_CAR n, OTHER_CAR m => String.eqb n m
  | _, _ => false
  end.

(** [fingerprint in [...]] *)
Definition CAR_in (c : CAR) (l : list CAR) : bool := existsb (CAR_eqb c) l.

(** car.CarEvent.EventName: the names interface.py mentions. *)
Inductive EventName : Type :=
| brakeUnavailable | belowSteerSpeed | turningIndicatorOn | pedalPressed
| buttonCancel | buttonEnable | wrongCarMode | pcmDisable
| other_event (code : nat).

Definition EventName_eqb (a b : EventName) : bool :=
  match a, b with
  | brakeUnavailable, brakeUnavailable | belowSteerSpeed, belowSteerSpeed
  | turningIndicatorOn, turningIndicatorOn | pedalPressed, pedalPressed
  | buttonCancel, buttonCancel | buttonEnable, buttonEnable
  | wrongCarMode, wrongCarMode | pcmDisable, pcmDisable => true
  | other_event n, other_event m => Nat.eqb n m
  | _, _ => false
  end.

(** car.CarState.ButtonEvent.Type *)
Inductive ButtonType : Type :=
| bt_unknown | accelCruise | decelCruise | gapAdjustCruise | bt_cancel
| altButton3.

Definition ButtonType_eqb (a b : ButtonType) : bool :=
  match a, b with
  | bt_unknown, bt_unknown | accelCruise, accelCruise
  | decelCruise, decelCruise | gapAdjustCruise, gapAdjustCruise
  | bt_cancel, bt_cancel | altButton3, altButton3 => true
  | _, _ => false
  end.

(** ** Constants of carcontroller.py *)

Module CarControllerParams.
Definition ACCEL_HYST_GAP : Q := 2 # 100.
Definition ACCEL_MAX : Q := 15 # 10.
Definition ACCEL_MIN : Q := - (4 # 1).
Definition ACCEL_SCALE : Q := Qmax ACCEL_MAX (- ACCEL_MIN).
Definition STEER_ANG_MAX : Q := 360 # 1.
Definition STEER_ANG_MAX_RATE : Q := 15 # 10.
End CarControllerParams.

Module SteerLimitParams.
Definition STEER_MAX : Z := 409.
Definition STEER_DELTA_UP : Z := 3.
Definition STEER_DELTA_DOWN : Z := 5.
Definition STEER_DRIVER_ALLOWANCE : Z := 50.
Definition STEER_DRIVER_MULTIPLIER : Z := 2.
Definition STEER_DRIVER_FACTOR : Z := 1.
End SteerLimitParams.

(** ** accel_hysteresis *)

Definition accel_hysteresis (accel accel_steady : Q) : Q * Q :=
  let accel_steady :=
    if accel >?q (accel_steady + CarControllerParams.ACCEL_HYST_GAP)%Q
    then (accel - CarControllerParams.ACCEL_HYST_GAP)%Q
    else if accel <?q (accel_steady - CarControllerParams.ACCEL_HYST_GAP)%Q
    then (accel + CarControllerParams.ACCEL_HYST_GAP)%Q
    else accel_steady in
  let accel := accel_steady in
  (accel, accel_steady).

(** ** process_hud_alert *)

Definition premium_trims : list CAR :=
  [GENESIS; GENESIS_G70; GENESIS_G80; GENESIS_G90; GENESIS_G90_L].

Definition process_hud_alert (enabled : bool) (fingerprint : CAR)
    (visual_alert : VisualAlert)
    (left_lane right_lane left_lane_depart right_lane_depart : bool)
  : bool * Z * Z * Z :=
  let sys_warning := VisualAlert_eqb visual_alert steerRequired in
  let sys_state :=
    if (left_lane && right_lane) || sys_warning
    then (if enabled || sys_warning then 3 else 4)
    else if left_lane then 5
    else if right_lane then 6
    else 1 in
  let left_lane_warning :=
    if left_lane_depart
    then (if CAR_in fingerprint premium_trims then 1 else 2)
    else 0 in
  let right_lane_warning :=
    if right_lane_depart
    then (if CAR_in fingerprint premium_trims then 1 else 2)
    else 0 in
  (sys_warning, sys_state, left_lane_warning, right_lane_warning).

(** ** Vehicle snapshot, requests and outgoing messages *)

(** A decoded message whose signals the controller only forwards. *)
Definition Signals : Type := list (string * Q).

(** Decoded vehicle messages: the signals the controller reads. *)
Record LKAS11 : Type := { CF_Lkas_MsgCount : Z; lkas11_rest : Signals }.
Record CLU11 : Type := { CF_Clu_Vanz : Q; clu11_rest : Signals }.
Record SCC11 : Type := { AliveCounterACC : Z; scc11_rest : Signals }.
Record SCC12 : Type :=
  { CR_VSM_Alive : Z; aReqValue : Q; scc12_rest : Signals }.

Record ButtonEvent : Type := { be_type : ButtonType; pressed : bool }.

Record CruiseState : Type :=
  { cs_enabled : bool; cs_available : bool; standstill : bool }.

(** car.CarState, the message [CS.update] builds and [CS.out] keeps. *)
Record CarStateMsg : Type :=
  { vEgo : Q;
    steeringAngleDeg : Q;
    steeringTorque : Q;
    leftBlinker : bool;
    rightBlinker : bool;
    cruiseState : CruiseState;
    canValid : bool;
    buttonEvents : list ButtonEvent;
    events : list EventName }.

(** The attributes of the CarState object the two files read. *)
Record CarState : Type :=
  { out : CarStateMsg;
    CP_maxSteeringAngleDeg : Q;
    mdps_bus : Z;
    scc_bus : Z;
    lkas11 : LKAS11;
    clu11 : CLU11;
    scc11 : SCC11;
    scc12 : SCC12;
    scc13 : Signals;
    scc14 : Signals;
    mdps12 : Signals;
    is_set_speed_in_mph : bool;
    no_radar : bool;
    lead_distance : Q;
    cruiseState_enabled : bool;
    has_scc13 : bool;
    has_scc14 : bool;
    cruise_buttons : Z;
    prev_cruise_buttons : Z;
    cruise_main_button : Z;
    prev_cruise_main_button : Z;
    cruise_unavail : bool }.

Record Actuators : Type := { gas : Q; brake : Q; steer : Q }.

(** The [controls] object: the fields update reads and writes. *)
Record Controls : Type :=
  { clu_speed_ms : Q;
    c_apply_accel : Q;
    c_aReqValue : Q;
    aReqValueMin : Q;
    aReqValueMax : Q;
    fused_accel : Q;
    lead_drel : Q;
    sm_radarState : Signals }.

(** Outgoing messages, one constructor per [create_*] of hyundaican with
    the arguments of the call (the packer apart); the encoding belongs to
    the codec.  [smoother_msg] stands for whatever the smoother's update
    hook appends to [can_sends]. *)
Inductive CanMsg : Type :=
| create_lkas11 (frame : Z) (car_fingerprint : CAR) (apply_steer : Z)
    (steer_req : bool) (lkas11 : LKAS11) (sys_warning : bool)
    (sys_state : Z) (enabled left_lane right_lane : bool)
    (left_lane_warning right_lane_warning : Z) (bus : Z)
| create_clu11 (cnt bus : Z) (clu11 : CLU11) (button : Z) (speed : Q)
| create_scc12 (apply_accel : Q) (enabled : bool) (cnt : Z)
    (scc_live : bool) (scc12 : SCC12)
| create_scc11 (frame : Z) (enabled : bool) (set_speed : Q)
    (radarState : Signals) (scc_live : bool) (scc11 : SCC11)
| create_scc13 (scc13 : Signals)
| create_scc14 (enabled : bool) (scc14 : Signals)
| create_mdps12 (frame : Z) (mdps12 : Signals)
| create_lfahda_mfc (enabled : bool)
| smoother_msg (payload : Signals).

(** What the SccSmoother object answers during one cycle. *)
Record SmootherCycle : Type :=
  { is_active : bool;
    get_wait_count : Z;
    get_fused_accel : Q -> Q -> Q * Q;
    smoother_sends : list Signals;
    inject_events : list EventName -> list EventName }.

(** ** Imported collaborators *)

Record Conversions : Type :=
  { KPH_TO_MS : Q; MS_TO_KPH : Q; MS_TO_MPH : Q }.

Record ButtonCodes : Type :=
  { NONE : Z; RES_ACCEL : Z; SET_DECEL : Z; GAP_DIST : Z; CANCEL : Z }.

Record Externals : Type :=
  { CV : Conversions;
    Buttons : ButtonCodes;
    DT_CTRL : Q;
    LANE_CHANGE_SPEED_MIN : Q;
    (* apply_std_steer_torque_limits(new, last, driver_torque, LIMITS) *)
    apply_std_steer_torque_limits : Z -> Z -> Q -> Z;
    (* car_fingerprint in FEATURES["send_lfa_mfa"] *)
    send_lfa_mfa : CAR -> bool }.

(** ** CarController *)

Record CarController : Type :=
  { car_fingerprint : CAR;
    accel_steady : Q;
    apply_steer_last : Z;
    steer_rate_limited : bool;
    lkas11_cnt : Z;
    scc12_cnt : Z;
    resume_cnt : Z;
    last_lead_distance : Q;
    resume_wait_timer : Z;
    turning_signal_timer : Q;
    longcontrol : bool;
    scc_live : bool;
    mad_mode_enabled : bool;
    (* attributes created outside __init__ *)
    turning_indicator_alert : bool;   (* set and cleared by the interface *)
    apply_accel_last : Q;
    prev_scc_cnt : Z }.

(** The part of CarParams and Params the constructor reads. *)
Record CarParams : Type :=
  { carFingerprint : CAR;
    openpilotLongitudinalControl : bool;
    radarOffCan : bool;
    minSteerSpeed : Q;
    enableCruise : bool }.

(** [CarController.__init__]; [MadModeEnabled] is the persistent flag.
    The attribute [turning_indicator_alert] does not exist before
    [CarInterface.update] writes it, which the driver loop does before the
    first [apply], so a run of the loop never reads the value given here. *)
Definition CarController_init (CP : CarParams) (MadModeEnabled : bool)
  : CarController :=
  {| car_fingerprint := carFingerprint CP;
     accel_steady := 0;
     apply_steer_last := 0;
     steer_rate_limited := false;
     lkas11_cnt := 0;
     scc12_cnt := 0;
     resume_cnt := 0;
     last_lead_distance := 0;
     resume_wait_timer := 0;
     turning_signal_timer := 0;
     longcontrol := openpilotLongitudinalControl CP;
     scc_live := negb (radarOffCan CP);
     mad_mode_enabled := MadModeEnabled;
     turning_indicator_alert := false;
     apply_accel_last := 0;
     prev_scc_cnt := 0 |}.

(** The arguments of one call of [update]. *)
Record UpdateArgs : Type :=
  { enabled : bool;
    CS : CarState;
    frame : Z;
    actuators : Actuators;
    pcm_cancel_cmd : bool;
    visual_alert : VisualAlert;
    left_lane : bool;
    right_lane : bool;
    left_lane_depart : bool;
    right_lane_depart : bool;
    set_speed : Q;
    lead_visible : bool;
    controls : Controls;
    smoother : SmootherCycle }.

Definition Z_truthy (z : Z) : bool := negb (z =? 0).
Definition Q_truthy (q : Q) : bool := negb (q ==?q 0).

Section Controller.

Variable E : Externals.

Definition KPH : Q := KPH_TO_MS (CV E).

(** [min_set_speed = 30 * CV.KPH_TO_MS] *)
Definition min_set_speed : Q := (30 # 1) * KPH.

(** *** Gas and brake (update, "gas and brake") *)
Definition accel_command (CC : CarController) (act : Actuators) : Q * Q :=
  let apply_accel := (gas act - brake act)%Q in
  let '(apply_accel, accel_steady) :=
    accel_hysteresis apply_accel (accel_steady CC) in
  let apply_accel :=
    clip (apply_accel * CarControllerParams.ACCEL_SCALE)
         CarControllerParams.ACCEL_MIN CarControllerParams.ACCEL_MAX in
  (apply_accel, accel_steady).

(** *** Steering torque before the gate *)
Definition new_steer_of (act : Actuators) : Z :=
  py_round (steer act * inject_Z SteerLimitParams.STEER_MAX).

Definition limited_steer (CC : CarController) (a : UpdateArgs) : Z :=
  apply_std_steer_torque_limits E (new_steer_of (actuators a))
    (apply_steer_last CC) (steeringTorque (out (CS a))).

(** *** The lateral gate: the value of [lkas_active] when it is used *)
Definition lkas_active_of (CC : CarController) (a : UpdateArgs) : bool :=
  let o := out (CS a) in
  (* disable if steer angle reach 90 deg *)
  let lkas_active :=
    enabled a
    && (Qabs (steeringAngleDeg o) <?q CP_maxSteeringAngleDeg (CS a)) in
  (* fix for Genesis hard fault at low speed *)
  let lkas_active :=
    if (vEgo o <?q (60 # 1) * KPH)
       && CAR_eqb (car_fingerprint CC) GENESIS
       && negb (Z_truthy (mdps_bus (CS a)))
    then false else lkas_active in
  if turning_indicator_alert CC && (vEgo o <?q (2 # 1) * KPH)
  then false else lkas_active.

(** *** The blinker countdown *)
Definition blinker_reset : Q := (5 # 10) / DT_CTRL E.

Definition turning_signal_timer_next (CC : CarController) (o : CarStateMsg)
  : Q :=
  let t :=
    if leftBlinker o || rightBlinker o
    then blinker_reset else turning_signal_timer CC in
  if t >?q 0 then (t - 1)%Q else t.

(** [if not lkas_active: apply_steer = 0] *)
Definition apply_steer_of (CC : CarController) (a : UpdateArgs) : Z :=
  if negb (lkas_active_of CC a) then 0 else limited_steer CC a.

(** *** Set speed sent to the native cruise *)
Definition set_speed_out (a : UpdateArgs) : Q :=
  let s := set_speed a in
  let s :=
    if negb ((min_set_speed <?q s) && (s <?q (255 # 1) * KPH))
    then min_set_speed else s in
  (s * (if is_set_speed_in_mph (CS a)
        then MS_TO_MPH (CV E) else MS_TO_KPH (CV E)))%Q.

(** *** Counter seeding and wrap, before the messages are built *)
Definition lkas11_cnt_next (CC : CarController) (a : UpdateArgs) : Z :=
  let c :=
    if frame a =? 0 then CF_Lkas_MsgCount (lkas11 (CS a))
    else lkas11_cnt CC in
  (c + 1) mod 16.

Definition scc12_cnt_wrapped (CC : CarController) (a : UpdateArgs) : Z :=
  let c :=
    if frame a =? 0
    then (if negb (no_radar (CS a))
          then CR_VSM_Alive (scc12 (CS a)) + 1 else 0)
    else scc12_cnt CC in
  c mod 15.

(** *** fix auto resume *)
Definition auto_resume (CC : CarController) (a : UpdateArgs)
    (clu11_speed : Q) : list CanMsg * (Q * Z * Z) :=
  let cs := CS a in
  let last := last_lead_distance CC in
  let cnt := resume_cnt CC in
  let timer := resume_wait_timer CC in
  if standstill (cruiseState (out cs)) then
    if last ==?q 0 then
      ([], (lead_distance cs, 0, 0))
    else if is_active (smoother a) then
      ([], (last, cnt, timer))
    else if timer >? 0 then
      ([], (last, cnt, timer - 1))
    else if lead_distance cs !=?q last then
      let press :=
        create_clu11 cnt (scc_bus cs) (clu11 cs)
          (RES_ACCEL (Buttons E)) clu11_speed in
      let cnt := cnt + 1 in
      if cnt >=? 8
      then ([press], (last, 0, get_wait_count (smoother a)))
      else ([press], (last, cnt, timer))
    else ([], (last, cnt, timer))
  (* reset lead distnce after the car starts moving *)
  else if last !=?q 0 then ([], (0%Q, cnt, timer))
  else ([], (last, cnt, timer)).

(** *** send scc to car if longcontrol enabled and SCC not on bus 0 or
    not live *)
Definition scc_gate (CC : CarController) (a : UpdateArgs) : bool :=
  longcontrol CC && cruiseState_enabled (CS a)
  && (Z_truthy (scc_bus (CS a)) || negb (scc_live CC))
  && (frame a mod 2 =? 0).

Definition scc_sends (CC : CarController) (a : UpdateArgs)
    (apply_accel : Q) (cnt : Z) : list CanMsg :=
  let cs := CS a in
  let fused :=
    fst (get_fused_accel (smoother a) apply_accel (aReqValue (scc12 cs))) in
  [create_scc12 fused (enabled a) cnt (scc_live CC) (scc12 cs);
   create_scc11 (frame a) (enabled a) (set_speed_out a)
     (sm_radarState (controls a)) (scc_live CC) (scc11 cs)]
  ++ (if has_scc13 cs && (frame a mod 20 =? 0)
      then [create_scc13 (scc13 cs)] else [])
  ++ (if has_scc14 cs then [create_scc14 (enabled a) (scc14 cs)] else []).

(** *** CarController.update *)
Definition update (CC : CarController) (a : UpdateArgs)
  : CarController * Controls * list CanMsg :=
  let cs := CS a in
  let o := out cs in
  (* gas and brake *)
  let '(apply_accel, accel_steady') := accel_command CC (actuators a) in
  (* Steering Torque *)
  let new_steer := new_steer_of (actuators a) in
  let limited := limited_steer CC a in
  let steer_rate_limited' := negb (new_steer =? limited) in
  let lkas_active := lkas_active_of CC a in
  let timer' := turning_signal_timer_next CC o in
  let apply_steer := apply_steer_of CC a in
  let '(sys_warning, sys_state, left_lane_warning, right_lane_warning) :=
    process_hud_alert (enabled a) (car_fingerprint CC) (visual_alert a)
      (left_lane a) (right_lane a)
      (left_lane_depart a) (right_lane_depart a) in
  let clu11_speed := CF_Clu_Vanz (clu11 cs) in
  let enabled_speed : Q :=
    if is_set_speed_in_mph cs then 38 # 1 else 60 # 1 in
  let enabled_speed :=
    if (clu11_speed >?q enabled_speed) || negb lkas_active
    then clu11_speed else enabled_speed in
  (* counters *)
  let lkas11_cnt' := lkas11_cnt_next CC a in
  let scc12_cnt' := scc12_cnt_wrapped CC a in
  (* messages *)
  let lkas bus :=
    create_lkas11 (frame a) (car_fingerprint CC) apply_steer lkas_active
      (lkas11 cs) sys_warning sys_state (enabled a)
      (left_lane a) (right_lane a)
      left_lane_warning right_lane_warning bus in
  let '(resume_sends, (last', resume_cnt', resume_wait')) :=
    auto_resume CC a clu11_speed in
  let aReq := aReqValue (scc12 cs) in
  let c0 := controls a in
  let gate := scc_gate CC a in
  let fused := get_fused_accel (smoother a) apply_accel aReq in
  let can_sends :=
    [lkas 0]
    ++ (if Z_truthy (mdps_bus cs) || (scc_bus cs =? 1)
        then [lkas 1] else [])
    ++ (if Z_truthy (frame a mod 2) && Z_truthy (mdps_bus cs)
        then [create_clu11 (frame a / 2 mod 16) (mdps_bus cs) (clu11 cs)
                (NONE (Buttons E)) enabled_speed]
        else [])
    ++ (if pcm_cancel_cmd a
           && (longcontrol CC && negb (mad_mode_enabled CC))
        then [create_clu11 (frame a mod 16) (scc_bus cs) (clu11 cs)
                (CANCEL (Buttons E)) clu11_speed]
        else [])
    ++ resume_sends
    ++ map smoother_msg (smoother_sends (smoother a))
    ++ (if Z_truthy (mdps_bus cs)
        then [create_mdps12 (frame a) (mdps12 cs)] else [])
    ++ (if gate then scc_sends CC a apply_accel scc12_cnt' else [])
    ++ (if (frame a mod 5 =? 0) && send_lfa_mfa E (car_fingerprint CC)
        then [create_lfahda_mfc (enabled a)] else []) in
  let controls' :=
    {| clu_speed_ms := clu11_speed * KPH;
       c_apply_accel := apply_accel;
       c_aReqValue := aReq;
       aReqValueMin :=
         if aReq <?q aReqValueMin c0 then aReq else aReqValueMin c0;
       aReqValueMax :=
         if aReq >?q aReqValueMax c0 then aReq else aReqValueMax c0;
       fused_accel := if gate then fst fused else fused_accel c0;
       lead_drel := if gate then snd fused else lead_drel c0;
       sm_radarState := sm_radarState c0 |} in
  let CC' :=
    {| car_fingerprint := car_fingerprint CC;
       accel_steady := accel_steady';
       apply_steer_last := apply_steer;
       steer_rate_limited := steer_rate_limited';
       lkas11_cnt := lkas11_cnt';
       scc12_cnt := if gate then scc12_cnt' + 1 else scc12_cnt';
       resume_cnt := resume_cnt';
       last_lead_distance := last';
       resume_wait_timer := resume_wait';
       turning_signal_timer := timer';
       longcontrol := longcontrol CC;
       scc_live := scc_live CC;
       mad_mode_enabled := mad_mode_enabled CC;
       turning_indicator_alert := turning_indicator_alert CC;
       apply_accel_last := apply_accel;
       prev_scc_cnt := AliveCounterACC (scc11 cs) |} in
  (CC', controls', can_sends).

End Controller.

(** ** CarInterface *)

(** [events.events.remove(x)]: the first occurrence goes. *)
Fixpoint remove_first (x : EventName) (l : list EventName) : list EventName :=
  match l with
  | [] => []
  | y :: t => if EventName_eqb x y then t else y :: remove_first x t
  end.

Definition event_in (x : EventName) (l : list EventName) : bool :=
  existsb (EventName_eqb x) l.

(** [if x in events.events: events.events.remove(x)] *)
Definition discard (x : EventName) (l : list EventName) : list EventName :=
  if event_in x l then remove_first x l else l.

(** [events.add(x)] *)
Definition add (l : list EventName) (x : EventName) : list EventName :=
  l ++ [x].

Record HUDControl : Type :=
  { visualAlert : VisualAlert;
    leftLaneVisible : bool;
    rightLaneVisible : bool;
    leftLaneDepart : bool;
    rightLaneDepart : bool;
    setSpeed : Q;
    leadVisible : bool }.

(** car.CarControl, the argument [c] of [apply]. *)
Record CarControl : Type :=
  { c_enabled : bool;
    c_actuators : Actuators;
    cruiseControl_cancel : bool;
    hudControl : HUDControl }.

Record CarInterface : Type :=
  { I_CS : CarState;
    I_CC : CarController;
    I_CP : CarParams;
    I_frame : Z;
    low_speed_alert : bool;
    I_mad_mode_enabled : bool }.

(** What one call of [CarInterface.update] receives from outside the two
    files: the CarState object as [CS.update] left it, the message it
    returned, the parsers' validity flags, and the result of
    [create_common_events(ret)]. *)
Record InterfaceArgs : Type :=
  { new_CS : CarState;
    ret0 : CarStateMsg;
    cp_can_valid : bool;
    cp2_can_valid : bool;
    cp_cam_can_valid : bool;
    common_events : list EventName;
    i_smoother : SmootherCycle }.

Section Interface.

Variable E : Externals.

(** *** buttonEvents *)
Definition button_events (cs : CarState) : list ButtonEvent :=
  (if negb (cruise_buttons cs =? prev_cruise_buttons cs) then
     let be_pressed := negb (cruise_buttons cs =? 0) in
     let but :=
       if be_pressed then cruise_buttons cs else prev_cruise_buttons cs in
     let ty :=
       if but =? RES_ACCEL (Buttons E) then accelCruise
       else if but =? SET_DECEL (Buttons E) then decelCruise
       else if but =? GAP_DIST (Buttons E) then gapAdjustCruise
       else bt_unknown in
     [{| be_type := ty; pressed := be_pressed |}]
   else [])
  ++
  (if negb (cruise_main_button cs =? prev_cruise_main_button cs) then
     [{| be_type := altButton3;
         pressed := Z_truthy (cruise_main_button cs) |}]
   else []).

(** *** turning indicator alert logic *)
Definition turning_indicator_alert_of (CC : CarController)
    (ret : CarStateMsg) : bool :=
  (leftBlinker ret || rightBlinker ret
   || Q_truthy (turning_signal_timer CC))
  && (vEgo ret <?q LANE_CHANGE_SPEED_MIN E - (12 # 10)).

(** *** low speed steer alert hysteresis logic *)
Definition low_speed_alert_of (I : CarInterface) (ret : CarStateMsg)
  : bool :=
  let m := minSteerSpeed (I_CP I) in
  let l :=
    if (vEgo ret <?q m + (2 # 10)) && (m >?q (10 # 1))
    then true else low_speed_alert I in
  if vEgo ret >?q m + (7 # 10) then false else l.

(** *** handle button presses: the body of the loop *)
Definition handle_button (CC : CarController) (cruise_enabled : bool)
    (evs : list EventName) (b : ButtonEvent) : list EventName :=
  (* do disable on button down *)
  let evs :=
    if ButtonType_eqb (be_type b) bt_cancel && pressed b
    then add evs buttonCancel else evs in
  if longcontrol CC && negb (scc_live CC) then
    (* do enable on both accel and decel buttons *)
    let evs :=
      if (ButtonType_eqb (be_type b) accelCruise
          || ButtonType_eqb (be_type b) decelCruise)
         && negb (pressed b)
      then add evs buttonEnable else evs in
    let evs := discard wrongCarMode evs in
    discard pcmDisable evs
  else if negb (longcontrol CC) && cruise_enabled then
    (* do enable on decel button only *)
    if ButtonType_eqb (be_type b) decelCruise && negb (pressed b)
    then add evs buttonEnable else evs
  else evs.

(** [ret.cruiseState.enabled] once the override mode has been applied. *)
Definition reported_cruise_enabled (I : CarInterface) (ret : CarStateMsg)
  : bool :=
  if I_mad_mode_enabled I
  then cs_available (cruiseState ret) else cs_enabled (cruiseState ret).

(** The event list when the loop over the button events has finished. *)
Definition events_of (I : CarInterface) (ia : InterfaceArgs)
    (alert low : bool) : list EventName :=
  let cs := new_CS ia in
  let CC := I_CC I in
  let evs := common_events ia in
  let evs :=
    if longcontrol CC && cruise_unavail cs
    then add evs brakeUnavailable else evs in
  let evs :=
    if low && negb (Z_truthy (mdps_bus cs))
    then add evs belowSteerSpeed else evs in
  let evs := if alert then add evs turningIndicatorOn else evs in
  let evs :=
    if I_mad_mode_enabled I then discard pedalPressed evs else evs in
  fold_left (handle_button CC (reported_cruise_enabled I (ret0 ia)))
    (button_events cs) evs.

(** *** CarInterface.update *)
Definition interface_update (I : CarInterface) (ia : InterfaceArgs)
  : CarInterface * CarStateMsg :=
  let cs := new_CS ia in
  let CC := I_CC I in
  let r := ret0 ia in
  let can_valid :=
    cp_can_valid ia && cp2_can_valid ia && cp_cam_can_valid ia in
  let enableCruise' :=
    if enableCruise (I_CP I) && negb (scc_live CC) then false
    else if scc_live CC && negb (enableCruise (I_CP I)) then true
    else enableCruise (I_CP I) in
  let cruise' :=
    {| cs_enabled := reported_cruise_enabled I r;
       cs_available := cs_available (cruiseState r);
       standstill := standstill (cruiseState r) |} in
  let alert := turning_indicator_alert_of CC r in
  let low := low_speed_alert_of I r in
  let evs := inject_events (i_smoother ia) (events_of I ia alert low) in
  let ret :=
    {| vEgo := vEgo r;
       steeringAngleDeg := steeringAngleDeg r;
       steeringTorque := steeringTorque r;
       leftBlinker := leftBlinker r;
       rightBlinker := rightBlinker r;
       cruiseState := cruise';
       canValid := can_valid;
       buttonEvents := button_events cs;
       events := evs |} in
  let CC' :=
    {| car_fingerprint := car_fingerprint CC;
       accel_steady := accel_steady CC;
       apply_steer_last := apply_steer_last CC;
       steer_rate_limited := steer_rate_limited CC;
       lkas11_cnt := lkas11_cnt CC;
       scc12_cnt := scc12_cnt CC;
       resume_cnt := resume_cnt CC;
       last_lead_distance := last_lead_distance CC;
       resume_wait_timer := resume_wait_timer CC;
       turning_signal_timer := turning_signal_timer CC;
       longcontrol := longcontrol CC;
       scc_live := scc_live CC;
       mad_mode_enabled := mad_mode_enabled CC;
       turning_indicator_alert := alert;
       apply_accel_last := apply_accel_last CC;
       prev_scc_cnt := prev_scc_cnt CC |} in
  let CP' :=
    {| carFingerprint := carFingerprint (I_CP I);
       openpilotLongitudinalControl :=
         openpilotLongitudinalControl (I_CP I);
       radarOffCan := radarOffCan (I_CP I);
       minSteerSpeed := minSteerSpeed (I_CP I);
       enableCruise := enableCruise' |} in
  let CS' :=
    {| out := ret;
       CP_maxSteeringAngleDeg := CP_maxSteeringAngleDeg cs;
       mdps_bus := mdps_bus cs;
       scc_bus := scc_bus cs;
       lkas11 := lkas11 cs;
       clu11 := clu11 cs;
       scc11 := scc11 cs;
       scc12 := scc12 cs;
       scc13 := scc13 cs;
       scc14 := scc14 cs;
       mdps12 := mdps12 cs;
       is_set_speed_in_mph := is_set_speed_in_mph cs;
       no_radar := no_radar cs;
       lead_distance := lead_distance cs;
       cruiseState_enabled := cruiseState_enabled cs;
       has_scc13 := has_scc13 cs;
       has_scc14 := has_scc14 cs;
       cruise_buttons := cruise_buttons cs;
       prev_cruise_buttons := prev_cruise_buttons cs;
       cruise_main_button := cruise_main_button cs;
       prev_cruise_main_button := prev_cruise_main_button cs;
       cruise_unavail := cruise_unavail cs |} in
  ({| I_CS := CS';
      I_CC := CC';
      I_CP := CP';
      I_frame := I_frame I;
      low_speed_alert := low;
      I_mad_mode_enabled := I_mad_mode_enabled I |},
   ret).

(** *** CarInterface.apply *)
Definition apply_args (I : CarInterface) (c : CarControl)
    (ctl : Controls) (sm : SmootherCycle) : UpdateArgs :=
  {| enabled := c_enabled c;
     CS := I_CS I;
     frame := I_frame I;
     actuators := c_actuators c;
     pcm_cancel_cmd := cruiseControl_cancel c;
     visual_alert := visualAlert (hudControl c);
     left_lane := leftLaneVisible (hudControl c);
     right_lane := rightLaneVisible (hudControl c);
     left_lane_depart := leftLaneDepart (hudControl c);
     right_lane_depart := rightLaneDepart (hudControl c);
     set_speed := setSpeed (hudControl c);
     lead_visible := leadVisible (hudControl c);
     controls := ctl;
     smoother := sm |}.

Definition apply (I : CarInterface) (c : CarControl) (ctl : Controls)
    (sm : SmootherCycle) : CarInterface * Controls * list CanMsg :=
  let '(CC', ctl', can_sends) := update E (I_CC I) (apply_args I c ctl sm) in
  ({| I_CS := I_CS I;
      I_CC := CC';
      I_CP := I_CP I;
      I_frame := I_frame I + 1;
      low_speed_alert := low_speed_alert I;
      I_mad_mode_enabled := I_mad_mode_enabled I |},
   ctl', can_sends).

End Interface.

(** ** Runs *)

Section Runs.

Variable E : Externals.

(** The controller after one call of [update]. *)
Definition next (CC : CarController) (a : UpdateArgs) : CarController :=
  fst (fst (update E CC a)).

(** The messages of one call of [update]. *)
Definition can_sends_of (CC : CarController) (a : UpdateArgs)
  : list CanMsg :=
  snd (update E CC a).

(** The resume-button messages the auto-resume block appends in one
    call. *)
Definition presses_of (CC : CarController) (a : UpdateArgs)
  : list CanMsg :=
  fst (auto_resume E CC a (CF_Clu_Vanz (clu11 (CS a)))).

(** One control cycle as the driver loop runs it: [CI.update] on the
    fresh snapshot, then [CI.apply]. *)
Record CycleInput : Type :=
  { ci_update : InterfaceArgs;
    ci_control : CarControl;
    ci_radarState : Signals }.

Definition with_radarState (ctl : Controls) (r : Signals) : Controls :=
  {| clu_speed_ms := clu_speed_ms ctl;
     c_apply_accel := c_apply_accel ctl;
     c_aReqValue := c_aReqValue ctl;
     aReqValueMin := aReqValueMin ctl;
     aReqValueMax := aReqValueMax ctl;
     fused_accel := fused_accel ctl;
     lead_drel := lead_drel ctl;
     sm_radarState := r |}.

(** The controller and the arguments [apply] hands to update in one
    cycle of the driver loop. *)
Definition cycle_CC (I : CarInterface) (ci : CycleInput) : CarController :=
  I_CC (fst (interface_update E I (ci_update ci))).

Definition cycle_args (I : CarInterface) (ctl : Controls)
    (ci : CycleInput) : UpdateArgs :=
  apply_args (fst (interface_update E I (ci_update ci))) (ci_control ci)
    (with_radarState ctl (ci_radarState ci)) (i_smoother (ci_update ci)).

Definition cycle (s : CarInterface * Controls) (ci : CycleInput)
  : (CarInterface * Controls) * list CanMsg :=
  let '(itf, ctl) := s in
  let I1 := fst (interface_update E itf (ci_update ci)) in
  let '(I2, ctl2, can_sends) :=
    apply E I1 (ci_control ci) (with_radarState ctl (ci_radarState ci))
      (i_smoother (ci_update ci)) in
  ((I2, ctl2), can_sends).

(** The values the two counters start from in a cycle: the vehicle's
    echo on frame 0, the stored counters afterwards. *)
Definition lkas11_base (I : CarInterface) (ci : CycleInput) : Z :=
  if I_frame I =? 0
  then CF_Lkas_MsgCount (lkas11 (new_CS (ci_update ci)))
  else lkas11_cnt (I_CC I).

Definition scc12_seed_of (cs : CarState) : Z :=
  if negb (no_radar cs) then CR_VSM_Alive (scc12 cs) + 1 else 0.

Definition scc12_base (I : CarInterface) (ci : CycleInput) : Z :=
  if I_frame I =? 0
  then scc12_seed_of (new_CS (ci_update ci))
  else scc12_cnt (I_CC I).

(** All messages of a run, in emission order, with the final state. *)
Fixpoint run (s : CarInterface * Controls) (l : list CycleInput)
  : (CarInterface * Controls) * list CanMsg :=
  match l with
  | [] => (s, [])
  | ci :: t =>
      let '(s1, m1) := cycle s ci in
      let '(s2, m2) := run s1 t in
      (s2, m1 ++ m2)
  end.

(** The state after one cycle and after a run. *)
Definition after (s : CarInterface * Controls) (ci : CycleInput)
  : CarInterface * Controls :=
  fst (cycle s ci).

Definition after_all (s : CarInterface * Controls) (l : list CycleInput)
  : CarInterface * Controls :=
  fst (run s l).

(** The controller of a loop state. *)
Definition controller (s : CarInterface * Controls) : CarController :=
  I_CC (fst s).

(** The resume-button messages the auto-resume block appends in one
    cycle. *)
Definition cycle_presses (s : CarInterface * Controls) (ci : CycleInput)
  : list CanMsg :=
  presses_of (cycle_CC (fst s) ci) (cycle_args (fst s) (snd s) ci).

(** A cycle ends a burst when it presses and leaves the press counter at
    zero. *)
Definition burst_end (s : CarInterface * Controls) (ci : CycleInput) : bool :=
  negb (Nat.eqb (List.length (cycle_presses s ci)) 0)
  && (resume_cnt (controller (after s ci)) =? 0).

(** Presses and finished bursts over a run. *)
Fixpoint presses (s : CarInterface * Controls) (l : list CycleInput) : Z :=
  match l with
  | [] => 0
  | ci :: t =>
      Z.of_nat (List.length (cycle_presses s ci)) + presses (after s ci) t
  end.

Fixpoint bursts (s : CarInterface * Controls) (l : list CycleInput) : Z :=
  match l with
  | [] => 0
  | ci :: t => (if burst_end s ci then 1 else 0) + bursts (after s ci) t
  end.

End Runs.

(** The vehicle reports cruise standstill in the snapshot of a cycle. *)
Definition at_standstill (ci : CycleInput) : bool :=
  standstill (cruiseState (ret0 (ci_update ci))).

(** Modelled from the spec: [CarInterfaceBase.__init__] is not under src/.
    It builds the CarState and CarController objects from the car
    parameters and starts the cycle counter at 0, "cycle 0" being the
    first cycle after construction. *)
Definition CarInterface_init (CP : CarParams) (MadModeEnabled : bool)
    (cs0 : CarState) : CarInterface :=
  {| I_CS := cs0;
     I_CC := CarController_init CP MadModeEnabled;
     I_CP := CP;
     I_frame := 0;
     low_speed_alert := false;
     I_mad_mode_enabled := MadModeEnabled |}.

(** Message classifiers used for counting. *)
Definition is_lkas11_on (b : Z) (m : CanMsg) : bool :=
  match m with
  | create_lkas11 _ _ _ _ _ _ _ _ _ _ _ _ bus => bus =? b
  | _ => false
  end.

Definition is_lkas11 (m : CanMsg) : bool :=
  match m with
  | create_lkas11 _ _ _ _ _ _ _ _ _ _ _ _ _ => true
  | _ => false
  end.

Definition is_scc12 (m : CanMsg) : bool :=
  match m with create_scc12 _ _ _ _ _ => true | _ => false end.

Definition is_scc11 (m : CanMsg) : bool :=
  match m with create_scc11 _ _ _ _ _ _ => true | _ => false end.

Definition count (p : CanMsg -> bool) (l : list CanMsg) : Z :=
  Z.of_nat (List.length (filter p l)).

(** The counter fields of the SCC12 messages of a list, in order. *)
Fixpoint scc12_counters (l : list CanMsg) : list Z :=
  match l with
  | [] => []
  | create_scc12 _ _ cnt _ _ :: t => cnt :: scc12_counters t
  | _ :: t => scc12_counters t
  end.

(** The steering torque fields of the lane-keep messages of a list. *)
Fixpoint lkas11_torques (l : list CanMsg) : list Z :=
  match l with
  | [] => []
  | create_lkas11 _ _ apply_steer _ _ _ _ _ _ _ _ _ _ :: t =>
      apply_steer :: lkas11_torques t
  | _ :: t => lkas11_torques t
  end.

(** The set-speed fields of the SCC11 messages of a list. *)
Fixpoint scc11_set_speeds (l : list CanMsg) : list Q :=
  match l with
  | [] => []
  | create_scc11 _ _ s _ _ _ :: t => s :: scc11_set_speeds t
  | _ :: t => scc11_set_speeds t
  end.

(** [seed, seed+1, ...] modulo [m], [n] values. *)
Fixpoint counters_from (m seed : Z) (n : nat) : list Z :=
  match n with
  | O => []
  | S k => seed mod m :: counters_from m (seed + 1) k
  end.

(** ** A reference instance of the collaborators and sample snapshots *)

Module Sample.

(** Values of the upstream project: selfdrive.config.Conversions,
    common.realtime, values.Buttons, lateral_planner. *)
Definition conversions : Conversions :=
  {| KPH_TO_MS := 10 # 36;
     MS_TO_KPH := 36 # 10;
     MS_TO_MPH := 3600000 # 1609344 |}.

Definition buttons : ButtonCodes :=
  {| NONE := 0; RES_ACCEL := 1; SET_DECEL := 2; GAP_DIST := 3;
     CANCEL := 4 |}.

(** A limiter that only clamps to the torque range; the sample runs do
    not depend on the rate limits. *)
Definition clamp_limiter (new_steer last : Z) (driver : Q) : Z :=
  Z.max (- SteerLimitParams.STEER_MAX)
    (Z.min SteerLimitParams.STEER_MAX new_steer).

Definition externals : Externals :=
  {| CV := conversions;
     Buttons := buttons;
     DT_CTRL := 1 # 100;
     LANE_CHANGE_SPEED_MIN := 201168 # 10000;
     apply_std_steer_torque_limits := clamp_limiter;
     send_lfa_mfa := fun c => CAR_eqb c SONATA || CAR_eqb c PALISADE |}.

Definition car_params : CarParams :=
  {| carFingerprint := SONATA;
     openpilotLongitudinalControl := false;
     radarOffCan := false;
     minSteerSpeed := 0;
     enableCruise := true |}.

Definition long_car_params : CarParams :=
  {| carFingerprint := SONATA;
     openpilotLongitudinalControl := true;
     radarOffCan := false;
     minSteerSpeed := 0;
     enableCruise := true |}.

Definition quiet_smoother : SmootherCycle :=
  {| is_active := false;
     get_wait_count := 3;
     get_fused_accel := fun accel aReq => (accel, 0%Q);
     smoother_sends := [];
     inject_events := fun evs => evs |}.

Definition busy_smoother : SmootherCycle :=
  {| is_active := true;
     get_wait_count := 3;
     get_fused_accel := fun accel aReq => (accel, 0%Q);
     smoother_sends := [];
     inject_events := fun evs => evs |}.

Definition message (v : Q) (left right stand : bool) : CarStateMsg :=
  {| vEgo := v;
     steeringAngleDeg := 0;
     steeringTorque := 0;
     leftBlinker := left;
     rightBlinker := right;
     cruiseState :=
       {| cs_enabled := true; cs_available := true; standstill := stand |};
     canValid := true;
     buttonEvents := [];
     events := [] |}.

(** A snapshot: speed, blinkers, standstill, lead distance, the two bus
    indices and the two echoed counters. *)
Definition snapshot (v : Q) (left right stand : bool) (lead : Q)
    (mdps scc lkas_echo scc_echo : Z) : CarState :=
  {| out := message v left right stand;
     CP_maxSteeringAngleDeg := 90 # 1;
     mdps_bus := mdps;
     scc_bus := scc;
     lkas11 := {| CF_Lkas_MsgCount := lkas_echo; lkas11_rest := [] |};
     clu11 := {| CF_Clu_Vanz := v * (36 # 10); clu11_rest := [] |};
     scc11 := {| AliveCounterACC := 0; scc11_rest := [] |};
     scc12 :=
       {| CR_VSM_Alive := scc_echo; aReqValue := 0; scc12_rest := [] |};
     scc13 := [];
     scc14 := [];
     mdps12 := [];
     is_set_speed_in_mph := false;
     no_radar := false;
     lead_distance := lead;
     cruiseState_enabled := true;
     has_scc13 := false;
     has_scc14 := false;
     cruise_buttons := 0;
     prev_cruise_buttons := 0;
     cruise_main_button := 0;
     prev_cruise_main_button := 0;
     cruise_unavail := false |}.

Definition controls0 : Controls :=
  {| clu_speed_ms := 0;
     c_apply_accel := 0;
     c_aReqValue := 0;
     aReqValueMin := 0;
     aReqValueMax := 0;
     fused_accel := 0;
     lead_drel := 0;
     sm_radarState := [] |}.

(** The snapshot [cs] with other cruise-button codes. *)
Definition with_buttons (cs : CarState) (now before : Z) : CarState :=
  {| out := out cs;
     CP_maxSteeringAngleDeg := CP_maxSteeringAngleDeg cs;
     mdps_bus := mdps_bus cs;
     scc_bus := scc_bus cs;
     lkas11 := lkas11 cs;
     clu11 := clu11 cs;
     scc11 := scc11 cs;
     scc12 := scc12 cs;
     scc13 := scc13 cs;
     scc14 := scc14 cs;
     mdps12 := mdps12 cs;
     is_set_speed_in_mph := is_set_speed_in_mph cs;
     no_radar := no_radar cs;
     lead_distance := lead_distance cs;
     cruiseState_enabled := cruiseState_enabled cs;
     has_scc13 := has_scc13 cs;
     has_scc14 := has_scc14 cs;
     cruise_buttons := now;
     prev_cruise_buttons := before;
     cruise_main_button := cruise_main_button cs;
     prev_cruise_main_button := prev_cruise_main_button cs;
     cruise_unavail := cruise_unavail cs |}.

(** What [CarInterface.update] receives for a snapshot; the message
    [CS.update] returned is the snapshot's. *)
Definition received (cs : CarState) (sm : SmootherCycle) : InterfaceArgs :=
  {| new_CS := cs;
     ret0 := out cs;
     cp_can_valid := true;
     cp2_can_valid := true;
     cp_cam_can_valid := true;
     common_events := [];
     i_smoother := sm |}.

Definition car_control (en : bool) (g : Q) : CarControl :=
  {| c_enabled := en;
     c_actuators := {| gas := g; brake := 0; steer := 0 |};
     cruiseControl_cancel := false;
     hudControl :=
       {| visualAlert := va_none;
          leftLaneVisible := true;
          rightLaneVisible := true;
          leftLaneDepart := false;
          rightLaneDepart := false;
          setSpeed := 20 # 1;
          leadVisible := true |} |}.

(** One cycle of the driver loop: enablement, gas, the smoother's
    answers and the snapshot. *)
Definition drive (en : bool) (g : Q) (sm : SmootherCycle) (cs : CarState)
  : CycleInput :=
  {| ci_update := received cs sm;
     ci_control := car_control en g;
     ci_radarState := [] |}.

Definition cycle_input (cs : CarState) : CycleInput :=
  drive true 0 quiet_smoother cs.

(** A cycle at standstill with the given lead distance. *)
Definition stopped (lead : Q) (sm : SmootherCycle) : CycleInput :=
  drive true 0 sm (snapshot 0 false false true lead 0 0 0 0).

(** The loop state at construction. *)
Definition start (CP : CarParams) : CarInterface * Controls :=
  (CarInterface_init CP false (snapshot 0 false false false 0 0 0 0 0),
   controls0).

(** An episode: the baseline 5 is captured on the first cycle, then the
    lead stands at distance 4 for eight cycles. *)
Definition burst_episode : list CycleInput :=
  stopped 5 quiet_smoother :: repeat (stopped 4 quiet_smoother) 8.

End Sample.

(** Components of the result of [process_hud_alert]. *)
Definition sys_warning_of (t : bool * Z * Z * Z) : bool := fst (fst (fst t)).
Definition sys_state_of (t : bool * Z * Z * Z) : Z := snd (fst (fst t)).

(** ** Further views of the two files *)

(** *** CarInterface.get_params: bus topology and safety model

    [fingerprint[b]] is the dictionary of the message addresses seen on
    bus [b]; only its keys are read. *)
Inductive SafetyModel : Type := hyundaiLegacy | hyundai | hyundaiCommunity.

Definition Fingerprint : Type := Z -> list Z.

(** [addr in fingerprint[bus]] *)
Definition on_bus (fp : Fingerprint) (addr bus : Z) : bool :=
  existsb (Z.eqb addr) (fp bus).

Record Topology : Type :=
  { communityFeature : bool;
    mdpsBus : Z;
    sasBus : Z;
    sccBus : Z;
    t_radarOffCan : bool;
    t_enableCruise : bool;
    safetyModel : SafetyModel }.

(** The statements of [get_params] that decide the fields above;
    [LongControlEnabled] and [MadModeEnabled] are the persistent flags. *)
Definition get_params_topology (candidate : CAR) (fingerprint : Fingerprint)
    (LongControlEnabled MadModeEnabled : bool) : Topology :=
  let safety := hyundaiLegacy in
  let safety := if CAR_in candidate [SONATA] then hyundai else safety in
  let community := negb (CAR_in candidate [SONATA; PALISADE]) in
  (* ignore CAN2 address if L-CAN on the same BUS *)
  let mdps :=
    if on_bus fingerprint 593 1 && negb (on_bus fingerprint 1296 1)
    then 1 else 0 in
  let sas :=
    if on_bus fingerprint 688 1 && negb (on_bus fingerprint 1296 1)
    then 1 else 0 in
  let scc :=
    if on_bus fingerprint 1056 0 then 0
    else if on_bus fingerprint 1056 1 && negb (on_bus fingerprint 1296 1)
    then 1
    else if on_bus fingerprint 1056 2 then 2
    else -1 in
  let radar_off := scc =? -1 in
  let safety :=
    if radar_off || (mdps =? 1) || LongControlEnabled || (scc =? 1)
       || MadModeEnabled
    then hyundaiCommunity else safety in
  {| communityFeature := community;
     mdpsBus := mdps;
     sasBus := sas;
     sccBus := scc;
     t_radarOffCan := radar_off;
     t_enableCruise := negb radar_off;
     safetyModel := safety |}.

(** *** The blocks of messages of one call of update *)

Section Views.

Variable E : Externals.

Definition hud_of (CC : CarController) (a : UpdateArgs) : bool * Z * Z * Z :=
  process_hud_alert (enabled a) (car_fingerprint CC) (visual_alert a)
    (left_lane a) (right_lane a) (left_lane_depart a) (right_lane_depart a).

Definition lkas11_to (CC : CarController) (a : UpdateArgs) (bus : Z)
  : CanMsg :=
  create_lkas11 (frame a) (car_fingerprint CC) (apply_steer_of E CC a)
    (lkas_active_of E CC a) (lkas11 (CS a))
    (sys_warning_of (hud_of CC a)) (sys_state_of (hud_of CC a))
    (enabled a) (left_lane a) (right_lane a)
    (snd (fst (hud_of CC a))) (snd (hud_of CC a)) bus.

(** [enabled_speed] when the cluster message for the MDPS is built. *)
Definition enabled_speed_of (CC : CarController) (a : UpdateArgs) : Q :=
  let clu11_speed := CF_Clu_Vanz (clu11 (CS a)) in
  let enabled_speed : Q :=
    if is_set_speed_in_mph (CS a) then 38 # 1 else 60 # 1 in
  if (clu11_speed >?q enabled_speed) || negb (lkas_active_of E CC a)
  then clu11_speed else enabled_speed.

Definition lkas_sends (CC : CarController) (a : UpdateArgs) : list CanMsg :=
  lkas11_to CC a 0
  :: (if Z_truthy (mdps_bus (CS a)) || (scc_bus (CS a) =? 1)
      then [lkas11_to CC a 1] else []).

Definition clu11_mdps_sends (CC : CarController) (a : UpdateArgs)
  : list CanMsg :=
  if Z_truthy (frame a mod 2) && Z_truthy (mdps_bus (CS a))
  then [create_clu11 (frame a / 2 mod 16) (mdps_bus (CS a)) (clu11 (CS a))
          (NONE (Buttons E)) (enabled_speed_of CC a)]
  else [].

Definition cancel_sends (CC : CarController) (a : UpdateArgs) : list CanMsg :=
  if pcm_cancel_cmd a && (longcontrol CC && negb (mad_mode_enabled CC))
  then [create_clu11 (frame a mod 16) (scc_bus (CS a)) (clu11 (CS a))
          (CANCEL (Buttons E)) (CF_Clu_Vanz (clu11 (CS a)))]
  else [].

Definition mdps12_sends (a : UpdateArgs) : list CanMsg :=
  if Z_truthy (mdps_bus (CS a))
  then [create_mdps12 (frame a) (mdps12 (CS a))] else [].

Definition lfa_sends (CC : CarController) (a : UpdateArgs) : list CanMsg :=
  if (frame a mod 5 =? 0) && send_lfa_mfa E (car_fingerprint CC)
  then [create_lfahda_mfc (enabled a)] else [].

(** The blocks in the order update appends them. *)
Definition blocks (CC : CarController) (a : UpdateArgs) : list CanMsg :=
  lkas_sends CC a ++ clu11_mdps_sends CC a ++ cancel_sends CC a
  ++ presses_of E CC a
  ++ map smoother_msg (smoother_sends (smoother a))
  ++ mdps12_sends a
  ++ (if scc_gate CC a
      then scc_sends E CC a (fst (accel_command CC (actuators a)))
             (scc12_cnt_wrapped CC a)
      else [])
  ++ lfa_sends CC a.

End Views.

(** The events before the loop over the button events. *)
Definition events_before_buttons (I : CarInterface) (ia : InterfaceArgs)
    (alert low : bool) : list EventName :=
  let cs := new_CS ia in
  let evs := common_events ia in
  let evs :=
    if longcontrol (I_CC I) && cruise_unavail cs
    then add evs brakeUnavailable else evs in
  let evs :=
    if low && negb (Z_truthy (mdps_bus cs))
    then add evs belowSteerSpeed else evs in
  let evs := if alert then add evs turningIndicatorOn else evs in
  if I_mad_mode_enabled I then discard pedalPressed evs else evs.

(** ** Further sample inputs *)

Module Scenario.

(** Full longitudinal control on a car without SCC on any bus. *)
Definition long_no_radar_params : CarParams :=
  {| carFingerprint := SONATA;
     openpilotLongitudinalControl := true;
     radarOffCan := true;
     minSteerSpeed := 0;
     enableCruise := false |}.

Definition snapshot0 : CarState :=
  Sample.snapshot 10 false false false 0 0 0 0 0.

(** The accelerate button (code 1) has just been released. *)
Definition accel_released : InterfaceArgs :=
  Sample.received (Sample.with_buttons snapshot0 0 1) Sample.quiet_smoother.

(** A cycle without a blinker at 10 m/s. *)
Definition cruising : CycleInput := Sample.cycle_input snapshot0.

(** The snapshot [cs] with another reported accel request in SCC12. *)
Definition with_request (cs : CarState) (req : Q) : CarState :=
  {| out := out cs;
     CP_maxSteeringAngleDeg := CP_maxSteeringAngleDeg cs;
     mdps_bus := mdps_bus cs;
     scc_bus := scc_bus cs;
     lkas11 := lkas11 cs;
     clu11 := clu11 cs;
     scc11 := scc11 cs;
     scc12 :=
       {| CR_VSM_Alive := CR_VSM_Alive (scc12 cs);
          aReqValue := req;
          scc12_rest := scc12_rest (scc12 cs) |};
     scc13 := scc13 cs;
     scc14 := scc14 cs;
     mdps12 := mdps12 cs;
     is_set_speed_in_mph := is_set_speed_in_mph cs;
     no_radar := no_radar cs;
     lead_distance := lead_distance cs;
     cruiseState_enabled := cruiseState_enabled cs;
     has_scc13 := has_scc13 cs;
     has_scc14 := has_scc14 cs;
     cruise_buttons := cruise_buttons cs;
     prev_cruise_buttons := prev_cruise_buttons cs;
     cruise_main_button := cruise_main_button cs;
     prev_cruise_main_button := prev_cruise_main_button cs;
     cruise_unavail := cruise_unavail cs |}.

(** A fusion collaborator that lets the vehicle's own request through. *)
Definition arbitrating_smoother : SmootherCycle :=
  {| is_active := false;
     get_wait_count := 3;
     get_fused_accel := fun accel aReq => (aReq, 0%Q);
     smoother_sends := [];
     inject_events := fun evs => evs |}.

(** Full gas at 10 m/s with the SCC on bus 1; the vehicle reports the
    accel request 2.25. *)
Definition native_request : CycleInput :=
  Sample.drive true 1 arbitrating_smoother
    (with_request (Sample.snapshot 10 false false false 0 0 1 0 0) (9 # 4)).

(** The snapshot [cs] with other cruise flags in the message of
    [CS.update]. *)
Definition with_cruise (cs : CarState) (en av : bool) : CarState :=
  {| out :=
       {| vEgo := vEgo (out cs);
          steeringAngleDeg := steeringAngleDeg (out cs);
          steeringTorque := steeringTorque (out cs);
          leftBlinker := leftBlinker (out cs);
          rightBlinker := rightBlinker (out cs);
          cruiseState :=
            {| cs_enabled := en;
               cs_available := av;
               standstill := standstill (cruiseState (out cs)) |};
          canValid := canValid (out cs);
          buttonEvents := buttonEvents (out cs);
          events := events (out cs) |};
     CP_maxSteeringAngleDeg := CP_maxSteeringAngleDeg cs;
     mdps_bus := mdps_bus cs;
     scc_bus := scc_bus cs;
     lkas11 := lkas11 cs;
     clu11 := clu11 cs;
     scc11 := scc11 cs;
     scc12 := scc12 cs;
     scc13 := scc13 cs;
     scc14 := scc14 cs;
     mdps12 := mdps12 cs;
     is_set_speed_in_mph := is_set_speed_in_mph cs;
     no_radar := no_radar cs;
     lead_distance := lead_distance cs;
     cruiseState_enabled := cruiseState_enabled cs;
     has_scc13 := has_scc13 cs;
     has_scc14 := has_scc14 cs;
     cruise_buttons := cruise_buttons cs;
     prev_cruise_buttons := prev_cruise_buttons cs;
     cruise_main_button := cruise_main_button cs;
     prev_cruise_main_button := prev_cruise_main_button cs;
     cruise_unavail := cruise_unavail cs |}.

(** The decelerate button (code 2) has just been released; the vehicle's
    cruise is switched on (available) and not engaged (not enabled). *)
Definition decel_released_main_on : InterfaceArgs :=
  Sample.received
    (with_cruise (Sample.with_buttons snapshot0 0 2) false true)
    Sample.quiet_smoother.

(** The same release with the vehicle's cruise engaged. *)
Definition decel_released_engaged : InterfaceArgs :=
  Sample.received
    (with_cruise (Sample.with_buttons snapshot0 0 2) true true)
    Sample.quiet_smoother.

(** A cycle away from standstill. *)
Definition rolling : CycleInput :=
  Sample.cycle_input (Sample.snapshot 1 false false false 4 0 0 0 0).

End Scenario.

(** More classifiers and field readers. *)
Definition is_clu11 (m : CanMsg) : bool :=
  match m with create_clu11 _ _ _ _ _ => true | _ => false end.

Definition is_mdps12 (m : CanMsg) : bool :=
  match m with create_mdps12 _ _ => true | _ => false end.

Definition is_scc13 (m : CanMsg) : bool :=
  match m with create_scc13 _ => true | _ => false end.

Definition is_scc14 (m : CanMsg) : bool :=
  match m with create_scc14 _ _ => true | _ => false end.

Definition is_lfahda_mfc (m : CanMsg) : bool :=
  match m with create_lfahda_mfc _ => true | _ => false end.

Definition is_smoother_msg (m : CanMsg) : bool :=
  match m with smoother_msg _ => true | _ => false end.

(** The accel fields of the SCC12 messages of a list. *)
Fixpoint scc12_accels (l : list CanMsg) : list Q :=
  match l with
  | [] => []
  | create_scc12 accel _ _ _ _ :: t => accel :: scc12_accels t
  | _ :: t => scc12_accels t
  end.

(** The frame fields of the lane-keep messages for bus 0. *)
Fixpoint lkas11_frames (l : list CanMsg) : list Z :=
  match l with
  | [] => []
  | create_lkas11 f _ _ _ _ _ _ _ _ _ _ _ bus :: t =>
      if bus =? 0 then f :: lkas11_frames t else lkas11_frames t
  | _ :: t => lkas11_frames t
  end.

(** The counter fields of the cluster-button messages of a list. *)
Fixpoint clu11_counters (l : list CanMsg) : list Z :=
  match l with
  | [] => []
  | create_clu11 cnt _ _ _ _ :: t => cnt :: clu11_counters t
  | _ :: t => clu11_counters t
  end.

(** How often an event occurs in the event list. *)
Definition occurrences (x : EventName) (l : list EventName) : nat :=
  List.length (filter (EventName_eqb x) l).

(** [0, 1, ..., n - 1] from [start]. *)
Fixpoint frames_from (start : Z) (n : nat) : list Z :=
  match n with
  | O => []
  | S k => start :: frames_from (start + 1) k
  end.

(** The native cruise's accel request a cycle reports. *)
Definition aReq_of (ci : CycleInput) : Q :=
  aReqValue (scc12 (new_CS (ci_update ci))).

(** No blinker is active in the snapshot of a cycle. *)
Definition blinkers_off (ci : CycleInput) : bool :=
  negb (leftBlinker (ret0 (ci_update ci))
        || rightBlinker (ret0 (ci_update ci))).

Section RunViews.

Variable E : Externals.

(** The counter fields of the resume presses of a run, in order. *)
Fixpoint press_counters (s : CarInterface * Controls) (l : list CycleInput)
  : list Z :=
  match l with
  | [] => []
  | ci :: t =>
      clu11_counters (cycle_presses E s ci) ++ press_counters (after E s ci) t
  end.

End RunViews.

(** * Properties *)

(** ** Boolean comparisons on rationals *)

Lemma Qltb_lt (x y : Q) : (x <?q y) = true <-> (x < y)%Q.
Proof.
  unfold Qltb. rewrite negb_true_iff.
  split; intro H.
  - apply Qnot_le_lt. intro L. apply Qle_bool_iff in L. congruence.
  - destruct (Qle_bool y x) eqn:B; [|reflexivity].
    apply Qle_bool_iff in B. exfalso. exact (Qlt_not_le _ _ H B).
Qed.

Lemma Qltb_ge (x y : Q) : (x <?q y) = false <-> (y <= x)%Q.
Proof.
  unfold Qltb. rewrite negb_false_iff. apply Qle_bool_iff.
Qed.

Lemma Qgtb_gt (x y : Q) : (x >?q y) = true <-> (y < x)%Q.
Proof. unfold Qgtb. apply Qltb_lt. Qed.

Lemma Qgtb_le (x y : Q) : (x >?q y) = false <-> (x <= y)%Q.
Proof. unfold Qgtb. apply Qltb_ge. Qed.

Lemma Qneb_neq (x y : Q) : (x !=?q y) = true <-> ~ (x == y)%Q.
Proof.
  unfold Qneb. rewrite negb_true_iff.
  split; intro H.
  - intro K. apply Qeq_bool_iff in K. congruence.
  - destruct (x ==?q y) eqn:B; [|reflexivity].
    apply Qeq_bool_iff in B. contradiction.
Qed.

Lemma Qeqb_eq (x y : Q) : (x ==?q y) = true <-> (x == y)%Q.
Proof. apply Qeq_bool_iff. Qed.

Lemma Qeqb_neq (x y : Q) : (x ==?q y) = false <-> ~ (x == y)%Q.
Proof.
  rewrite <- Qneb_neq. unfold Qneb. rewrite negb_true_iff. reflexivity.
Qed.

(** ** The clip and the scale *)

Lemma clip_bounds (x lo hi : Q) :
  (lo <= hi)%Q -> (lo <= clip x lo hi <= hi)%Q.
Proof.
  intro H. unfold clip. split.
  - apply Q.le_max_l.
  - apply Q.max_lub; [exact H | apply Q.le_min_l].
Qed.

Lemma clip_inside (x lo hi : Q) :
  (lo <= x <= hi)%Q -> (clip x lo hi == x)%Q.
Proof.
  intros [H1 H2]. unfold clip.
  rewrite (Q.min_r hi x H2). apply Q.max_r. exact H1.
Qed.

Lemma ACCEL_SCALE_value : CarControllerParams.ACCEL_SCALE = (4 # 1)%Q.
Proof. reflexivity. Qed.

(** ** The hysteresis filter *)

Lemma accel_hysteresis_output (accel steady : Q) :
  fst (accel_hysteresis accel steady) = snd (accel_hysteresis accel steady).
Proof. reflexivity. Qed.

Lemma accel_hysteresis_hold (accel steady : Q) :
  (Qabs (accel - steady) <= CarControllerParams.ACCEL_HYST_GAP)%Q ->
  snd (accel_hysteresis accel steady) = steady.
Proof.
  intro H. apply Qabs_Qle_condition in H. destruct H as [H1 H2].
  unfold accel_hysteresis. simpl.
  destruct (accel >?q steady + CarControllerParams.ACCEL_HYST_GAP) eqn:G.
  - apply Qgtb_gt in G. exfalso. lra.
  - destruct (accel <?q steady - CarControllerParams.ACCEL_HYST_GAP) eqn:L.
    + apply Qltb_lt in L. exfalso. lra.
    + reflexivity.
Qed.

Lemma accel_hysteresis_moves (accel steady : Q) :
  snd (accel_hysteresis accel steady) <> steady ->
  (CarControllerParams.ACCEL_HYST_GAP < Qabs (accel - steady))%Q.
Proof.
  intro H.
  destruct (Qlt_le_dec CarControllerParams.ACCEL_HYST_GAP
              (Qabs (accel - steady))) as [L|L]; [exact L|].
  exfalso. apply H. apply accel_hysteresis_hold. exact L.
Qed.

(** ** Sample evaluations *)

Example hysteresis_holds_small_step :
  accel_hysteresis (51 # 100) (50 # 100) = (50 # 100, 50 # 100)%Q.
Proof. reflexivity. Qed.

Example hysteresis_follows_large_step :
  accel_hysteresis (60 # 100) (50 # 100)
  = ((60 # 100) - (2 # 100), (60 # 100) - (2 # 100))%Q.
Proof. reflexivity. Qed.

Example round_half_to_even :
  py_round (5 # 2) = 2 /\ py_round (7 # 2) = 4 /\ py_round (- (5 # 2)) = -2
  /\ py_round (409 # 2) = 204 /\ py_round (13 # 5) = 3.
Proof. repeat split. Qed.

Example hud_left_only_with_warning :
  sys_state_of
    (process_hud_alert false SONATA steerRequired true false false false) = 3.
Proof. reflexivity. Qed.

Example departure_codes :
  process_hud_alert true GENESIS_G80 va_none true true true false
  = (false, 3, 1, 0)
  /\ process_hud_alert true SONATA va_none true true false true
     = (false, 3, 0, 2).
Proof. split; reflexivity. Qed.

(** Capture on the first cycle, eight presses, cooldown 3 as the smoother
    says. *)
Example burst_episode_outcome :
  let s0 := Sample.start Sample.car_params in
  let s := after_all Sample.externals s0 Sample.burst_episode in
  presses Sample.externals s0 Sample.burst_episode = 8
  /\ bursts Sample.externals s0 Sample.burst_episode = 1
  /\ resume_cnt (controller s) = 0
  /\ resume_wait_timer (controller s) = 3
  /\ (last_lead_distance (controller s) == 5 # 1)%Q.
Proof. vm_compute. repeat split. Qed.

(** The three cooldown cycles press nothing; the fourth presses again. *)
Example cooldown_then_press :
  let s0 := Sample.start Sample.car_params in
  let s := after_all Sample.externals s0 Sample.burst_episode in
  let wait := repeat (Sample.stopped 4 Sample.quiet_smoother) 3 in
  presses Sample.externals s wait = 0
  /\ resume_wait_timer (controller (after_all Sample.externals s wait)) = 0
  /\ List.length
       (cycle_presses Sample.externals (after_all Sample.externals s wait)
          (Sample.stopped 4 Sample.quiet_smoother)) = 1%nat.
Proof. vm_compute. repeat split. Qed.

(** Frame 0 with full longitudinal control and the native cruise on
    bus 1: the messages in emission order. *)
Example first_cycle_messages :
  let cs := Sample.snapshot 10 false false false 0 1 1 3 13 in
  map (fun m =>
         match m with
         | create_lkas11 _ _ _ _ _ _ _ _ _ _ _ _ bus => (1, bus)
         | create_clu11 _ bus _ _ _ => (2, bus)
         | create_scc12 _ _ cnt _ _ => (3, cnt)
         | create_scc11 _ _ _ _ _ _ => (4, 0)
         | create_scc13 _ => (5, 0)
         | create_scc14 _ _ => (6, 0)
         | create_mdps12 _ _ => (7, 0)
         | create_lfahda_mfc _ => (8, 0)
         | smoother_msg _ => (9, 0)
         end)
    (snd (run Sample.externals
            (CarInterface_init Sample.long_car_params false cs,
             Sample.controls0)
            [Sample.cycle_input cs]))
  = [(1, 0); (1, 1); (7, 0); (3, 14); (4, 0); (8, 0)].
Proof. vm_compute. reflexivity. Qed.

(** ** What one call of update leaves in the controller and sends *)

Section UpdateFacts.

Variable E : Externals.

Ltac open_update CC a :=
  unfold next, can_sends_of, update;
  destruct (accel_command CC (actuators a)) as [cmd steady'];
  destruct (process_hud_alert (enabled a) (car_fingerprint CC)
              (visual_alert a) (left_lane a) (right_lane a)
              (left_lane_depart a) (right_lane_depart a))
    as [[[warn state] lw] rw];
  destruct (auto_resume E CC a (CF_Clu_Vanz (clu11 (CS a))))
    as [rs [[last' cnt'] wait']];
  cbn [fst snd].

Lemma next_accel_steady CC a :
  accel_steady (next E CC a) = snd (accel_command CC (actuators a)).
Proof. open_update CC a. reflexivity. Qed.

Lemma next_apply_accel_last CC a :
  apply_accel_last (next E CC a) = fst (accel_command CC (actuators a)).
Proof. open_update CC a. reflexivity. Qed.

Lemma update_controls_apply_accel CC a :
  c_apply_accel (snd (fst (update E CC a)))
  = fst (accel_command CC (actuators a)).
Proof. open_update CC a. reflexivity. Qed.

Lemma next_apply_steer_last CC a :
  apply_steer_last (next E CC a) = apply_steer_of E CC a.
Proof. open_update CC a. reflexivity. Qed.

Lemma next_turning_signal_timer CC a :
  turning_signal_timer (next E CC a)
  = turning_signal_timer_next E CC (out (CS a)).
Proof. open_update CC a. reflexivity. Qed.

Lemma next_turning_indicator_alert CC a :
  turning_indicator_alert (next E CC a) = turning_indicator_alert CC.
Proof. open_update CC a. reflexivity. Qed.

Lemma next_lkas11_cnt CC a :
  lkas11_cnt (next E CC a) = lkas11_cnt_next CC a.
Proof. open_update CC a. reflexivity. Qed.

Lemma next_scc12_cnt CC a :
  scc12_cnt (next E CC a)
  = if scc_gate CC a
    then scc12_cnt_wrapped CC a + 1 else scc12_cnt_wrapped CC a.
Proof. open_update CC a. reflexivity. Qed.

Lemma next_longcontrol CC a : longcontrol (next E CC a) = longcontrol CC.
Proof. open_update CC a. reflexivity. Qed.

Lemma next_scc_live CC a : scc_live (next E CC a) = scc_live CC.
Proof. open_update CC a. reflexivity. Qed.

Lemma next_resume CC a :
  (last_lead_distance (next E CC a), resume_cnt (next E CC a),
   resume_wait_timer (next E CC a))
  = snd (auto_resume E CC a (CF_Clu_Vanz (clu11 (CS a)))).
Proof. open_update CC a. reflexivity. Qed.

(** The messages of one call, block by block. *)
Lemma can_sends_of_blocks CC a :
  exists lk clu cancel mdps lfa,
    can_sends_of E CC a
    = lk ++ clu ++ cancel ++ presses_of E CC a
      ++ map smoother_msg (smoother_sends (smoother a)) ++ mdps
      ++ (if scc_gate CC a
          then scc_sends E CC a (fst (accel_command CC (actuators a)))
                 (scc12_cnt_wrapped CC a)
          else [])
      ++ lfa
    /\ lkas11_torques lk
       = apply_steer_of E CC a
         :: (if Z_truthy (mdps_bus (CS a)) || (scc_bus (CS a) =? 1)
             then [apply_steer_of E CC a] else [])
    /\ count (is_lkas11_on 0) lk = 1
    /\ scc12_counters lk = [] /\ scc11_set_speeds lk = []
    /\ (forall m, In m (clu ++ cancel ++ mdps ++ lfa) ->
          is_lkas11 m = false /\ is_scc12 m = false
          /\ is_scc11 m = false).
Proof.
  unfold presses_of. open_update CC a.
  set (lkas := create_lkas11 (frame a) (car_fingerprint CC)
                 (apply_steer_of E CC a) (lkas_active_of E CC a)
                 (lkas11 (CS a)) warn state (enabled a) (left_lane a)
                 (right_lane a) lw rw).
  exists (lkas 0
          :: (if Z_truthy (mdps_bus (CS a)) || (scc_bus (CS a) =? 1)
              then [lkas 1] else [])).
  eexists. eexists. eexists. eexists.
  split; [cbn [app]; reflexivity|].
  split; [|split; [|split; [|split]]];
    try (destruct (Z_truthy (mdps_bus (CS a)) || (scc_bus (CS a) =? 1));
         reflexivity).
  - intros m Hm.
    repeat (apply in_app_or in Hm; destruct Hm as [Hm|Hm]);
      repeat match type of Hm with
             | In _ (if ?c then _ else _) => destruct c
             end;
      simpl in Hm; intuition (subst; auto).
Qed.

End UpdateFacts.

(** ** Reading fields off a list of messages *)

Lemma lkas11_torques_app (l1 l2 : list CanMsg) :
  lkas11_torques (l1 ++ l2) = lkas11_torques l1 ++ lkas11_torques l2.
Proof.
  induction l1 as [|m t IH]; [reflexivity|].
  destruct m; simpl; rewrite IH; reflexivity.
Qed.

Lemma scc12_counters_app (l1 l2 : list CanMsg) :
  scc12_counters (l1 ++ l2) = scc12_counters l1 ++ scc12_counters l2.
Proof.
  induction l1 as [|m t IH]; [reflexivity|].
  destruct m; simpl; rewrite IH; reflexivity.
Qed.

Lemma scc11_set_speeds_app (l1 l2 : list CanMsg) :
  scc11_set_speeds (l1 ++ l2) = scc11_set_speeds l1 ++ scc11_set_speeds l2.
Proof.
  induction l1 as [|m t IH]; [reflexivity|].
  destruct m; simpl; rewrite IH; reflexivity.
Qed.

Lemma count_app (p : CanMsg -> bool) (l1 l2 : list CanMsg) :
  count p (l1 ++ l2) = count p l1 + count p l2.
Proof.
  unfold count. rewrite filter_app, length_app. lia.
Qed.

Lemma count_nonneg (p : CanMsg -> bool) (l : list CanMsg) : 0 <= count p l.
Proof. unfold count. lia. Qed.

Lemma lkas11_torques_none (l : list CanMsg) :
  (forall m, In m l -> is_lkas11 m = false) -> lkas11_torques l = [].
Proof.
  induction l as [|m t IH]; intro H; [reflexivity|].
  assert (Hm := H m (or_introl eq_refl)).
  destruct m; simpl in *; try discriminate;
    apply IH; intros x Hx; apply H; right; exact Hx.
Qed.

Lemma scc12_counters_none (l : list CanMsg) :
  (forall m, In m l -> is_scc12 m = false) -> scc12_counters l = [].
Proof.
  induction l as [|m t IH]; intro H; [reflexivity|].
  assert (Hm := H m (or_introl eq_refl)).
  destruct m; simpl in *; try discriminate;
    apply IH; intros x Hx; apply H; right; exact Hx.
Qed.

Lemma scc11_set_speeds_none (l : list CanMsg) :
  (forall m, In m l -> is_scc11 m = false) -> scc11_set_speeds l = [].
Proof.
  induction l as [|m t IH]; intro H; [reflexivity|].
  assert (Hm := H m (or_introl eq_refl)).
  destruct m; simpl in *; try discriminate;
    apply IH; intros x Hx; apply H; right; exact Hx.
Qed.

Lemma count_none (p : CanMsg -> bool) (l : list CanMsg) :
  (forall m, In m l -> p m = false) -> count p l = 0.
Proof.
  unfold count. induction l as [|m t IH]; intro H; [reflexivity|].
  simpl. rewrite (H m (or_introl eq_refl)).
  apply IH. intros x Hx. apply H. right. exact Hx.
Qed.

Lemma count_scc12_counters (l : list CanMsg) :
  count is_scc12 l = Z.of_nat (List.length (scc12_counters l)).
Proof.
  unfold count. induction l as [|m t IH]; [reflexivity|].
  destruct m; simpl; try exact IH. lia.
Qed.

Lemma is_lkas11_on_is_lkas11 (b : Z) (m : CanMsg) :
  is_lkas11 m = false -> is_lkas11_on b m = false.
Proof. destruct m; simpl; congruence. Qed.

Section SendsFacts.

Variable E : Externals.

Lemma presses_of_cases CC a :
  presses_of E CC a = []
  \/ presses_of E CC a
     = [create_clu11 (resume_cnt CC) (scc_bus (CS a)) (clu11 (CS a))
          (RES_ACCEL (Buttons E)) (CF_Clu_Vanz (clu11 (CS a)))].
Proof.
  unfold presses_of, auto_resume.
  repeat match goal with
         | |- context [if ?c then _ else _] => destruct c
         end; simpl; auto.
Qed.

Lemma presses_of_length CC a : (List.length (presses_of E CC a) <= 1)%nat.
Proof.
  destruct (presses_of_cases CC a) as [H|H]; rewrite H; simpl; lia.
Qed.

Lemma presses_of_other CC a m :
  In m (presses_of E CC a) ->
  is_lkas11 m = false /\ is_scc12 m = false /\ is_scc11 m = false.
Proof.
  destruct (presses_of_cases CC a) as [H|H]; rewrite H; simpl;
    intuition (subst; auto).
Qed.

Lemma smoother_msg_other (l : list Signals) m :
  In m (map smoother_msg l) ->
  is_lkas11 m = false /\ is_scc12 m = false /\ is_scc11 m = false.
Proof.
  intro H. apply in_map_iff in H. destruct H as [x [Hx _]].
  subst m. auto.
Qed.

Lemma scc_sends_fields CC a accel cnt :
  lkas11_torques (scc_sends E CC a accel cnt) = []
  /\ scc12_counters (scc_sends E CC a accel cnt) = [cnt]
  /\ scc11_set_speeds (scc_sends E CC a accel cnt) = [set_speed_out E a]
  /\ count (is_lkas11_on 0) (scc_sends E CC a accel cnt) = 0.
Proof.
  unfold scc_sends.
  destruct (has_scc13 (CS a) && (frame a mod 20 =? 0));
    destruct (has_scc14 (CS a)); repeat split.
Qed.

(** The torque fields of the lane-keep messages of one call. *)
Lemma can_sends_lkas11_torques CC a :
  lkas11_torques (can_sends_of E CC a)
  = apply_steer_of E CC a
    :: (if Z_truthy (mdps_bus (CS a)) || (scc_bus (CS a) =? 1)
        then [apply_steer_of E CC a] else []).
Proof.
  destruct (can_sends_of_blocks E CC a)
    as (lk & clu & cancel & mdps & lfa & Heq & Hlk & _ & _ & _ & Hrest).
  rewrite Heq.
  destruct (scc_sends_fields CC a (fst (accel_command CC (actuators a)))
              (scc12_cnt_wrapped CC a)) as (Hs & _).
  rewrite !lkas11_torques_app, Hlk.
  rewrite (lkas11_torques_none clu), (lkas11_torques_none cancel),
    (lkas11_torques_none (presses_of E CC a)),
    (lkas11_torques_none (map smoother_msg _)),
    (lkas11_torques_none mdps), (lkas11_torques_none lfa).
  - destruct (scc_gate CC a); [rewrite Hs|]; cbn [lkas11_torques];
      rewrite !app_nil_r; reflexivity.
  - intros m Hm. apply Hrest. rewrite !in_app_iff. auto.
  - intros m Hm. apply Hrest. rewrite !in_app_iff. auto.
  - intros m Hm. apply (smoother_msg_other _ _ Hm).
  - intros m Hm. apply (presses_of_other _ _ _ Hm).
  - intros m Hm. apply Hrest. rewrite !in_app_iff. auto.
  - intros m Hm. apply Hrest. rewrite !in_app_iff. auto.
Qed.

Ltac rest_of H := intros m Hm; apply H; rewrite !in_app_iff; auto.

(** The counter fields of the SCC12 messages of one call. *)
Lemma can_sends_scc12_counters CC a :
  scc12_counters (can_sends_of E CC a)
  = if scc_gate CC a then [scc12_cnt_wrapped CC a] else [].
Proof.
  destruct (can_sends_of_blocks E CC a)
    as (lk & clu & cancel & mdps & lfa & Heq & _ & _ & Hlk & _ & Hrest).
  destruct (scc_sends_fields CC a (fst (accel_command CC (actuators a)))
              (scc12_cnt_wrapped CC a)) as (_ & Hs & _).
  rewrite Heq, !scc12_counters_app, Hlk.
  rewrite (scc12_counters_none clu), (scc12_counters_none cancel),
    (scc12_counters_none (presses_of E CC a)),
    (scc12_counters_none (map smoother_msg _)),
    (scc12_counters_none mdps), (scc12_counters_none lfa).
  - destruct (scc_gate CC a); [rewrite Hs|]; reflexivity.
  - rest_of Hrest.
  - rest_of Hrest.
  - intros m Hm. apply (smoother_msg_other _ _ Hm).
  - intros m Hm. apply (presses_of_other _ _ _ Hm).
  - rest_of Hrest.
  - rest_of Hrest.
Qed.

(** The set-speed fields of the SCC11 messages of one call. *)
Lemma can_sends_scc11_set_speeds CC a :
  scc11_set_speeds (can_sends_of E CC a)
  = if scc_gate CC a then [set_speed_out E a] else [].
Proof.
  destruct (can_sends_of_blocks E CC a)
    as (lk & clu & cancel & mdps & lfa & Heq & _ & _ & _ & Hlk & Hrest).
  destruct (scc_sends_fields CC a (fst (accel_command CC (actuators a)))
              (scc12_cnt_wrapped CC a)) as (_ & _ & Hs & _).
  rewrite Heq, !scc11_set_speeds_app, Hlk.
  rewrite (scc11_set_speeds_none clu), (scc11_set_speeds_none cancel),
    (scc11_set_speeds_none (presses_of E CC a)),
    (scc11_set_speeds_none (map smoother_msg _)),
    (scc11_set_speeds_none mdps), (scc11_set_speeds_none lfa).
  - destruct (scc_gate CC a); [rewrite Hs|]; reflexivity.
  - rest_of Hrest.
  - rest_of Hrest.
  - intros m Hm. apply (smoother_msg_other _ _ Hm).
  - intros m Hm. apply (presses_of_other _ _ _ Hm).
  - rest_of Hrest.
  - rest_of Hrest.
Qed.

(** Exactly one lane-keep message per call goes to bus 0. *)
Lemma can_sends_count_lkas11_bus0 CC a :
  count (is_lkas11_on 0) (can_sends_of E CC a) = 1.
Proof.
  destruct (can_sends_of_blocks E CC a)
    as (lk & clu & cancel & mdps & lfa & Heq & _ & Hlk & _ & _ & Hrest).
  destruct (scc_sends_fields CC a (fst (accel_command CC (actuators a)))
              (scc12_cnt_wrapped CC a)) as (_ & _ & _ & Hs).
  rewrite Heq, !count_app, Hlk.
  rewrite (count_none _ clu), (count_none _ cancel),
    (count_none _ (presses_of E CC a)),
    (count_none _ (map smoother_msg _)),
    (count_none _ mdps), (count_none _ lfa).
  - destruct (scc_gate CC a); [rewrite Hs|]; reflexivity.
  - intros m Hm. apply is_lkas11_on_is_lkas11. revert m Hm. rest_of Hrest.
  - intros m Hm. apply is_lkas11_on_is_lkas11. revert m Hm. rest_of Hrest.
  - intros m Hm. apply is_lkas11_on_is_lkas11.
    apply (smoother_msg_other _ _ Hm).
  - intros m Hm. apply is_lkas11_on_is_lkas11.
    apply (presses_of_other _ _ _ Hm).
  - intros m Hm. apply is_lkas11_on_is_lkas11. revert m Hm. rest_of Hrest.
  - intros m Hm. apply is_lkas11_on_is_lkas11. revert m Hm. rest_of Hrest.
Qed.

(** The presses of the auto-resume block are part of the messages. *)
Lemma presses_of_sent CC a m :
  In m (presses_of E CC a) -> In m (can_sends_of E CC a).
Proof.
  destruct (can_sends_of_blocks E CC a)
    as (lk & clu & cancel & mdps & lfa & Heq & _).
  rewrite Heq, !in_app_iff. auto.
Qed.

End SendsFacts.

(** ** One cycle of the driver loop *)

Section CycleFacts.

Variable E : Externals.

Lemma cycle_unfold I ctl ci :
  let CC1 := cycle_CC E I ci in
  let a := cycle_args E I ctl ci in
  let r := cycle E (I, ctl) ci in
  I_CC (fst (fst r)) = next E CC1 a
  /\ I_frame (fst (fst r)) = I_frame I + 1
  /\ snd r = can_sends_of E CC1 a
  /\ frame a = I_frame I
  /\ lkas11 (CS a) = lkas11 (new_CS (ci_update ci))
  /\ scc12 (CS a) = scc12 (new_CS (ci_update ci))
  /\ no_radar (CS a) = no_radar (new_CS (ci_update ci))
  /\ lkas11_cnt CC1 = lkas11_cnt (I_CC I)
  /\ scc12_cnt CC1 = scc12_cnt (I_CC I).
Proof.
  intros CC1 a r. subst CC1 a r.
  unfold cycle, apply, cycle_CC, cycle_args, next, can_sends_of.
  destruct (update E _ _) as [[CC' ctl'] sends] eqn:Hu.
  cbn [fst snd I_CC I_frame].
  repeat apply conj; reflexivity.
Qed.

Lemma run_cons s ci l :
  run E s (ci :: l)
  = (fst (run E (fst (cycle E s ci)) l),
     snd (cycle E s ci) ++ snd (run E (fst (cycle E s ci)) l)).
Proof.
  cbn [run]. destruct (cycle E s ci) as [s1 m1]. cbn [fst snd].
  destruct (run E s1 l) as [s2 m2]. reflexivity.
Qed.

Lemma after_all_cons s ci l :
  after_all E s (ci :: l) = after_all E (after E s ci) l.
Proof. unfold after_all, after. rewrite run_cons. reflexivity. Qed.

Lemma after_all_snoc l :
  forall s ci, after_all E s (l ++ [ci]) = after E (after_all E s l) ci.
Proof.
  induction l as [|c l IH]; intros s ci.
  - cbn [app]. rewrite after_all_cons. reflexivity.
  - cbn [app]. rewrite !after_all_cons. apply IH.
Qed.

(** What update sees of the loop state and of the cycle's input. *)
Lemma cycle_view s ci :
  controller (after E s ci)
  = next E (cycle_CC E (fst s) ci) (cycle_args E (fst s) (snd s) ci)
  /\ snd (cycle E s ci)
     = can_sends_of E (cycle_CC E (fst s) ci)
         (cycle_args E (fst s) (snd s) ci)
  /\ last_lead_distance (cycle_CC E (fst s) ci)
     = last_lead_distance (controller s)
  /\ resume_cnt (cycle_CC E (fst s) ci) = resume_cnt (controller s)
  /\ resume_wait_timer (cycle_CC E (fst s) ci)
     = resume_wait_timer (controller s)
  /\ standstill
       (cruiseState (out (CS (cycle_args E (fst s) (snd s) ci))))
     = at_standstill ci
  /\ lead_distance (CS (cycle_args E (fst s) (snd s) ci))
     = lead_distance (new_CS (ci_update ci))
  /\ smoother (cycle_args E (fst s) (snd s) ci) = i_smoother (ci_update ci).
Proof.
  destruct s as [I ctl]. unfold controller, after. cbn [fst snd].
  destruct (cycle_unfold I ctl ci) as (Hcc & _ & Hs & _).
  rewrite Hcc, Hs. repeat apply conj; reflexivity.
Qed.

End CycleFacts.

Lemma count_scc11_set_speeds (l : list CanMsg) :
  count is_scc11 l = Z.of_nat (List.length (scc11_set_speeds l)).
Proof.
  unfold count. induction l as [|m t IH]; [reflexivity|].
  destruct m; simpl; try exact IH. lia.
Qed.

(** ** The HUD mapper *)

(** C8.  The display code of [process_hud_alert], for every input: 3 when
    (both lanes are visible or the warning flag is set) and (enabled or
    warning); 4 when (both lanes or warning) but neither enabled nor
    warning; and, the first clause not applying, 5 when only the left lane
    is visible, 6 when only the right lane is visible, 1 when no lane is
    visible.  The warning flag is set exactly for the alert
    "steer required".  The three sample inputs of the claim follow. *)
Theorem process_hud_alert_display_code :
  forall (en : bool) (fp : CAR) (va : VisualAlert) (l r ld rd : bool),
    let t := process_hud_alert en fp va l r ld rd in
    let w := sys_warning_of t in
    (w = true <-> va = steerRequired)
    /\ ((l && r) || w = true -> en || w = true -> sys_state_of t = 3)
    /\ ((l && r) || w = true -> en || w = false -> sys_state_of t = 4)
    /\ (l = true -> r = false -> w = false -> sys_state_of t = 5)
    /\ (l = false -> r = true -> w = false -> sys_state_of t = 6)
    /\ (l = false -> r = false -> w = false -> sys_state_of t = 1)
    /\ sys_state_of (process_hud_alert true fp va_none true true ld rd) = 3
    /\ sys_state_of (process_hud_alert en fp va_none false false ld rd) = 1
    /\ sys_state_of (process_hud_alert en fp va_none false true ld rd) = 6.
Proof.
  intros en fp va l r ld rd t w. subst w t.
  unfold sys_warning_of, sys_state_of, process_hud_alert. cbn [fst snd].
  split.
  { destruct va; simpl; split; intro H; congruence. }
  destruct (VisualAlert_eqb va steerRequired), l, r, en; simpl;
    repeat split; intros; congruence.
Qed.

(** ** The longitudinal command *)

(** The command is the clipped value, not the scaled one: in the first
    cycle after construction with full gas the steady value goes from 0
    to 0.98; its scaling by 4 is 3.92, outside [-4, 1.5], and the command
    is 1.5. *)
Lemma accel_command_not_the_scaled_steady_value :
  let s0 := Sample.start Sample.car_params in
  let ci :=
    Sample.drive true 1 Sample.quiet_smoother
      (Sample.snapshot 10 false false false 0 0 0 0 0) in
  let CC' := controller (after Sample.externals s0 ci) in
  (accel_steady (controller s0) == 0)%Q
  /\ (gas (c_actuators (ci_control ci))
      - brake (c_actuators (ci_control ci)) == 1)%Q
  /\ (accel_steady CC' == 98 # 100)%Q
  /\ (apply_accel_last CC' == 15 # 10)%Q
  /\ (accel_steady CC'
      * Qmax CarControllerParams.ACCEL_MAX
             (Qabs CarControllerParams.ACCEL_MIN) == 392 # 100)%Q
  /\ ~ (apply_accel_last CC'
        == accel_steady CC'
           * Qmax CarControllerParams.ACCEL_MAX
                  (Qabs CarControllerParams.ACCEL_MIN))%Q.
Proof.
  vm_compute. repeat split; discriminate.
Qed.

(** The limiter's command, as update stores it: in every call, whatever
    the state, the steady value of the hysteresis filter changes only if
    the raw input (gas - brake) differs from it by more than 0.02; the
    command is the new steady value scaled by
    max(ACCEL_MAX, |ACCEL_MIN|) = 4 and then clipped to
    [ACCEL_MIN, ACCEL_MAX]; it lies in [-4, 1.5]; and it equals the scaled
    steady value whenever that lies in the range. *)
Lemma accel_command_stored :
  forall (E : Externals) (CC : CarController) (a : UpdateArgs),
    let raw := (gas (actuators a) - brake (actuators a))%Q in
    let CC' := next E CC a in
    let scaled :=
      (accel_steady CC'
       * Qmax CarControllerParams.ACCEL_MAX
              (Qabs CarControllerParams.ACCEL_MIN))%Q in
    (accel_steady CC' <> accel_steady CC ->
     ((2 # 100) < Qabs (raw - accel_steady CC))%Q)
    /\ ((Qabs (raw - accel_steady CC) <= 2 # 100)%Q ->
        accel_steady CC' = accel_steady CC)
    /\ apply_accel_last CC'
       = clip scaled CarControllerParams.ACCEL_MIN
           CarControllerParams.ACCEL_MAX
    /\ c_apply_accel (snd (fst (update E CC a))) = apply_accel_last CC'
    /\ (- (4 # 1) <= apply_accel_last CC' <= 15 # 10)%Q
    /\ ((- (4 # 1) <= scaled <= 15 # 10)%Q ->
        (apply_accel_last CC' == scaled)%Q).
Proof.
  intros E CC a raw CC' scaled. subst raw CC' scaled.
  rewrite update_controls_apply_accel, next_apply_accel_last,
    next_accel_steady.
  unfold accel_command.
  destruct (accel_hysteresis (gas (actuators a) - brake (actuators a))
              (accel_steady CC)) as [cmd st] eqn:Hh.
  assert (Hst : st = snd (accel_hysteresis
                            (gas (actuators a) - brake (actuators a))
                            (accel_steady CC))) by (rewrite Hh; reflexivity).
  assert (Hcmd : cmd = st).
  { rewrite Hst. rewrite <- accel_hysteresis_output, Hh. reflexivity. }
  cbn [fst snd]. subst cmd.
  repeat split.
  - intro H. rewrite Hst in H. apply accel_hysteresis_moves in H. exact H.
  - intro H. rewrite Hst. apply accel_hysteresis_hold. exact H.
  - apply (clip_bounds _ (- (4 # 1)) (15 # 10)). discriminate.
  - apply (clip_bounds _ (- (4 # 1)) (15 # 10)). discriminate.
  - intro H. apply clip_inside. exact H.
Qed.

(** ** The lateral gate *)

Lemma lkas_active_requires_enabled (E : Externals) (CC : CarController)
    (a : UpdateArgs) :
  enabled a = false -> lkas_active_of E CC a = false.
Proof.
  intro Hen. unfold lkas_active_of. rewrite Hen. cbn [andb].
  destruct (turning_indicator_alert CC
            && (vEgo (out (CS a)) <?q (2 # 1) * KPH E)); [reflexivity|].
  destruct ((vEgo (out (CS a)) <?q (60 # 1) * KPH E)
            && CAR_eqb (car_fingerprint CC) GENESIS
            && negb (Z_truthy (mdps_bus (CS a)))); reflexivity.
Qed.

Lemma apply_steer_zero_when_inactive (E : Externals) (CC : CarController)
    (a : UpdateArgs) :
  lkas_active_of E CC a = false -> apply_steer_of E CC a = 0.
Proof. intro H. unfold apply_steer_of. rewrite H. reflexivity. Qed.

(** C3.  In every call of update with global enablement false, whatever
    the state and the other inputs: every lane-keep message of the call
    carries torque 0 (there is at least one), and 0 is stored as the
    previous applied torque. *)
Theorem steer_zero_when_not_enabled :
  forall (E : Externals) (CC : CarController) (a : UpdateArgs),
    enabled a = false ->
    lkas11_torques (can_sends_of E CC a) <> []
    /\ (forall t, In t (lkas11_torques (can_sends_of E CC a)) -> t = 0)
    /\ apply_steer_last (next E CC a) = 0.
Proof.
  intros E CC a Hen.
  assert (H0 : apply_steer_of E CC a = 0).
  { unfold apply_steer_of. rewrite (lkas_active_requires_enabled E CC a Hen).
    reflexivity. }
  rewrite can_sends_lkas11_torques, next_apply_steer_last, H0.
  split; [discriminate|]. split; [|reflexivity].
  intros t Ht.
  destruct (Z_truthy (mdps_bus (CS a)) || (scc_bus (CS a) =? 1));
    simpl in Ht; intuition.
Qed.

Lemma steer_zero_when_not_enabled_witness :
  let s0 := Sample.start Sample.car_params in
  let ci :=
    Sample.drive false 1 Sample.quiet_smoother
      (Sample.snapshot 10 false false false 0 1 0 0 0) in
  let CC := cycle_CC Sample.externals (fst s0) ci in
  let a := cycle_args Sample.externals (fst s0) (snd s0) ci in
  lkas11_torques (can_sends_of Sample.externals CC a) <> []
  /\ (forall t, In t (lkas11_torques (can_sends_of Sample.externals CC a)) ->
        t = 0)
  /\ apply_steer_last (next Sample.externals CC a) = 0.
Proof.
  intros s0 ci CC a.
  apply (steer_zero_when_not_enabled Sample.externals CC a).
  reflexivity.
Defined.

(** ** The set speed *)

(** C9.  In every call of update: a set speed that is not strictly
    between 30 km/h and 255 km/h (in m/s) is replaced by exactly 30 km/h
    before the conversion to display units; a set speed strictly inside
    the range is only converted; and this is the value every SCC11
    message of the call carries (there is one when the native-cruise
    pair is sent). *)
Theorem set_speed_floor_then_convert :
  forall (E : Externals) (CC : CarController) (a : UpdateArgs),
    let kph := KPH_TO_MS (CV E) in
    let unit :=
      if is_set_speed_in_mph (CS a)
      then MS_TO_MPH (CV E) else MS_TO_KPH (CV E) in
    (~ ((30 # 1) * kph < set_speed a /\ set_speed a < (255 # 1) * kph)%Q ->
     set_speed_out E a = ((30 # 1) * kph * unit)%Q)
    /\ (((30 # 1) * kph < set_speed a /\ set_speed a < (255 # 1) * kph)%Q ->
        set_speed_out E a = (set_speed a * unit)%Q)
    /\ (forall s, In s (scc11_set_speeds (can_sends_of E CC a)) ->
          s = set_speed_out E a)
    /\ (scc_gate CC a = true ->
        scc11_set_speeds (can_sends_of E CC a) = [set_speed_out E a]).
Proof.
  intros E CC a kph unit. subst kph unit.
  split; [|split; [|split]].
  - intro H. unfold set_speed_out, min_set_speed, KPH.
    destruct (((30 # 1) * KPH_TO_MS (CV E)) <?q set_speed a) eqn:H1;
      [|reflexivity].
    destruct (set_speed a <?q ((255 # 1) * KPH_TO_MS (CV E))) eqn:H2;
      [|reflexivity].
    exfalso. apply H. split; apply Qltb_lt; assumption.
  - intros [H1 H2]. unfold set_speed_out, min_set_speed, KPH.
    apply Qltb_lt in H1. apply Qltb_lt in H2. rewrite H1, H2. reflexivity.
  - intros s Hs. rewrite can_sends_scc11_set_speeds in Hs.
    destruct (scc_gate CC a); simpl in Hs; [|contradiction].
    destruct Hs as [Hs|[]]. symmetry. exact Hs.
  - intro Hg. rewrite can_sends_scc11_set_speeds, Hg. reflexivity.
Qed.

(** ** Cycle 0 *)

Lemma scc12_seed (CC : CarController) (a : UpdateArgs) :
  frame a = 0 -> no_radar (CS a) = false ->
  scc12_cnt_wrapped CC a = (CR_VSM_Alive (scc12 (CS a)) + 1) mod 15.
Proof.
  intros Hf Hr. unfold scc12_cnt_wrapped. rewrite Hf, Hr. reflexivity.
Qed.

Lemma scc_gate_requires_longcontrol (CC : CarController) (a : UpdateArgs) :
  longcontrol CC = false -> scc_gate CC a = false.
Proof. intro H. unfold scc_gate. rewrite H. reflexivity. Qed.

(** C5 as stated fails: on cycle 0 with echoed alive counter 7, radar
    present and full longitudinal control disabled, the controller's
    native-cruise counter is 8 after the cycle, not 7. *)
Lemma scc12_seed_is_not_the_echo :
  let s0 := Sample.start Sample.car_params in
  let ci :=
    Sample.cycle_input (Sample.snapshot 10 false false false 0 0 0 3 7) in
  let r := cycle Sample.externals s0 ci in
  I_frame (fst s0) = 0
  /\ CR_VSM_Alive (scc12 (new_CS (ci_update ci))) = 7
  /\ no_radar (new_CS (ci_update ci)) = false
  /\ longcontrol (controller s0) = false
  /\ scc12_cnt (controller (fst r)) = 8
  /\ scc12_cnt (controller (fst r)) <> 7.
Proof.
  vm_compute. repeat split; discriminate.
Qed.

(** C5, amended.  On cycle 0 (frame 0), if the echoed native-cruise alive
    counter is 7 and the radar is present, the controller's native-cruise
    counter is seeded to 8, the successor of the echo; with full
    longitudinal control disabled the call emits no SCC12 and no SCC11
    message, although frame 0 is even, and the counter is still 8 after
    the call. *)
Theorem scc12_seed_successor_of_echo :
  forall (E : Externals) (CC : CarController) (a : UpdateArgs),
    frame a = 0 ->
    CR_VSM_Alive (scc12 (CS a)) = 7 ->
    no_radar (CS a) = false ->
    longcontrol CC = false ->
    scc12_cnt_wrapped CC a = 8
    /\ scc12_cnt (next E CC a) = 8
    /\ frame a mod 2 = 0
    /\ count is_scc12 (can_sends_of E CC a) = 0
    /\ count is_scc11 (can_sends_of E CC a) = 0.
Proof.
  intros E CC a Hf Hecho Hradar Hlong.
  assert (Hseed : scc12_cnt_wrapped CC a = 8).
  { rewrite (scc12_seed CC a Hf Hradar), Hecho. reflexivity. }
  assert (Hgate := scc_gate_requires_longcontrol CC a Hlong).
  rewrite next_scc12_cnt, count_scc12_counters, count_scc11_set_speeds,
    can_sends_scc12_counters, can_sends_scc11_set_speeds, Hgate, Hseed, Hf.
  repeat split.
Qed.

Lemma scc12_seed_successor_of_echo_witness :
  let s0 := Sample.start Sample.car_params in
  let ci :=
    Sample.cycle_input (Sample.snapshot 10 false false false 0 0 0 3 7) in
  let CC := cycle_CC Sample.externals (fst s0) ci in
  let a := cycle_args Sample.externals (fst s0) (snd s0) ci in
  scc12_cnt_wrapped CC a = 8
  /\ scc12_cnt (next Sample.externals CC a) = 8
  /\ frame a mod 2 = 0
  /\ count is_scc12 (can_sends_of Sample.externals CC a) = 0
  /\ count is_scc11 (can_sends_of Sample.externals CC a) = 0.
Proof.
  intros s0 ci CC a.
  apply (scc12_seed_successor_of_echo Sample.externals CC a);
    reflexivity.
Defined.

(** ** The auto-resume machine *)

Section Resume.

Variable E : Externals.

Local Notation "'speed_of' a" := (CF_Clu_Vanz (clu11 (CS a)))
  (at level 10, a at level 9).

Lemma next_last_lead_distance CC a :
  last_lead_distance (next E CC a)
  = fst (fst (snd (auto_resume E CC a (speed_of a)))).
Proof. rewrite <- next_resume. reflexivity. Qed.

Lemma next_resume_cnt CC a :
  resume_cnt (next E CC a)
  = snd (fst (snd (auto_resume E CC a (speed_of a)))).
Proof. rewrite <- next_resume. reflexivity. Qed.

Lemma next_resume_wait_timer CC a :
  resume_wait_timer (next E CC a)
  = snd (snd (auto_resume E CC a (speed_of a))).
Proof. rewrite <- next_resume. reflexivity. Qed.

Ltac open_resume :=
  rewrite ?next_last_lead_distance, ?next_resume_cnt,
    ?next_resume_wait_timer;
  unfold presses_of, auto_resume.

(** First branch: no baseline yet. *)
Lemma resume_capture CC a :
  standstill (cruiseState (out (CS a))) = true ->
  (last_lead_distance CC == 0)%Q ->
  presses_of E CC a = []
  /\ last_lead_distance (next E CC a) = lead_distance (CS a)
  /\ resume_cnt (next E CC a) = 0
  /\ resume_wait_timer (next E CC a) = 0.
Proof.
  intros Hs H0. apply Qeqb_eq in H0. open_resume.
  rewrite Hs, H0. repeat split.
Qed.

(** Second branch: the smoother claims activity. *)
Lemma resume_smoother_active CC a :
  standstill (cruiseState (out (CS a))) = true ->
  ~ (last_lead_distance CC == 0)%Q ->
  is_active (smoother a) = true ->
  presses_of E CC a = []
  /\ last_lead_distance (next E CC a) = last_lead_distance CC
  /\ resume_cnt (next E CC a) = resume_cnt CC
  /\ resume_wait_timer (next E CC a) = resume_wait_timer CC.
Proof.
  intros Hs H0 Ha. apply Qeqb_neq in H0. open_resume.
  rewrite Hs, H0, Ha. repeat split.
Qed.

(** Third branch: cooldown. *)
Lemma resume_cooldown CC a :
  standstill (cruiseState (out (CS a))) = true ->
  ~ (last_lead_distance CC == 0)%Q ->
  is_active (smoother a) = false ->
  0 < resume_wait_timer CC ->
  presses_of E CC a = []
  /\ last_lead_distance (next E CC a) = last_lead_distance CC
  /\ resume_cnt (next E CC a) = resume_cnt CC
  /\ resume_wait_timer (next E CC a) = resume_wait_timer CC - 1.
Proof.
  intros Hs H0 Ha Ht. apply Qeqb_neq in H0.
  apply Z.gtb_lt in Ht. open_resume.
  rewrite Hs, H0, Ha, Ht. repeat split.
Qed.

(** Fourth branch: the lead distance differs from the baseline. *)
Lemma resume_press CC a :
  standstill (cruiseState (out (CS a))) = true ->
  ~ (last_lead_distance CC == 0)%Q ->
  is_active (smoother a) = false ->
  resume_wait_timer CC <= 0 ->
  ~ (lead_distance (CS a) == last_lead_distance CC)%Q ->
  presses_of E CC a
  = [create_clu11 (resume_cnt CC) (scc_bus (CS a)) (clu11 (CS a))
       (RES_ACCEL (Buttons E)) (speed_of a)]
  /\ last_lead_distance (next E CC a) = last_lead_distance CC
  /\ resume_cnt (next E CC a)
     = (if resume_cnt CC + 1 >=? 8 then 0 else resume_cnt CC + 1)
  /\ resume_wait_timer (next E CC a)
     = (if resume_cnt CC + 1 >=? 8
        then get_wait_count (smoother a) else resume_wait_timer CC).
Proof.
  intros Hs H0 Ha Ht Hd. apply Qeqb_neq in H0. apply Qneb_neq in Hd.
  assert (Ht' : (resume_wait_timer CC >? 0) = false).
  { destruct (resume_wait_timer CC >? 0) eqn:G; [|reflexivity].
    apply Z.gtb_lt in G. lia. }
  open_resume. rewrite Hs, H0, Ha, Ht', Hd.
  destruct (resume_cnt CC + 1 >=? 8); repeat split.
Qed.

(** Last standstill branch: the lead distance is the baseline. *)
Lemma resume_hold CC a :
  standstill (cruiseState (out (CS a))) = true ->
  ~ (last_lead_distance CC == 0)%Q ->
  is_active (smoother a) = false ->
  resume_wait_timer CC <= 0 ->
  (lead_distance (CS a) == last_lead_distance CC)%Q ->
  presses_of E CC a = []
  /\ last_lead_distance (next E CC a) = last_lead_distance CC
  /\ resume_cnt (next E CC a) = resume_cnt CC
  /\ resume_wait_timer (next E CC a) = resume_wait_timer CC.
Proof.
  intros Hs H0 Ha Ht Hd. apply Qeqb_neq in H0.
  assert (Hd' : (lead_distance (CS a) !=?q last_lead_distance CC) = false).
  { unfold Qneb. apply Qeqb_eq in Hd. rewrite Hd. reflexivity. }
  assert (Ht' : (resume_wait_timer CC >? 0) = false).
  { destruct (resume_wait_timer CC >? 0) eqn:G; [|reflexivity].
    apply Z.gtb_lt in G. lia. }
  open_resume. rewrite Hs, H0, Ha, Ht', Hd'. repeat split.
Qed.

(** Not at standstill: the baseline goes back to zero. *)
Lemma resume_moving CC a :
  standstill (cruiseState (out (CS a))) = false ->
  presses_of E CC a = []
  /\ (last_lead_distance (next E CC a) == 0)%Q
  /\ resume_cnt (next E CC a) = resume_cnt CC
  /\ resume_wait_timer (next E CC a) = resume_wait_timer CC.
Proof.
  intro Hs. open_resume. rewrite Hs.
  destruct (last_lead_distance CC !=?q 0) eqn:H0; cbn [fst snd];
    repeat split; try reflexivity.
  unfold Qneb in H0. apply negb_false_iff in H0.
  apply Qeqb_eq in H0. exact H0.
Qed.

(** The five standstill branches cover every call at standstill. *)
Lemma resume_branch CC a :
  standstill (cruiseState (out (CS a))) = true ->
  (last_lead_distance CC == 0)%Q
  \/ (~ (last_lead_distance CC == 0)%Q
      /\ (is_active (smoother a) = true
          \/ (is_active (smoother a) = false
              /\ (0 < resume_wait_timer CC
                  \/ (resume_wait_timer CC <= 0
                      /\ (~ (lead_distance (CS a)
                             == last_lead_distance CC)%Q
                          \/ (lead_distance (CS a)
                              == last_lead_distance CC)%Q)))))).
Proof.
  intros _.
  destruct (Qeq_dec (last_lead_distance CC) 0) as [H0|H0]; [left; exact H0|].
  right. split; [exact H0|].
  destruct (is_active (smoother a)); [left; reflexivity|].
  right. split; [reflexivity|].
  destruct (Z_lt_le_dec 0 (resume_wait_timer CC)) as [Ht|Ht];
    [left; exact Ht|].
  right. split; [exact Ht|].
  destruct (Qeq_dec (lead_distance (CS a)) (last_lead_distance CC));
    [right|left]; assumption.
Qed.

(** A press needs standstill, a baseline, and a different lead
    distance; the smoother is idle and no cooldown is running. *)
Lemma press_conditions CC a :
  presses_of E CC a <> [] ->
  standstill (cruiseState (out (CS a))) = true
  /\ ~ (last_lead_distance CC == 0)%Q
  /\ ~ (lead_distance (CS a) == last_lead_distance CC)%Q
  /\ is_active (smoother a) = false
  /\ resume_wait_timer CC <= 0.
Proof.
  intro Hp.
  destruct (standstill (cruiseState (out (CS a)))) eqn:Hs.
  2:{ exfalso. apply Hp. apply (resume_moving CC a Hs). }
  destruct (resume_branch CC a Hs)
    as [H0|[H0 [Ha|[Ha [Ht|[Ht [Hd|Hd]]]]]]].
  - exfalso. apply Hp. apply (resume_capture CC a Hs H0).
  - exfalso. apply Hp. apply (resume_smoother_active CC a Hs H0 Ha).
  - exfalso. apply Hp. apply (resume_cooldown CC a Hs H0 Ha Ht).
  - auto.
  - exfalso. apply Hp. apply (resume_hold CC a Hs H0 Ha Ht Hd).
Qed.

(** The press counter stays in [0, 8). *)
Lemma resume_cnt_range CC a :
  0 <= resume_cnt CC < 8 -> 0 <= resume_cnt (next E CC a) < 8.
Proof.
  intro H.
  destruct (standstill (cruiseState (out (CS a)))) eqn:Hs.
  2:{ destruct (resume_moving CC a Hs) as (_ & _ & -> & _). exact H. }
  destruct (resume_branch CC a Hs)
    as [H0|[H0 [Ha|[Ha [Ht|[Ht [Hd|Hd]]]]]]].
  - destruct (resume_capture CC a Hs H0) as (_ & _ & -> & _). lia.
  - destruct (resume_smoother_active CC a Hs H0 Ha) as (_ & _ & -> & _).
    exact H.
  - destruct (resume_cooldown CC a Hs H0 Ha Ht) as (_ & _ & -> & _).
    exact H.
  - destruct (resume_press CC a Hs H0 Ha Ht Hd) as (_ & _ & -> & _).
    destruct (resume_cnt CC + 1 >=? 8) eqn:G; [lia|].
    rewrite Z.geb_leb in G. apply Z.leb_gt in G. lia.
  - destruct (resume_hold CC a Hs H0 Ha Ht Hd) as (_ & _ & -> & _).
    exact H.
Qed.

End Resume.

Section Episodes.

Variable E : Externals.

(** The branches of the auto-resume block, cycle by cycle. *)

Lemma cycle_capture s ci :
  at_standstill ci = true ->
  (last_lead_distance (controller s) == 0)%Q ->
  cycle_presses E s ci = []
  /\ last_lead_distance (controller (after E s ci))
     = lead_distance (new_CS (ci_update ci))
  /\ resume_cnt (controller (after E s ci)) = 0
  /\ resume_wait_timer (controller (after E s ci)) = 0.
Proof.
  destruct (cycle_view E s ci) as (Hn & _ & Hl & Hc & Hw & Hs & Hd & Hsm).
  intros Hst H0. unfold cycle_presses.
  rewrite Hn, <- Hd. rewrite <- Hs in Hst. rewrite <- Hl in H0.
  apply resume_capture; assumption.
Qed.

Lemma cycle_smoother_active s ci :
  at_standstill ci = true ->
  ~ (last_lead_distance (controller s) == 0)%Q ->
  is_active (i_smoother (ci_update ci)) = true ->
  cycle_presses E s ci = []
  /\ last_lead_distance (controller (after E s ci))
     = last_lead_distance (controller s)
  /\ resume_cnt (controller (after E s ci)) = resume_cnt (controller s)
  /\ resume_wait_timer (controller (after E s ci))
     = resume_wait_timer (controller s).
Proof.
  destruct (cycle_view E s ci) as (Hn & _ & Hl & Hc & Hw & Hs & Hd & Hsm).
  intros Hst H0 Ha. unfold cycle_presses.
  rewrite Hn, <- Hl, <- Hc, <- Hw.
  rewrite <- Hs in Hst. rewrite <- Hl in H0. rewrite <- Hsm in Ha.
  apply resume_smoother_active; assumption.
Qed.

Lemma cycle_cooldown s ci :
  at_standstill ci = true ->
  ~ (last_lead_distance (controller s) == 0)%Q ->
  is_active (i_smoother (ci_update ci)) = false ->
  0 < resume_wait_timer (controller s) ->
  cycle_presses E s ci = []
  /\ last_lead_distance (controller (after E s ci))
     = last_lead_distance (controller s)
  /\ resume_cnt (controller (after E s ci)) = resume_cnt (controller s)
  /\ resume_wait_timer (controller (after E s ci))
     = resume_wait_timer (controller s) - 1.
Proof.
  destruct (cycle_view E s ci) as (Hn & _ & Hl & Hc & Hw & Hs & Hd & Hsm).
  intros Hst H0 Ha Ht. unfold cycle_presses.
  rewrite Hn, <- Hl, <- Hc, <- Hw.
  rewrite <- Hs in Hst. rewrite <- Hl in H0. rewrite <- Hsm in Ha.
  rewrite <- Hw in Ht.
  apply resume_cooldown; assumption.
Qed.

Lemma cycle_press s ci :
  at_standstill ci = true ->
  ~ (last_lead_distance (controller s) == 0)%Q ->
  is_active (i_smoother (ci_update ci)) = false ->
  resume_wait_timer (controller s) <= 0 ->
  ~ (lead_distance (new_CS (ci_update ci))
     == last_lead_distance (controller s))%Q ->
  List.length (cycle_presses E s ci) = 1%nat
  /\ last_lead_distance (controller (after E s ci))
     = last_lead_distance (controller s)
  /\ resume_cnt (controller (after E s ci))
     = (if resume_cnt (controller s) + 1 >=? 8
        then 0 else resume_cnt (controller s) + 1)
  /\ resume_wait_timer (controller (after E s ci))
     = (if resume_cnt (controller s) + 1 >=? 8
        then get_wait_count (i_smoother (ci_update ci))
        else resume_wait_timer (controller s)).
Proof.
  destruct (cycle_view E s ci) as (Hn & _ & Hl & Hc & Hw & Hs & Hd & Hsm).
  intros Hst H0 Ha Ht Hne. unfold cycle_presses.
  rewrite Hn, <- Hl, <- Hc, <- Hw, <- Hsm.
  rewrite <- Hs in Hst. rewrite <- Hl in H0. rewrite <- Hsm in Ha.
  rewrite <- Hw in Ht. rewrite <- Hd, <- Hl in Hne.
  destruct (resume_press E _ _ Hst H0 Ha Ht Hne) as (Hp & R).
  rewrite Hp. split; [reflexivity | exact R].
Qed.

Lemma cycle_hold s ci :
  at_standstill ci = true ->
  ~ (last_lead_distance (controller s) == 0)%Q ->
  is_active (i_smoother (ci_update ci)) = false ->
  resume_wait_timer (controller s) <= 0 ->
  (lead_distance (new_CS (ci_update ci))
   == last_lead_distance (controller s))%Q ->
  cycle_presses E s ci = []
  /\ last_lead_distance (controller (after E s ci))
     = last_lead_distance (controller s)
  /\ resume_cnt (controller (after E s ci)) = resume_cnt (controller s)
  /\ resume_wait_timer (controller (after E s ci))
     = resume_wait_timer (controller s).
Proof.
  destruct (cycle_view E s ci) as (Hn & _ & Hl & Hc & Hw & Hs & Hd & Hsm).
  intros Hst H0 Ha Ht He. unfold cycle_presses.
  rewrite Hn, <- Hl, <- Hc, <- Hw.
  rewrite <- Hs in Hst. rewrite <- Hl in H0. rewrite <- Hsm in Ha.
  rewrite <- Hw in Ht. rewrite <- Hd, <- Hl in He.
  apply resume_hold; assumption.
Qed.

Lemma cycle_moving s ci :
  at_standstill ci = false ->
  cycle_presses E s ci = []
  /\ (last_lead_distance (controller (after E s ci)) == 0)%Q
  /\ resume_cnt (controller (after E s ci)) = resume_cnt (controller s)
  /\ resume_wait_timer (controller (after E s ci))
     = resume_wait_timer (controller s).
Proof.
  destruct (cycle_view E s ci) as (Hn & _ & Hl & Hc & Hw & Hs & Hd & Hsm).
  intros Hst. unfold cycle_presses.
  rewrite Hn, <- Hc, <- Hw. rewrite <- Hs in Hst.
  apply resume_moving; assumption.
Qed.

(** The branches cover every cycle at standstill. *)
Lemma cycle_branch s ci :
  (last_lead_distance (controller s) == 0)%Q
  \/ (~ (last_lead_distance (controller s) == 0)%Q
      /\ (is_active (i_smoother (ci_update ci)) = true
          \/ (is_active (i_smoother (ci_update ci)) = false
              /\ (0 < resume_wait_timer (controller s)
                  \/ (resume_wait_timer (controller s) <= 0
                      /\ (~ (lead_distance (new_CS (ci_update ci))
                             == last_lead_distance (controller s))%Q
                          \/ (lead_distance (new_CS (ci_update ci))
                              == last_lead_distance (controller s))%Q)))))).
Proof.
  destruct (Qeq_dec (last_lead_distance (controller s)) 0) as [H0|H0];
    [left; exact H0|].
  right. split; [exact H0|].
  destruct (is_active (i_smoother (ci_update ci))); [left; reflexivity|].
  right. split; [reflexivity|].
  destruct (Z_lt_le_dec 0 (resume_wait_timer (controller s))) as [Ht|Ht];
    [left; exact Ht|].
  right. split; [exact Ht|].
  destruct (Qeq_dec (lead_distance (new_CS (ci_update ci)))
              (last_lead_distance (controller s)));
    [right|left]; assumption.
Qed.

(** A press needs standstill, a baseline and a different lead distance;
    the smoother is idle and no cooldown is running. *)
Lemma cycle_press_conditions s ci :
  cycle_presses E s ci <> [] ->
  at_standstill ci = true
  /\ ~ (last_lead_distance (controller s) == 0)%Q
  /\ ~ (lead_distance (new_CS (ci_update ci))
        == last_lead_distance (controller s))%Q
  /\ is_active (i_smoother (ci_update ci)) = false
  /\ resume_wait_timer (controller s) <= 0.
Proof.
  intro Hp.
  destruct (at_standstill ci) eqn:Hs.
  2:{ exfalso. apply Hp. apply (cycle_moving s ci Hs). }
  destruct (cycle_branch s ci) as [H0|[H0 [Ha|[Ha [Ht|[Ht [Hd|Hd]]]]]]].
  - exfalso. apply Hp. apply (cycle_capture s ci Hs H0).
  - exfalso. apply Hp. apply (cycle_smoother_active s ci Hs H0 Ha).
  - exfalso. apply Hp. apply (cycle_cooldown s ci Hs H0 Ha Ht).
  - auto.
  - exfalso. apply Hp. apply (cycle_hold s ci Hs H0 Ha Ht Hd).
Qed.

(** The press counter stays in [0, 8). *)
Lemma cycle_resume_cnt_range s ci :
  0 <= resume_cnt (controller s) < 8 ->
  0 <= resume_cnt (controller (after E s ci)) < 8.
Proof.
  intro H. destruct (cycle_view E s ci) as (Hn & _ & _ & Hc & _).
  rewrite Hn. apply resume_cnt_range. rewrite Hc. exact H.
Qed.

Lemma run_resume_cnt_range l :
  forall s,
    0 <= resume_cnt (controller s) < 8 ->
    0 <= resume_cnt (controller (after_all E s l)) < 8.
Proof.
  induction l as [|ci l IH]; intros s H; [exact H|].
  rewrite after_all_cons. apply IH. apply cycle_resume_cnt_range. exact H.
Qed.

Lemma burst_end_without_press s ci :
  cycle_presses E s ci = [] -> burst_end E s ci = false.
Proof. intro H. unfold burst_end. rewrite H. reflexivity. Qed.

(** Presses, finished bursts and the press counter along cycles at
    standstill. *)
Lemma presses_bursts_balance l :
  forall s,
    (forall x, In x l -> at_standstill x = true) ->
    0 <= resume_cnt (controller s) < 8 ->
    ((last_lead_distance (controller s) == 0)%Q ->
     resume_cnt (controller s) = 0) ->
    presses E s l + resume_cnt (controller s)
    = 8 * bursts E s l + resume_cnt (controller (after_all E s l)).
Proof.
  induction l as [|ci l IH]; intros s Hall Hr Hz.
  - cbn. lia.
  - assert (Hs := Hall ci (or_introl eq_refl)).
    assert (Hall' : forall x, In x l -> at_standstill x = true)
      by (intros x Hx; apply Hall; right; exact Hx).
    assert (Hr' := cycle_resume_cnt_range s ci Hr).
    rewrite after_all_cons. cbn [presses bursts].
    assert (Keep : last_lead_distance (controller (after E s ci))
                   = last_lead_distance (controller s) ->
                   ~ (last_lead_distance (controller s) == 0)%Q ->
                   (last_lead_distance (controller (after E s ci)) == 0)%Q ->
                   resume_cnt (controller (after E s ci)) = 0)
      by (intros Hl H0 K; rewrite Hl in K; contradiction).
    destruct (cycle_branch s ci) as [H0|[H0 [Ha|[Ha [Ht|[Ht [Hd|Hd]]]]]]].
    + destruct (cycle_capture s ci Hs H0) as (Hp & Hl & Hc & _).
      rewrite (burst_end_without_press s ci Hp), Hp.
      specialize (IH (after E s ci) Hall' Hr' (fun _ => Hc)).
      rewrite Hc in IH. rewrite (Hz H0). cbn [List.length]. lia.
    + destruct (cycle_smoother_active s ci Hs H0 Ha) as (Hp & Hl & Hc & _).
      rewrite (burst_end_without_press s ci Hp), Hp.
      specialize (IH (after E s ci) Hall' Hr' (Keep Hl H0)).
      rewrite Hc in IH. cbn [List.length]. lia.
    + destruct (cycle_cooldown s ci Hs H0 Ha Ht) as (Hp & Hl & Hc & _).
      rewrite (burst_end_without_press s ci Hp), Hp.
      specialize (IH (after E s ci) Hall' Hr' (Keep Hl H0)).
      rewrite Hc in IH. cbn [List.length]. lia.
    + destruct (cycle_press s ci Hs H0 Ha Ht Hd) as (Hp & Hl & Hc & _).
      specialize (IH (after E s ci) Hall' Hr' (Keep Hl H0)).
      unfold burst_end. rewrite Hp. rewrite Hc in IH |- *.
      cbn [Nat.eqb negb andb].
      destruct (resume_cnt (controller s) + 1 >=? 8) eqn:G.
      * apply Z.geb_le in G. cbn [Z.eqb]. lia.
      * rewrite Z.geb_leb in G. apply Z.leb_gt in G.
        destruct (resume_cnt (controller s) + 1 =? 0) eqn:Z0;
          [apply Z.eqb_eq in Z0; lia | lia].
    + destruct (cycle_hold s ci Hs H0 Ha Ht Hd) as (Hp & Hl & Hc & _).
      rewrite (burst_end_without_press s ci Hp), Hp.
      specialize (IH (after E s ci) Hall' Hr' (Keep Hl H0)).
      rewrite Hc in IH. cbn [List.length]. lia.
Qed.

(** An episode: cycles at standstill, the first one finding no
    baseline. *)
Lemma episode_balance s ci l :
  (last_lead_distance (controller s) == 0)%Q ->
  (forall x, In x (ci :: l) -> at_standstill x = true) ->
  presses E s (ci :: l)
  = 8 * bursts E s (ci :: l)
    + resume_cnt (controller (after_all E s (ci :: l)))
  /\ 0 <= resume_cnt (controller (after_all E s (ci :: l))) < 8.
Proof.
  intros H0 Hall.
  assert (Hs := Hall ci (or_introl eq_refl)).
  destruct (cycle_capture s ci Hs H0) as (Hp & _ & Hc & _).
  assert (Hr : 0 <= resume_cnt (controller (after E s ci)) < 8)
    by (rewrite Hc; lia).
  rewrite after_all_cons. split; [|apply run_resume_cnt_range; exact Hr].
  cbn [presses bursts].
  rewrite (burst_end_without_press s ci Hp), Hp. cbn [List.length].
  assert (B := presses_bursts_balance l (after E s ci)
                 (fun x Hx => Hall x (or_intror Hx)) Hr (fun _ => Hc)).
  rewrite Hc in B. lia.
Qed.

(** The cycle that ends a burst. *)
Lemma burst_end_sets_cooldown s ci :
  0 <= resume_cnt (controller s) < 8 ->
  burst_end E s ci = true ->
  resume_cnt (controller s) = 7
  /\ resume_cnt (controller (after E s ci)) = 0
  /\ resume_wait_timer (controller (after E s ci))
     = get_wait_count (i_smoother (ci_update ci)).
Proof.
  intros Hr Hb. unfold burst_end in Hb. apply andb_true_iff in Hb.
  destruct Hb as [Hp Hc]. apply Z.eqb_eq in Hc.
  assert (Hp' : cycle_presses E s ci <> []).
  { intro K. rewrite K in Hp. discriminate. }
  destruct (cycle_press_conditions s ci Hp') as (Hs & H0 & Hd & Ha & Ht).
  destruct (cycle_press s ci Hs H0 Ha Ht Hd) as (_ & _ & Hc' & Hw).
  rewrite Hc' in Hc. rewrite Hw.
  destruct (resume_cnt (controller s) + 1 >=? 8) eqn:G.
  - apply Z.geb_le in G. repeat split; [lia | exact Hc'].
  - lia.
Qed.

(** Where a baseline comes from, along any run from construction. *)
Lemma baseline_origin CP mad cs0 ctl0 l :
  let s0 := (CarInterface_init CP mad cs0, ctl0) in
  (last_lead_distance (controller (after_all E s0 l)) == 0)%Q
  \/ exists l1 c0 l2,
       l = l1 ++ c0 :: l2
       /\ at_standstill c0 = true
       /\ (last_lead_distance (controller (after_all E s0 l1)) == 0)%Q
       /\ lead_distance (new_CS (ci_update c0))
          = last_lead_distance (controller (after_all E s0 l))
       /\ (forall x, In x l2 -> at_standstill x = true).
Proof.
  intro s0. induction l as [|ci l IH] using rev_ind.
  - left. reflexivity.
  - rewrite after_all_snoc. set (s := after_all E s0 l) in *.
    destruct (at_standstill ci) eqn:Hs.
    2:{ left. apply (cycle_moving s ci Hs). }
    assert (Keep : last_lead_distance (controller (after E s ci))
                   = last_lead_distance (controller s) ->
                   ~ (last_lead_distance (controller s) == 0)%Q ->
                   exists l1 c0 l2,
                     l ++ [ci] = l1 ++ c0 :: l2
                     /\ at_standstill c0 = true
                     /\ (last_lead_distance
                           (controller (after_all E s0 l1)) == 0)%Q
                     /\ lead_distance (new_CS (ci_update c0))
                        = last_lead_distance (controller (after E s ci))
                     /\ (forall x, In x l2 -> at_standstill x = true)).
    { intros Hl H0. destruct IH as [IH|IH]; [contradiction|].
      destruct IH as (l1 & c0 & l2 & Hl12 & Hs0 & Hz & Hlead & Hl2).
      exists l1, c0, (l2 ++ [ci]).
      rewrite Hl12, <- app_assoc. cbn [app].
      repeat split; try assumption.
      - rewrite Hl. exact Hlead.
      - intros x Hx. apply in_app_or in Hx.
        destruct Hx as [Hx|[Hx|[]]]; [apply Hl2; exact Hx|].
        subst x. exact Hs. }
    destruct (cycle_branch s ci) as [H0|[H0 [Ha|[Ha [Ht|[Ht [Hd|Hd]]]]]]].
    + right. exists l, ci, [].
      destruct (cycle_capture s ci Hs H0) as (_ & Hl & _).
      repeat split; try assumption.
      * symmetry. exact Hl.
      * intros x [].
    + right. apply Keep; [|exact H0].
      apply (cycle_smoother_active s ci Hs H0 Ha).
    + right. apply Keep; [|exact H0].
      apply (cycle_cooldown s ci Hs H0 Ha Ht).
    + right. apply Keep; [|exact H0].
      apply (cycle_press s ci Hs H0 Ha Ht Hd).
    + right. apply Keep; [|exact H0].
      apply (cycle_hold s ci Hs H0 Ha Ht Hd).
Qed.

(** The presses of a cycle are among its messages, at most one. *)
Lemma cycle_presses_sent s ci :
  (List.length (cycle_presses E s ci) <= 1)%nat
  /\ (forall m, In m (cycle_presses E s ci) -> In m (snd (cycle E s ci))).
Proof.
  destruct (cycle_view E s ci) as (_ & Hm & _).
  unfold cycle_presses. rewrite Hm. split.
  - apply presses_of_length.
  - intros m H. apply presses_of_sent. exact H.
Qed.

(** After a cycle at standstill the stored baseline is zero only if the
    cycle has just captured a lead distance of zero, and then both
    counters are zero. *)
Lemma cycle_zero_baseline s ci :
  at_standstill ci = true ->
  (last_lead_distance (controller (after E s ci)) == 0)%Q ->
  resume_cnt (controller (after E s ci)) = 0
  /\ resume_wait_timer (controller (after E s ci)) = 0.
Proof.
  intros Hs Hz.
  destruct (cycle_branch s ci) as [H0|[H0 [Ha|[Ha [Ht|[Ht [Hd|Hd]]]]]]].
  - destruct (cycle_capture s ci Hs H0) as (_ & _ & Hc & Hw).
    split; assumption.
  - destruct (cycle_smoother_active s ci Hs H0 Ha) as (_ & Hl & _).
    rewrite Hl in Hz. contradiction.
  - destruct (cycle_cooldown s ci Hs H0 Ha Ht) as (_ & Hl & _).
    rewrite Hl in Hz. contradiction.
  - destruct (cycle_press s ci Hs H0 Ha Ht Hd) as (_ & Hl & _).
    rewrite Hl in Hz. contradiction.
  - destruct (cycle_hold s ci Hs H0 Ha Ht Hd) as (_ & Hl & _).
    rewrite Hl in Hz. contradiction.
Qed.

Lemma run_zero_baseline l :
  forall s ci,
    (forall x, In x (ci :: l) -> at_standstill x = true) ->
    (last_lead_distance (controller (after_all E s (ci :: l))) == 0)%Q ->
    resume_cnt (controller (after_all E s (ci :: l))) = 0
    /\ resume_wait_timer (controller (after_all E s (ci :: l))) = 0.
Proof.
  induction l as [|x l IH]; intros s ci Hall.
  - rewrite after_all_cons. change (after_all E (after E s ci) [])
      with (after E s ci).
    apply cycle_zero_baseline. apply Hall. left. reflexivity.
  - rewrite after_all_cons. apply IH.
    intros y Hy. apply Hall. right. exact Hy.
Qed.

(** The cycles of an episode after its first one. *)
Lemma episode_later_cycle s ci l ci' :
  (forall x, In x (ci :: l) -> at_standstill x = true) ->
  at_standstill ci' = true ->
  let s' := after_all E s (ci :: l) in
  (is_active (i_smoother (ci_update ci')) = true ->
   cycle_presses E s' ci' = []
   /\ resume_cnt (controller (after E s' ci')) = resume_cnt (controller s')
   /\ resume_wait_timer (controller (after E s' ci'))
      = resume_wait_timer (controller s'))
  /\ (is_active (i_smoother (ci_update ci')) = false ->
      0 < resume_wait_timer (controller s') ->
      cycle_presses E s' ci' = []
      /\ resume_cnt (controller (after E s' ci'))
         = resume_cnt (controller s')
      /\ resume_wait_timer (controller (after E s' ci'))
         = resume_wait_timer (controller s') - 1).
Proof.
  intros Hall Hs s'.
  assert (Z0 := run_zero_baseline l s ci Hall). fold s' in Z0.
  destruct (Qeq_dec (last_lead_distance (controller s')) 0) as [H0|H0].
  - destruct (Z0 H0) as (Zc & Zw).
    destruct (cycle_capture s' ci' Hs H0) as (Hp & _ & Hc & Hw).
    split.
    + intros _. rewrite Hc, Hw, Zc, Zw. repeat split. exact Hp.
    + intros _ Ht. rewrite Zw in Ht. lia.
  - split.
    + intro Ha.
      destruct (cycle_smoother_active s' ci' Hs H0 Ha) as (Hp & _ & Hc & Hw).
      repeat split; assumption.
    + intros Ha Ht.
      destruct (cycle_cooldown s' ci' Hs H0 Ha Ht) as (Hp & _ & Hc & Hw).
      repeat split; assumption.
Qed.

End Episodes.

(** ** Resume bursts *)

(** C1 as stated fails: after the eighth press of an episode the cooldown
    counter is 3; on the next cycle, still at standstill, the smoother
    reports itself active, and the counter is still 3, not 2. *)
Lemma cooldown_held_while_smoother_active :
  let s0 := Sample.start Sample.car_params in
  let s := after_all Sample.externals s0 Sample.burst_episode in
  let ci := Sample.stopped 4 Sample.busy_smoother in
  (forall x, In x (Sample.burst_episode ++ [ci]) -> at_standstill x = true)
  /\ presses Sample.externals s0 Sample.burst_episode = 8
  /\ resume_wait_timer (controller s) = 3
  /\ cycle_presses Sample.externals s ci = []
  /\ resume_wait_timer (controller (after Sample.externals s ci)) = 3
  /\ resume_wait_timer (controller (after Sample.externals s ci))
     <> resume_wait_timer (controller s) - 1.
Proof.
  split.
  - intros x Hx. cbn in Hx.
    repeat (destruct Hx as [Hx|Hx]; [subst x; reflexivity|]).
    contradiction.
  - vm_compute. repeat split; discriminate.
Qed.

(** A cooldown left over from an earlier episode is dropped, not counted
    down: after the burst the cooldown counter is 3; one cycle away from
    standstill clears the baseline and leaves the counter; the next
    standstill cycle, the smoother idle, captures the baseline and sets
    the counter to 0. *)
Example leftover_cooldown_dropped_at_capture :
  let s0 := Sample.start Sample.car_params in
  let s :=
    after_all Sample.externals s0
      (Sample.burst_episode ++ [Scenario.rolling]) in
  let ci := Sample.stopped 4 Sample.quiet_smoother in
  at_standstill Scenario.rolling = false
  /\ resume_wait_timer (controller s) = 3
  /\ (last_lead_distance (controller s) == 0)%Q
  /\ at_standstill ci = true
  /\ is_active (i_smoother (ci_update ci)) = false
  /\ cycle_presses Sample.externals s ci = []
  /\ resume_wait_timer (controller (after Sample.externals s ci)) = 0.
Proof. vm_compute. repeat split. Qed.

(** C1, amended.  A standstill episode is a run of consecutive standstill
    cycles that starts without a stored baseline, which is the state at
    construction and after every cycle away from standstill.  Its first
    cycle emits no press, stores the lead distance as baseline and sets
    the press counter and the cooldown counter to zero.  Along the
    episode the presses emitted so far are 8 times the finished bursts
    plus the press counter, which stays below 8: at most 8 presses come
    before a cooldown is set.  The cycle that emits the 8th press resets
    the press counter to zero and sets the cooldown counter to the
    collaborator's wait count.  On every later cycle of the episode: if
    the smoother is active, no press is emitted and both counters are
    left alone; if it is not and the cooldown counter is positive, no
    press is emitted, the press counter is left alone and the cooldown
    counter goes down by one.  The same two rules hold in every state
    with a non-zero baseline.  A cycle emits at most one press, and it
    is among the messages of the cycle. *)
Theorem resume_bursts_of_eight :
  forall (E : Externals),
    (forall CP mad cs0 ctl0,
        let s0 := (CarInterface_init CP mad cs0, ctl0) in
        (last_lead_distance (controller s0) == 0)%Q
        /\ forall l, 0 <= resume_cnt (controller (after_all E s0 l)) < 8)
    /\ (forall s ci,
          at_standstill ci = false ->
          (last_lead_distance (controller (after E s ci)) == 0)%Q)
    /\ (forall s ci,
          (last_lead_distance (controller s) == 0)%Q ->
          at_standstill ci = true ->
          cycle_presses E s ci = []
          /\ last_lead_distance (controller (after E s ci))
             = lead_distance (new_CS (ci_update ci))
          /\ resume_cnt (controller (after E s ci)) = 0
          /\ resume_wait_timer (controller (after E s ci)) = 0)
    /\ (forall s ci l,
          (last_lead_distance (controller s) == 0)%Q ->
          (forall x, In x (ci :: l) -> at_standstill x = true) ->
          presses E s (ci :: l)
          = 8 * bursts E s (ci :: l)
            + resume_cnt (controller (after_all E s (ci :: l)))
          /\ 0 <= resume_cnt (controller (after_all E s (ci :: l))) < 8)
    /\ (forall s ci,
          0 <= resume_cnt (controller s) < 8 ->
          burst_end E s ci = true ->
          resume_cnt (controller s) = 7
          /\ resume_cnt (controller (after E s ci)) = 0
          /\ resume_wait_timer (controller (after E s ci))
             = get_wait_count (i_smoother (ci_update ci)))
    /\ (forall s ci l ci',
          (last_lead_distance (controller s) == 0)%Q ->
          (forall x, In x (ci :: l) -> at_standstill x = true) ->
          at_standstill ci' = true ->
          let s' := after_all E s (ci :: l) in
          (is_active (i_smoother (ci_update ci')) = true ->
           cycle_presses E s' ci' = []
           /\ resume_cnt (controller (after E s' ci'))
              = resume_cnt (controller s')
           /\ resume_wait_timer (controller (after E s' ci'))
              = resume_wait_timer (controller s'))
          /\ (is_active (i_smoother (ci_update ci')) = false ->
              0 < resume_wait_timer (controller s') ->
              cycle_presses E s' ci' = []
              /\ resume_cnt (controller (after E s' ci'))
                 = resume_cnt (controller s')
              /\ resume_wait_timer (controller (after E s' ci'))
                 = resume_wait_timer (controller s') - 1))
    /\ (forall s ci,
          at_standstill ci = true ->
          ~ (last_lead_distance (controller s) == 0)%Q ->
          is_active (i_smoother (ci_update ci)) = false ->
          0 < resume_wait_timer (controller s) ->
          cycle_presses E s ci = []
          /\ resume_wait_timer (controller (after E s ci))
             = resume_wait_timer (controller s) - 1)
    /\ (forall s ci,
          at_standstill ci = true ->
          ~ (last_lead_distance (controller s) == 0)%Q ->
          is_active (i_smoother (ci_update ci)) = true ->
          cycle_presses E s ci = []
          /\ resume_cnt (controller (after E s ci))
             = resume_cnt (controller s)
          /\ resume_wait_timer (controller (after E s ci))
             = resume_wait_timer (controller s))
    /\ (forall s ci,
          (List.length (cycle_presses E s ci) <= 1)%nat
          /\ (forall m, In m (cycle_presses E s ci) ->
                In m (snd (cycle E s ci)))).
Proof.
  intro E.
  split; [|split; [|split; [|split; [|split; [|split; [|split;
    [|split]]]]]]].
  - intros CP mad cs0 ctl0 s0. split; [reflexivity|].
    intro l. apply run_resume_cnt_range. cbn. lia.
  - intros s ci Hs. apply (cycle_moving E s ci Hs).
  - intros s ci H0 Hs. apply cycle_capture; assumption.
  - intros s ci l H0 Hall. apply episode_balance; assumption.
  - intros s ci Hr Hb. apply burst_end_sets_cooldown; assumption.
  - intros s ci l ci' _ Hall Hs. apply episode_later_cycle; assumption.
  - intros s ci Hs H0 Ha Ht.
    destruct (cycle_cooldown E s ci Hs H0 Ha Ht) as (Hp & _ & _ & Hw).
    split; assumption.
  - intros s ci Hs H0 Ha.
    destruct (cycle_smoother_active E s ci Hs H0 Ha) as (Hp & _ & Hc & Hw).
    repeat split; assumption.
  - intros s ci. apply cycle_presses_sent.
Qed.

(** C10 as stated fails: the baseline 5 is captured on the first cycle;
    on the second the vehicle is still at standstill and the snapshot's
    lead distance is 0, yet a resume press is emitted, the baseline stays
    5 and the press counter becomes 1. *)
Lemma press_with_lead_distance_zero :
  let s0 := Sample.start Sample.car_params in
  let s := after Sample.externals s0 (Sample.stopped 5 Sample.quiet_smoother) in
  let ci := Sample.stopped 0 Sample.quiet_smoother in
  at_standstill ci = true
  /\ (lead_distance (new_CS (ci_update ci)) == 0)%Q
  /\ List.length (cycle_presses Sample.externals s ci) = 1%nat
  /\ (last_lead_distance (controller (after Sample.externals s ci))
      == 5 # 1)%Q
  /\ ~ (last_lead_distance (controller (after Sample.externals s ci))
        == 0)%Q
  /\ resume_cnt (controller (after Sample.externals s ci)) = 1.
Proof.
  vm_compute. repeat split; discriminate.
Qed.

(** C10, amended.  In every cycle at standstill that finds the stored
    baseline at 0, no resume press is emitted, the baseline becomes the
    snapshot's lead distance and the press and cooldown counters are set
    to 0; so all three are 0 afterwards when that lead distance is 0.
    Consequently a press needs standstill, a non-zero stored baseline and
    a lead distance different from it; and along any run from
    construction the baseline of a pressing cycle was captured by an
    earlier cycle at standstill whose lead distance was non-zero, every
    cycle in between being at standstill. *)
Theorem resume_needs_captured_baseline :
  forall (E : Externals),
    (forall s ci,
        at_standstill ci = true ->
        (last_lead_distance (controller s) == 0)%Q ->
        cycle_presses E s ci = []
        /\ last_lead_distance (controller (after E s ci))
           = lead_distance (new_CS (ci_update ci))
        /\ resume_cnt (controller (after E s ci)) = 0
        /\ resume_wait_timer (controller (after E s ci)) = 0)
    /\ (forall s ci,
          at_standstill ci = true ->
          (last_lead_distance (controller s) == 0)%Q ->
          (lead_distance (new_CS (ci_update ci)) == 0)%Q ->
          cycle_presses E s ci = []
          /\ (last_lead_distance (controller (after E s ci)) == 0)%Q
          /\ resume_cnt (controller (after E s ci)) = 0
          /\ resume_wait_timer (controller (after E s ci)) = 0)
    /\ (forall s ci,
          cycle_presses E s ci <> [] ->
          at_standstill ci = true
          /\ ~ (last_lead_distance (controller s) == 0)%Q
          /\ ~ (lead_distance (new_CS (ci_update ci))
                == last_lead_distance (controller s))%Q)
    /\ (forall CP mad cs0 ctl0 l ci,
          let s0 := (CarInterface_init CP mad cs0, ctl0) in
          cycle_presses E (after_all E s0 l) ci <> [] ->
          exists l1 c0 l2,
            l = l1 ++ c0 :: l2
            /\ at_standstill c0 = true
            /\ (last_lead_distance (controller (after_all E s0 l1)) == 0)%Q
            /\ ~ (lead_distance (new_CS (ci_update c0)) == 0)%Q
            /\ ~ (lead_distance (new_CS (ci_update ci))
                  == lead_distance (new_CS (ci_update c0)))%Q
            /\ (forall x, In x l2 -> at_standstill x = true)).
Proof.
  intro E. repeat apply conj.
  - intros s ci Hs H0. apply cycle_capture; assumption.
  - intros s ci Hs H0 Hl.
    destruct (cycle_capture E s ci Hs H0) as (Hp & Hb & Hc & Hw).
    rewrite Hb. repeat split; assumption.
  - intros s ci Hp.
    destruct (cycle_press_conditions E s ci Hp) as (Hs & H0 & Hd & _).
    repeat split; assumption.
  - intros CP mad cs0 ctl0 l ci s0 Hp.
    destruct (cycle_press_conditions E _ ci Hp) as (Hs & H0 & Hd & _).
    destruct (baseline_origin E CP mad cs0 ctl0 l) as [Hz|Ho];
      [contradiction|].
    destruct Ho as (l1 & c0 & l2 & Hl & Hs0 & Hz & Hlead & Hl2).
    exists l1, c0, l2. fold s0 in Hlead, Hz. rewrite Hlead.
    repeat split; assumption.
Qed.

(** ** The blinker countdown *)

Lemma blinker_reset_positive (E : Externals) :
  (0 < DT_CTRL E)%Q -> (blinker_reset E >?q 0) = true.
Proof.
  intro H. apply Qgtb_gt. unfold blinker_reset.
  apply Qlt_shift_div_l; [exact H|]. rewrite Qmult_0_l. reflexivity.
Qed.

(** C6 as stated fails: the left blinker is active on two consecutive
    calls, so the second one sees no transition to active; the countdown
    stands at 49 before it and at 49 after it, reset and not decremented
    by one. *)
Lemma blinker_countdown_reset_without_transition :
  let s0 := Sample.start Sample.car_params in
  let ci :=
    Sample.cycle_input (Sample.snapshot 10 true false false 0 0 0 0 0) in
  let s1 := after Sample.externals s0 ci in
  let s2 := after Sample.externals s1 ci in
  leftBlinker (ret0 (ci_update ci)) = true
  /\ (turning_signal_timer (controller s0) == 0)%Q
  /\ (turning_signal_timer (controller s1) == 49 # 1)%Q
  /\ (turning_signal_timer (controller s2) == 49 # 1)%Q
  /\ ~ (turning_signal_timer (controller s2)
        == turning_signal_timer (controller s1) - 1)%Q.
Proof.
  vm_compute. repeat split; discriminate.
Qed.

(** C6, amended.  In every call of update: if a blinker is active, on a
    transition or not, the countdown is reset to 0.5 s worth of cycles
    and decremented once in the same call; if no blinker is active and the
    countdown is positive it goes down by exactly one, otherwise it is
    left alone; and whenever the turning-indicator alert (derived by the
    interface from the blinkers and the countdown) holds and the speed is
    below 2 km/h, every lane-keep message carries torque 0 and 0 is
    stored as the applied torque.  The interface sets the alert to
    (blinker or countdown non-zero) and speed below the lane-change
    minimum less 1.2. *)
Theorem blinker_countdown_level_triggered :
  forall (E : Externals) (CC : CarController) (a : UpdateArgs),
    let o := out (CS a) in
    let blinker := leftBlinker o || rightBlinker o in
    let t' := turning_signal_timer (next E CC a) in
    ((0 < DT_CTRL E)%Q -> blinker = true ->
     t' = ((5 # 10) / DT_CTRL E - 1)%Q)
    /\ (blinker = false -> (0 < turning_signal_timer CC)%Q ->
        t' = (turning_signal_timer CC - 1)%Q)
    /\ (blinker = false -> (turning_signal_timer CC <= 0)%Q ->
        t' = turning_signal_timer CC)
    /\ (turning_indicator_alert CC = true ->
        (vEgo o < (2 # 1) * KPH_TO_MS (CV E))%Q ->
        (forall t, In t (lkas11_torques (can_sends_of E CC a)) -> t = 0)
        /\ apply_steer_last (next E CC a) = 0)
    /\ (forall (I : CarInterface) (ia : InterfaceArgs),
          turning_indicator_alert (I_CC (fst (interface_update E I ia)))
          = (leftBlinker (ret0 ia) || rightBlinker (ret0 ia)
             || Q_truthy (turning_signal_timer (I_CC I)))
            && (vEgo (ret0 ia) <?q LANE_CHANGE_SPEED_MIN E - (12 # 10))).
Proof.
  intros E CC a o blinker t'. subst o blinker t'.
  rewrite next_turning_signal_timer. unfold turning_signal_timer_next.
  repeat apply conj.
  - intros Hdt Hb. rewrite Hb, (blinker_reset_positive E Hdt). reflexivity.
  - intros Hb Ht. rewrite Hb. apply Qgtb_gt in Ht. rewrite Ht. reflexivity.
  - intros Hb Ht. rewrite Hb. apply Qgtb_le in Ht. rewrite Ht. reflexivity.
  - intros Hal Hv.
    assert (H0 : apply_steer_of E CC a = 0).
    { apply apply_steer_zero_when_inactive. unfold lkas_active_of.
      apply Qltb_lt in Hv. unfold KPH. rewrite Hal, Hv. reflexivity. }
    rewrite can_sends_lkas11_torques, next_apply_steer_last, H0.
    split; [|reflexivity].
    intros t Ht.
    destruct (Z_truthy (mdps_bus (CS a)) || (scc_bus (CS a) =? 1));
      simpl in Ht; intuition.
  - intros I ia. reflexivity.
Qed.

(** ** The button state machine *)

Lemma remove_first_incl (x e : EventName) (l : list EventName) :
  In e (remove_first x l) -> In e l.
Proof.
  induction l as [|y t IH]; simpl; [tauto|].
  destruct (EventName_eqb x y); simpl; intuition.
Qed.

Lemma discard_incl (x e : EventName) (l : list EventName) :
  In e (discard x l) -> In e l.
Proof.
  unfold discard. destruct (event_in x l); [apply remove_first_incl|tauto].
Qed.

Lemma add_in (l : list EventName) (x e : EventName) :
  In e (add l x) <-> In e l \/ e = x.
Proof.
  unfold add. rewrite in_app_iff. simpl. intuition.
Qed.

Section Buttons.

Variable E : Externals.

(** Outside the two enabling modes a button adds no enable request. *)
Lemma handle_button_no_enable CC evs b :
  longcontrol CC = false ->
  In buttonEnable (handle_button CC false evs b) -> In buttonEnable evs.
Proof.
  intros Hl. unfold handle_button. rewrite Hl. cbn [andb negb].
  destruct (ButtonType_eqb (be_type b) bt_cancel && pressed b);
    [|tauto].
  intro H. apply add_in in H. destruct H as [H|H]; [exact H|discriminate].
Qed.

Lemma handle_buttons_no_enable CC bs :
  longcontrol CC = false ->
  forall evs,
    In buttonEnable (fold_left (handle_button CC false) bs evs) ->
    In buttonEnable evs.
Proof.
  intro Hl. induction bs as [|b t IH]; intros evs H; [exact H|].
  simpl in H. apply IH in H.
  apply (handle_button_no_enable CC evs b Hl H).
Qed.

(** In native-cruise passthrough with cruise enabled no button removes
    an event. *)
Lemma handle_button_keeps CC evs b e :
  longcontrol CC = false ->
  In e evs -> In e (handle_button CC true evs b).
Proof.
  intros Hl H. unfold handle_button. rewrite Hl. cbn [andb negb].
  destruct (ButtonType_eqb (be_type b) bt_cancel && pressed b);
    destruct (ButtonType_eqb (be_type b) decelCruise && negb (pressed b));
    rewrite ?add_in; auto.
Qed.

Lemma handle_buttons_keep CC bs e :
  longcontrol CC = false ->
  forall evs,
    In e evs -> In e (fold_left (handle_button CC true) bs evs).
Proof.
  intro Hl. induction bs as [|b t IH]; intros evs H; [exact H|].
  simpl. apply IH. apply handle_button_keeps; assumption.
Qed.

(** The button event of a release of the decelerate button. *)
Lemma button_events_decel_release cs :
  SET_DECEL (Buttons E) <> 0 ->
  SET_DECEL (Buttons E) <> RES_ACCEL (Buttons E) ->
  prev_cruise_buttons cs = SET_DECEL (Buttons E) ->
  cruise_buttons cs = 0 ->
  exists rest,
    button_events E cs
    = {| be_type := decelCruise; pressed := false |} :: rest.
Proof.
  intros Hnz Hne Hprev Hnow. unfold button_events.
  rewrite Hprev, Hnow.
  replace (0 =? SET_DECEL (Buttons E)) with false
    by (symmetry; apply Z.eqb_neq; congruence).
  cbn [negb Z.eqb].
  replace (SET_DECEL (Buttons E) =? RES_ACCEL (Buttons E)) with false
    by (symmetry; apply Z.eqb_neq; exact Hne).
  rewrite Z.eqb_refl. eexists. reflexivity.
Qed.

Lemma events_of_no_enable I ia alert low :
  longcontrol (I_CC I) = false ->
  reported_cruise_enabled I (ret0 ia) = false ->
  In buttonEnable (events_of E I ia alert low) ->
  In buttonEnable (common_events ia).
Proof.
  intros Hl Hen H. unfold events_of in H. rewrite Hen in H.
  apply (handle_buttons_no_enable _ _ Hl) in H.
  repeat match type of H with
         | In _ (if ?c then _ else _) => destruct c
         | In _ (discard _ _) => apply discard_incl in H
         | In _ (add _ _) =>
             apply add_in in H; destruct H as [H|H]; [|discriminate]
         end; exact H.
Qed.

Lemma events_of_enable I ia alert low :
  SET_DECEL (Buttons E) <> 0 ->
  SET_DECEL (Buttons E) <> RES_ACCEL (Buttons E) ->
  prev_cruise_buttons (new_CS ia) = SET_DECEL (Buttons E) ->
  cruise_buttons (new_CS ia) = 0 ->
  longcontrol (I_CC I) = false ->
  reported_cruise_enabled I (ret0 ia) = true ->
  In buttonEnable (events_of E I ia alert low).
Proof.
  intros Hnz Hne Hprev Hnow Hl Hen. unfold events_of. rewrite Hen.
  destruct (button_events_decel_release (new_CS ia) Hnz Hne Hprev Hnow)
    as [rest ->].
  cbn [fold_left]. apply handle_buttons_keep; [exact Hl|].
  unfold handle_button at 1. rewrite Hl. cbn.
  apply add_in. right. reflexivity.
Qed.

End Buttons.

(** C7 as stated fails: the override mode on, full longitudinal control
    off, the vehicle's cruise available and not enabled.  The release of
    the decelerate button (code 2 to 0) gives the event "enable
    requested", although cruise is not enabled: the override mode makes
    the reported state follow "available". *)
Lemma decel_release_enables_in_override_mode :
  let I := CarInterface_init Sample.car_params true Scenario.snapshot0 in
  let ia := Scenario.decel_released_main_on in
  let ret := snd (interface_update Sample.externals I ia) in
  longcontrol (I_CC I) = false
  /\ I_mad_mode_enabled I = true
  /\ prev_cruise_buttons (new_CS ia) = SET_DECEL (Buttons Sample.externals)
  /\ cruise_buttons (new_CS ia) = 0
  /\ cs_enabled (cruiseState (ret0 ia)) = false
  /\ cs_available (cruiseState (ret0 ia)) = true
  /\ common_events ia = []
  /\ buttonEvents ret = [{| be_type := decelCruise; pressed := false |}]
  /\ cs_enabled (cruiseState ret) = true
  /\ events ret = [buttonEnable].
Proof. vm_compute. repeat split. Qed.

(** C7, amended.  When the combined cruise-button code goes from the
    decelerate (set) code to zero, full longitudinal control being
    inactive, the button event is a release of the decelerate button, and
    what decides is the cruise state the cycle reports: the vehicle's
    "cruise enabled" with the override mode off, the vehicle's "cruise
    available" with the override mode on.  If that is true the events of
    the cycle contain "enable requested", so with the override mode on
    also when the vehicle's cruise is not enabled; if it is false they
    contain no such event.  The events pass through the smoother's hook
    last, which is taken to keep the events it is given (first case) and
    not to add an enable request (second case); in the second case the
    common events are taken to hold none. *)
Theorem decel_release_requests_enable :
  forall (E : Externals) (I : CarInterface) (ia : InterfaceArgs),
    SET_DECEL (Buttons E) <> 0 ->
    SET_DECEL (Buttons E) <> RES_ACCEL (Buttons E) ->
    prev_cruise_buttons (new_CS ia) = SET_DECEL (Buttons E) ->
    cruise_buttons (new_CS ia) = 0 ->
    longcontrol (I_CC I) = false ->
    let ret := snd (interface_update E I ia) in
    let hook := inject_events (i_smoother ia) in
    let vehicle := cruiseState (ret0 ia) in
    let reported :=
      if I_mad_mode_enabled I then cs_available vehicle
      else cs_enabled vehicle in
    In {| be_type := decelCruise; pressed := false |} (buttonEvents ret)
    /\ cs_enabled (cruiseState ret) = reported
    /\ (reported = true ->
        (forall l e, In e l -> In e (hook l)) ->
        In buttonEnable (events ret))
    /\ (reported = false ->
        ~ In buttonEnable (common_events ia) ->
        (forall l, In buttonEnable (hook l) -> In buttonEnable l) ->
        ~ In buttonEnable (events ret))
    /\ (I_mad_mode_enabled I = true ->
        cs_enabled vehicle = false ->
        cs_available vehicle = true ->
        (forall l e, In e l -> In e (hook l)) ->
        In buttonEnable (events ret))
    /\ (I_mad_mode_enabled I = false ->
        cs_enabled vehicle = false ->
        ~ In buttonEnable (common_events ia) ->
        (forall l, In buttonEnable (hook l) -> In buttonEnable l) ->
        ~ In buttonEnable (events ret)).
Proof.
  intros E I ia Hnz Hne Hprev Hnow Hl ret hook vehicle reported.
  assert (Hr : reported = reported_cruise_enabled I (ret0 ia))
    by reflexivity.
  assert (Yes : reported = true ->
                (forall l e, In e l -> In e (hook l)) ->
                In buttonEnable (events ret)).
  { intros Hen Hhook. rewrite Hr in Hen. subst ret hook.
    cbn [interface_update snd events]. apply Hhook.
    apply events_of_enable; assumption. }
  assert (No : reported = false ->
               ~ In buttonEnable (common_events ia) ->
               (forall l, In buttonEnable (hook l) -> In buttonEnable l) ->
               ~ In buttonEnable (events ret)).
  { intros Hen Hcommon Hhook H. rewrite Hr in Hen. subst ret hook.
    cbn [interface_update snd events] in H. apply Hcommon.
    apply Hhook in H. apply (events_of_no_enable E I ia _ _ Hl Hen H). }
  split; [|split; [|split; [|split; [|split]]]].
  - subst ret. cbn [interface_update snd buttonEvents].
    destruct (button_events_decel_release E (new_CS ia) Hnz Hne Hprev Hnow)
      as [rest ->]. left. reflexivity.
  - reflexivity.
  - exact Yes.
  - exact No.
  - intros Hm _ Hav. apply Yes. subst reported. rewrite Hm. exact Hav.
  - intros Hm Hen. apply No. subst reported. rewrite Hm. exact Hen.
Qed.

Lemma decel_release_requests_enable_witness :
  (longcontrol
     (I_CC (CarInterface_init Sample.car_params false Scenario.snapshot0))
   = false
   /\ cs_enabled (cruiseState (ret0 Scenario.decel_released_engaged)) = true
   /\ In buttonEnable
        (events
           (snd (interface_update Sample.externals
                   (CarInterface_init Sample.car_params false
                      Scenario.snapshot0)
                   Scenario.decel_released_engaged))))
  /\ (cs_enabled (cruiseState (ret0 Scenario.decel_released_main_on))
      = false
      /\ ~ In buttonEnable
            (events
               (snd (interface_update Sample.externals
                       (CarInterface_init Sample.car_params false
                          Scenario.snapshot0)
                       Scenario.decel_released_main_on)))).
Proof.
  split.
  - destruct (decel_release_requests_enable Sample.externals
                (CarInterface_init Sample.car_params false
                   Scenario.snapshot0)
                Scenario.decel_released_engaged)
      as (_ & _ & Yes & _);
      [discriminate | discriminate | reflexivity | reflexivity
      | reflexivity |].
    split; [reflexivity|]. split; [reflexivity|].
    apply Yes; [reflexivity | intros l e He; exact He].
  - destruct (decel_release_requests_enable Sample.externals
                (CarInterface_init Sample.car_params false
                   Scenario.snapshot0)
                Scenario.decel_released_main_on)
      as (_ & _ & _ & No & _);
      [discriminate | discriminate | reflexivity | reflexivity
      | reflexivity |].
    split; [reflexivity|].
    apply No; [reflexivity | intros [] | intros l H; exact H].
Defined.

(** ** Sequence counters *)

Lemma counters_from_mod (m : Z) (n : nat) :
  m <> 0 ->
  forall s s', s mod m = s' mod m -> counters_from m s n = counters_from m s' n.
Proof.
  intro Hm. induction n as [|n IH]; intros s s' H; [reflexivity|].
  simpl. rewrite H. f_equal. apply IH.
  rewrite (Z.add_mod s 1 m Hm), (Z.add_mod s' 1 m Hm), H. reflexivity.
Qed.

Lemma counters_from_length (m s : Z) (n : nat) :
  List.length (counters_from m s n) = n.
Proof.
  revert s. induction n as [|n IH]; intro s; [reflexivity|].
  simpl. rewrite IH. reflexivity.
Qed.

Section Counters.

Variable E : Externals.

(** The counters after one cycle, from the values they start from. *)
Lemma cycle_counters I ctl ci :
  let r := cycle E (I, ctl) ci in
  let CC' := I_CC (fst (fst r)) in
  let gate := scc_gate (cycle_CC E I ci) (cycle_args E I ctl ci) in
  lkas11_cnt CC' = (lkas11_base I ci + 1) mod 16
  /\ scc12_cnt CC'
     = (if gate then scc12_base I ci mod 15 + 1 else scc12_base I ci mod 15)
  /\ scc12_counters (snd r)
     = (if gate then [scc12_base I ci mod 15] else [])
  /\ count (is_lkas11_on 0) (snd r) = 1
  /\ I_frame (fst (fst r)) = I_frame I + 1.
Proof.
  intros r CC' gate. subst r CC' gate.
  destruct (cycle_unfold E I ctl ci)
    as (Hcc & Hfr & Hs & Hf & Hk & Hc & Hr & Hk1 & Hc1).
  rewrite Hcc, Hfr, Hs, next_lkas11_cnt, next_scc12_cnt,
    can_sends_scc12_counters, can_sends_count_lkas11_bus0.
  unfold lkas11_cnt_next, scc12_cnt_wrapped, lkas11_base, scc12_base,
    scc12_seed_of.
  rewrite Hf, Hk, Hc, Hr, Hk1, Hc1.
  repeat apply conj; reflexivity.
Qed.

(** A run that starts from given counter values, whatever the frame. *)
Lemma run_counters_from l :
  forall I ctl ci,
    let r := run E (I, ctl) (ci :: l) in
    let CC' := I_CC (fst (fst r)) in
    let n := Z.of_nat (List.length (ci :: l)) in
    0 <= I_frame I ->
    count (is_lkas11_on 0) (snd r) = n
    /\ lkas11_cnt CC' = (lkas11_base I ci + n) mod 16
    /\ scc12_counters (snd r)
       = counters_from 15 (scc12_base I ci)
           (List.length (scc12_counters (snd r)))
    /\ scc12_cnt CC' mod 15
       = (scc12_base I ci + count is_scc12 (snd r)) mod 15
    /\ 0 <= scc12_cnt CC' <= 15.
Proof.
  induction l as [|ci' l IH]; intros I ctl ci r CC' n Hfr;
    subst r CC' n; rewrite run_cons;
    destruct (cycle_counters I ctl ci) as (Hk & Hc & Hm & Hn & Hf);
    cbn zeta in Hk, Hc, Hm, Hn, Hf;
    set (gate := scc_gate (cycle_CC E I ci) (cycle_args E I ctl ci)) in *;
    assert (Hb := Z.mod_pos_bound (scc12_base I ci) 15 eq_refl);
    cbn [fst snd].
  - cbn [run fst snd List.length]. rewrite !app_nil_r, Hk, Hc, Hm, Hn,
      count_scc12_counters, Hm.
    destruct gate; cbn [List.length counters_from Z.of_nat Pos.of_succ_nat];
      (split; [|split; [|split; [|split]]]);
      try reflexivity; try lia.
    + rewrite Z.add_mod_idemp_l by discriminate. reflexivity.
    + rewrite Z.mod_mod by discriminate.
      rewrite Z.add_0_r. reflexivity.
  - destruct (cycle E (I, ctl) ci) as [[I1 ctl1] m1] eqn:Hcy.
    cbn [fst snd] in Hk, Hc, Hm, Hn, Hf |- *.
    assert (Hfr1 : 0 <= I_frame I1) by lia.
    specialize (IH I1 ctl1 ci' Hfr1). cbn zeta in IH.
    destruct IH as (IHn & IHk & IHm & IHc & IHr).
    assert (Hnz : (I_frame I1 =? 0) = false) by (apply Z.eqb_neq; lia).
    unfold lkas11_base, scc12_base in IHk, IHm, IHc.
    rewrite Hnz in IHk, IHm, IHc.
    rewrite count_app, scc12_counters_app, length_app, !count_app,
      IHn, IHk, IHc, Hn, Hk.
    rewrite (count_scc12_counters m1), Hm.
    split; [|split; [|split; [|split]]].
    + cbn [List.length]. lia.
    + rewrite Z.add_mod_idemp_l by discriminate. f_equal.
      cbn [List.length]. lia.
    + rewrite IHm, Hc. rewrite counters_from_length.
      destruct gate; cbn [List.length app Nat.add counters_from].
      * f_equal. apply counters_from_mod; [discriminate|].
        rewrite Z.add_mod_idemp_l by discriminate. reflexivity.
      * apply counters_from_mod; [discriminate|].
        apply Z.mod_mod. discriminate.
    + rewrite Hc. destruct gate; cbn [List.length].
      * rewrite <- Z.add_assoc, Z.add_mod_idemp_l by discriminate.
        f_equal; lia.
      * rewrite Z.add_mod_idemp_l by discriminate. f_equal; lia.
    + exact IHr.
Qed.

End Counters.

(** C4 as stated fails: one cycle from construction with the
    power-steering echo on bus 1, the native cruise on bus 1 and full
    longitudinal control; the vehicle echoes lane-keep count 3 and alive
    counter 13.  Two lane-keep messages and one SCC12 message are emitted;
    the lane-keep counter is 4, not (3 + 2) mod 16, and the stored SCC12
    counter is 15, which is no residue modulo 15 at all. *)
Lemma counters_not_seed_plus_emitted :
  let cs := Sample.snapshot 10 false false false 0 1 1 3 13 in
  let r :=
    run Sample.externals
      (CarInterface_init Sample.long_car_params false cs, Sample.controls0)
      [Sample.cycle_input cs] in
  let CC := I_CC (fst (fst r)) in
  let msgs := snd r in
  CF_Lkas_MsgCount (lkas11 cs) = 3
  /\ CR_VSM_Alive (scc12 cs) = 13
  /\ count is_lkas11 msgs = 2
  /\ count is_scc12 msgs = 1
  /\ lkas11_cnt CC <> (3 + count is_lkas11 msgs) mod 16
  /\ scc12_cnt CC <> (13 + count is_scc12 msgs) mod 15
  /\ (forall seed, scc12_cnt CC <> (seed + count is_scc12 msgs) mod 15).
Proof.
  intros cs r CC msgs.
  assert (Hc : scc12_cnt CC = 15) by (vm_compute; reflexivity).
  repeat apply conj; try (vm_compute; (reflexivity || discriminate)).
  intros seed H. rewrite Hc in H.
  assert (B := Z.mod_pos_bound (seed + count is_scc12 msgs) 15 eq_refl).
  lia.
Qed.

(** C4, amended.  For every run of N >= 1 cycles from construction: one
    lane-keep message per cycle goes to bus 0, and the lane-keep counter
    equals (seed16 + N) mod 16, seed16 being the lane-keep count echoed on
    cycle 0 (copies for bus 1 do not count); the SCC12 messages carry the
    counters seed15, seed15 + 1, ... modulo 15, seed15 being the alive
    counter echoed on cycle 0 plus one (0 without radar); the stored
    SCC12 counter is congruent modulo 15 to seed15 plus the number of
    SCC12 messages emitted and lies in [0, 15]; neither counter is ever
    negative, at construction included. *)
Theorem counters_follow_seed_and_emissions :
  forall (E : Externals) (CP : CarParams) (mad : bool) (cs0 : CarState)
         (ctl0 : Controls) (ci : CycleInput) (l : list CycleInput),
    let r := run E (CarInterface_init CP mad cs0, ctl0) (ci :: l) in
    let CC := I_CC (fst (fst r)) in
    let msgs := snd r in
    let cs := new_CS (ci_update ci) in
    let seed16 := CF_Lkas_MsgCount (lkas11 cs) in
    let seed15 := if no_radar cs then 0 else CR_VSM_Alive (scc12 cs) + 1 in
    let N := Z.of_nat (List.length (ci :: l)) in
    count (is_lkas11_on 0) msgs = N
    /\ lkas11_cnt CC = (seed16 + N) mod 16
    /\ scc12_counters msgs
       = counters_from 15 seed15 (Z.to_nat (count is_scc12 msgs))
    /\ scc12_cnt CC mod 15 = (seed15 + count is_scc12 msgs) mod 15
    /\ 0 <= lkas11_cnt CC < 16
    /\ 0 <= scc12_cnt CC <= 15
    /\ lkas11_cnt (CarController_init CP mad) = 0
    /\ scc12_cnt (CarController_init CP mad) = 0.
Proof.
  intros E CP mad cs0 ctl0 ci l r CC msgs cs seed16 seed15 N.
  assert (Hfr : 0 <= I_frame (CarInterface_init CP mad cs0))
    by (cbn; lia).
  destruct (run_counters_from E l (CarInterface_init CP mad cs0) ctl0 ci Hfr)
    as (Hn & Hk & Hm & Hc & Hr).
  fold r in Hn, Hk, Hm, Hc, Hr. fold CC in Hk, Hc, Hr.
  fold msgs in Hn, Hm, Hc. fold N in Hn, Hk.
  assert (Hseed : scc12_base (CarInterface_init CP mad cs0) ci = seed15).
  { unfold scc12_base, scc12_seed_of. cbn [CarInterface_init I_frame Z.eqb].
    subst seed15 cs. destruct (no_radar (new_CS (ci_update ci)));
      reflexivity. }
  assert (Hbase : lkas11_base (CarInterface_init CP mad cs0) ci = seed16)
    by reflexivity.
  rewrite Hseed in Hm, Hc. rewrite Hbase in Hk.
  assert (Hk16 := Z.mod_pos_bound (seed16 + N) 16 eq_refl).
  rewrite count_scc12_counters in Hc |- *. rewrite Nat2Z.id.
  repeat apply conj; try assumption; try reflexivity; lia.
Qed.

(** * Further properties *)

(** ** The messages of one call, block by block *)

Section Census.

Variable E : Externals.

Lemma can_sends_blocks CC a : can_sends_of E CC a = blocks E CC a.
Proof.
  unfold can_sends_of, update, blocks, lkas_sends, clu11_mdps_sends,
    cancel_sends, mdps12_sends, lfa_sends, lkas11_to, enabled_speed_of,
    hud_of, presses_of, sys_warning_of, sys_state_of.
  destruct (accel_command CC (actuators a)) as [cmd steady'].
  destruct (process_hud_alert (enabled a) (car_fingerprint CC)
              (visual_alert a) (left_lane a) (right_lane a)
              (left_lane_depart a) (right_lane_depart a))
    as [[[warn state] lw] rw].
  destruct (auto_resume E CC a (CF_Clu_Vanz (clu11 (CS a))))
    as [rs [[last' cnt'] wait']].
  reflexivity.
Qed.

Lemma count_smoother_msgs (p : CanMsg -> bool) (l : list Signals) :
  (forall x, p (smoother_msg x) = false) ->
  count p (map smoother_msg l) = 0.
Proof.
  intro H. apply count_none. intros m Hm.
  apply in_map_iff in Hm. destruct Hm as [x [Hx _]]. subst m. apply H.
Qed.

Lemma count_presses (p : CanMsg -> bool) CC a :
  (forall c b u k v, p (create_clu11 c b u k v) = false) ->
  count p (presses_of E CC a) = 0.
Proof.
  intro H. destruct (presses_of_cases E CC a) as [K|K]; rewrite K.
  - reflexivity.
  - unfold count. cbn [filter]. rewrite H. reflexivity.
Qed.

Lemma count_cons (p : CanMsg -> bool) (m : CanMsg) (l : list CanMsg) :
  count p (m :: l) = (if p m then 1 else 0) + count p l.
Proof. unfold count. cbn [filter]. destruct (p m); cbn [List.length]; lia. Qed.

Lemma count_if (p : CanMsg -> bool) (c : bool) (l : list CanMsg) :
  count p (if c then l else []) = if c then count p l else 0.
Proof. destruct c; reflexivity. Qed.

Lemma count_nil (p : CanMsg -> bool) : count p [] = 0.
Proof. reflexivity. Qed.

Ltac census :=
  rewrite can_sends_blocks; unfold blocks;
  rewrite !count_app;
  rewrite ?count_smoother_msgs by reflexivity;
  rewrite ?count_presses by reflexivity;
  unfold lkas_sends, clu11_mdps_sends, cancel_sends, mdps12_sends,
    lfa_sends, scc_sends, lkas11_to;
  rewrite ?count_app, ?count_if, ?count_cons, ?count_app, ?count_if,
    ?count_cons, ?count_nil;
  cbn [is_lkas11 is_clu11 is_mdps12 is_scc12 is_scc11 is_scc13 is_scc14
       is_lfahda_mfc is_smoother_msg];
  rewrite ?Z.add_0_l, ?Z.add_0_r.

Ltac settle :=
  repeat match goal with
         | |- context [if ?c then _ else _] => destruct c
         end;
  lia.

Lemma census_lkas11 CC a :
  count is_lkas11 (can_sends_of E CC a)
  = 1 + (if Z_truthy (mdps_bus (CS a)) || (scc_bus (CS a) =? 1)
         then 1 else 0).
Proof. census. settle. Qed.

Lemma census_mdps12 CC a :
  count is_mdps12 (can_sends_of E CC a)
  = if Z_truthy (mdps_bus (CS a)) then 1 else 0.
Proof. census. settle. Qed.

Lemma census_lfahda_mfc CC a :
  count is_lfahda_mfc (can_sends_of E CC a)
  = if (frame a mod 5 =? 0) && send_lfa_mfa E (car_fingerprint CC)
    then 1 else 0.
Proof. census. settle. Qed.

Lemma census_scc12 CC a :
  count is_scc12 (can_sends_of E CC a) = if scc_gate CC a then 1 else 0.
Proof. census. settle. Qed.

Lemma census_scc11 CC a :
  count is_scc11 (can_sends_of E CC a) = if scc_gate CC a then 1 else 0.
Proof. census. settle. Qed.

Lemma census_scc13 CC a :
  count is_scc13 (can_sends_of E CC a)
  = if scc_gate CC a && (has_scc13 (CS a) && (frame a mod 20 =? 0))
    then 1 else 0.
Proof.
  census.
  destruct (scc_gate CC a); destruct (has_scc13 (CS a));
    destruct (frame a mod 20 =? 0); cbn [andb]; settle.
Qed.

Lemma census_scc14 CC a :
  count is_scc14 (can_sends_of E CC a)
  = if scc_gate CC a && has_scc14 (CS a) then 1 else 0.
Proof.
  census. destruct (scc_gate CC a); destruct (has_scc14 (CS a));
    cbn [andb]; settle.
Qed.


End Census.

(** X1.  Among the messages [update] itself appends (what the smoother
    appends apart), the SCC11 and SCC12 messages are sent together, at
    most one of each per call; SCC13 and SCC14 are sent only along with
    them, SCC13 only on frames divisible by 20; and with full
    longitudinal control off none of the four is sent. *)
Theorem scc_messages_travel_together :
  forall (E : Externals) (CC : CarController) (a : UpdateArgs),
    let sends := can_sends_of E CC a in
    count is_scc11 sends = count is_scc12 sends
    /\ 0 <= count is_scc12 sends <= 1
    /\ 0 <= count is_scc13 sends <= count is_scc12 sends
    /\ 0 <= count is_scc14 sends <= count is_scc12 sends
    /\ (count is_scc13 sends = 1 -> frame a mod 20 = 0)
    /\ (longcontrol CC = false ->
        count is_scc12 sends = 0 /\ count is_scc13 sends = 0
        /\ count is_scc14 sends = 0).
Proof.
  intros E CC a sends. subst sends.
  rewrite census_scc11, census_scc12, census_scc13, census_scc14.
  assert (HL := scc_gate_requires_longcontrol CC a).
  destruct (scc_gate CC a); destruct (has_scc13 (CS a));
    destruct (frame a mod 20 =? 0) eqn:F; destruct (has_scc14 (CS a));
    cbn [andb]; repeat apply conj;
    try lia; try reflexivity;
    try (intros _; apply Z.eqb_eq; exact F);
    try (intro K; (discriminate K || (apply HL in K; discriminate K))).
Qed.

Lemma lkas_block_leads (E : Externals) (CC : CarController)
    (a : UpdateArgs) :
  exists rest,
    can_sends_of E CC a
    = lkas11_to E CC a 0
      :: (if Z_truthy (mdps_bus (CS a)) || (scc_bus (CS a) =? 1)
          then [lkas11_to E CC a 1] else []) ++ rest
    /\ count is_lkas11 rest = 0.
Proof.
  exists (clu11_mdps_sends E CC a ++ cancel_sends E CC a
          ++ presses_of E CC a
          ++ map smoother_msg (smoother_sends (smoother a))
          ++ mdps12_sends a
          ++ (if scc_gate CC a
              then scc_sends E CC a (fst (accel_command CC (actuators a)))
                     (scc12_cnt_wrapped CC a)
              else [])
          ++ lfa_sends E CC a).
  split.
  - rewrite can_sends_blocks. reflexivity.
  - rewrite !count_app.
    rewrite (count_smoother_msgs is_lkas11) by reflexivity.
    rewrite (count_presses E is_lkas11) by reflexivity.
    unfold clu11_mdps_sends, cancel_sends, mdps12_sends, lfa_sends,
      scc_sends.
    rewrite ?count_app, ?count_if, ?count_cons, ?count_app, ?count_if,
      ?count_cons, ?count_nil.
    cbn [is_lkas11].
    repeat match goal with
           | |- context [if ?c then _ else _] => destruct c
           end; reflexivity.
Qed.

(** X2.  The list of messages of every call starts with the lane-keep
    message for bus 0; its copy for bus 1 follows at once exactly when
    the MDPS bus is non-zero or the SCC bus is 1; the copy differs in the
    bus only, and [update] itself appends no other lane-keep message
    (what the smoother appends apart). *)
Theorem lane_keep_first_and_adjacent :
  forall (E : Externals) (CC : CarController) (a : UpdateArgs),
    let dup := Z_truthy (mdps_bus (CS a)) || (scc_bus (CS a) =? 1) in
    exists rest,
      can_sends_of E CC a
      = lkas11_to E CC a 0
        :: (if dup then [lkas11_to E CC a 1] else []) ++ rest
      /\ count is_lkas11 rest = 0
      /\ count is_lkas11 (can_sends_of E CC a) = (if dup then 2 else 1).
Proof.
  intros E CC a dup.
  destruct (lkas_block_leads E CC a) as (rest & Heq & Hr).
  exists rest. split; [exact Heq|]. split; [exact Hr|].
  rewrite census_lkas11. subst dup.
  destruct (Z_truthy (mdps_bus (CS a)) || (scc_bus (CS a) =? 1));
    reflexivity.
Qed.


(** X4.  The power-steering passthrough message is sent in every call
    exactly when the MDPS bus is non-zero, whatever the frame; the
    lane-follow display message is sent only on frames divisible by 5 and
    only for variants with the feature. *)
Theorem passthrough_and_display_cadence :
  forall (E : Externals) (CC : CarController) (a : UpdateArgs),
    let sends := can_sends_of E CC a in
    (mdps_bus (CS a) <> 0 -> count is_mdps12 sends = 1)
    /\ (mdps_bus (CS a) = 0 -> count is_mdps12 sends = 0)
    /\ 0 <= count is_lfahda_mfc sends <= 1
    /\ (count is_lfahda_mfc sends = 1 ->
        frame a mod 5 = 0 /\ send_lfa_mfa E (car_fingerprint CC) = true)
    /\ (frame a mod 5 = 0 -> send_lfa_mfa E (car_fingerprint CC) = true ->
        count is_lfahda_mfc sends = 1).
Proof.
  intros E CC a sends. subst sends.
  rewrite census_mdps12, census_lfahda_mfc. unfold Z_truthy.
  repeat apply conj.
  - intro H. apply Z.eqb_neq in H. rewrite H. reflexivity.
  - intro H. rewrite H. reflexivity.
  - destruct ((frame a mod 5 =? 0) && send_lfa_mfa E (car_fingerprint CC));
      lia.
  - destruct ((frame a mod 5 =? 0) && send_lfa_mfa E (car_fingerprint CC));
      lia.
  - destruct (frame a mod 5 =? 0) eqn:F; cbn [andb]; [|discriminate].
    destruct (send_lfa_mfa E (car_fingerprint CC)); [|discriminate].
    intros _. split; [apply Z.eqb_eq; exact F | reflexivity].
  - intros F S. rewrite F, S. reflexivity.
Qed.

(** ** The hysteresis filter, further *)

Lemma accel_hysteresis_within_gap (accel steady : Q) :
  (Qabs (accel - fst (accel_hysteresis accel steady))
   <= CarControllerParams.ACCEL_HYST_GAP)%Q.
Proof.
  unfold accel_hysteresis, CarControllerParams.ACCEL_HYST_GAP. cbn [fst].
  destruct (accel >?q steady + (2 # 100)) eqn:G.
  - apply Qgtb_gt in G. apply Qabs_Qle_condition. split; lra.
  - apply Qgtb_le in G.
    destruct (accel <?q steady - (2 # 100)) eqn:L.
    + apply Qltb_lt in L. apply Qabs_Qle_condition. split; lra.
    + apply Qltb_ge in L. apply Qabs_Qle_condition. split; lra.
Qed.

(** X5.  After a step of the hysteresis filter the output is within the
    gap 0.02 of the input, whatever the previous steady value, and never
    farther from the input than the previous steady value was. *)
Theorem accel_hysteresis_tracks_within_gap :
  forall (accel steady : Q),
    let out := fst (accel_hysteresis accel steady) in
    (Qabs (accel - out) <= CarControllerParams.ACCEL_HYST_GAP)%Q
    /\ (Qabs (accel - out) <= Qabs (accel - steady))%Q.
Proof.
  intros accel steady out. subst out.
  split; [apply accel_hysteresis_within_gap|].
  unfold accel_hysteresis, CarControllerParams.ACCEL_HYST_GAP. cbn [fst].
  destruct (accel >?q steady + (2 # 100)) eqn:G.
  - apply Qgtb_gt in G.
    apply Qle_trans with (accel - steady)%Q; [|apply Qle_Qabs].
    apply Qabs_Qle_condition. split; lra.
  - apply Qgtb_le in G.
    destruct (accel <?q steady - (2 # 100)) eqn:L.
    + apply Qltb_lt in L.
      apply Qle_trans with (- (accel - steady))%Q;
        [|rewrite <- Qabs_opp; apply Qle_Qabs].
      apply Qabs_Qle_condition. split; lra.
    + apply Qle_refl.
Qed.

(** X6.  The filter is idempotent: feeding the same input again leaves
    the steady value exactly as the first step made it. *)
Theorem accel_hysteresis_idempotent :
  forall (accel steady : Q),
    let s1 := snd (accel_hysteresis accel steady) in
    accel_hysteresis accel s1 = (s1, s1).
Proof.
  intros accel steady s1.
  assert (H : snd (accel_hysteresis accel s1) = s1).
  { apply accel_hysteresis_hold. subst s1.
    rewrite <- accel_hysteresis_output.
    apply accel_hysteresis_within_gap. }
  rewrite (surjective_pairing (accel_hysteresis accel s1)).
  rewrite accel_hysteresis_output, H. reflexivity.
Qed.

(** ** The HUD mapper, further *)

Lemma CAR_eqb_eq (a b : CAR) : CAR_eqb a b = true <-> a = b.
Proof.
  destruct a, b; simpl; split; intro H; try discriminate; try reflexivity.
  - apply String.eqb_eq in H. subst. reflexivity.
  - injection H as H. apply String.eqb_eq. exact H.
Qed.

Lemma CAR_in_In (c : CAR) (l : list CAR) : CAR_in c l = true <-> In c l.
Proof.
  unfold CAR_in. rewrite existsb_exists. split.
  - intros [x [Hx He]]. apply CAR_eqb_eq in He. subst. exact Hx.
  - intro H. exists c. split; [exact H | apply CAR_eqb_eq; reflexivity].
Qed.

(** X7.  The display code is one of 1, 3, 4, 5, 6, never 2; the alert
    "steer required" gives code 3 whatever the lanes and the enablement;
    and code 4 is given exactly when both lanes are visible, the system
    is not enabled and there is no warning. *)
Theorem display_code_range :
  forall (en : bool) (fp : CAR) (va : VisualAlert) (l r ld rd : bool),
    let code := sys_state_of (process_hud_alert en fp va l r ld rd) in
    In code [1; 3; 4; 5; 6]
    /\ (va = steerRequired -> code = 3)
    /\ (code = 4 <->
        l = true /\ r = true /\ en = false /\ va <> steerRequired).
Proof.
  intros en fp va l r ld rd code. subst code.
  unfold sys_state_of, process_hud_alert. cbn [fst snd].
  repeat apply conj.
  - destruct (VisualAlert_eqb va steerRequired), l, r, en; simpl; auto 6.
  - intro H. subst va. destruct l, r, en; reflexivity.
  - destruct va, l, r, en; simpl; intro H; try discriminate;
      repeat split; congruence.
  - intros (Hl & Hr & He & Hv). subst l r en.
    destruct va; simpl; congruence.
Qed.

(** X8.  The departure warning codes: a side's code is 0 exactly when
    that side is not departing, whatever else; when it is departing the
    code is 1 for the five Genesis variants and 2 for every other
    variant; and the two sides get the same code when both depart. *)
Theorem departure_warning_codes :
  forall (en : bool) (fp : CAR) (va : VisualAlert) (l r ld rd : bool),
    let t := process_hud_alert en fp va l r ld rd in
    let left := snd (fst t) in
    let right := snd t in
    (left = 0 <-> ld = false)
    /\ (right = 0 <-> rd = false)
    /\ (ld = true -> In fp premium_trims -> left = 1)
    /\ (ld = true -> ~ In fp premium_trims -> left = 2)
    /\ (rd = true -> In fp premium_trims -> right = 1)
    /\ (rd = true -> ~ In fp premium_trims -> right = 2)
    /\ (ld = true -> rd = true -> left = right).
Proof.
  intros en fp va l r ld rd t left right. subst t left right.
  unfold process_hud_alert. cbn [fst snd].
  assert (P := CAR_in_In fp premium_trims).
  destruct (CAR_in fp premium_trims) eqn:C.
  - assert (Hin : In fp premium_trims) by (apply P; reflexivity).
    destruct ld, rd; repeat apply conj; try split; intros;
      try reflexivity; try discriminate; try contradiction.
  - assert (Hnin : ~ In fp premium_trims)
      by (intro K; apply P in K; discriminate).
    destruct ld, rd; repeat apply conj; try split; intros;
      try reflexivity; try discriminate; try contradiction.
Qed.

(** ** The desired torque *)

Lemma py_round_near (x : Q) :
  (x - (1 # 2) <= inject_Z (py_round x) <= x + (1 # 2))%Q.
Proof.
  unfold py_round.
  assert (Hf := Qfloor_le x). assert (Hc := Qlt_floor x).
  assert (H1 : (inject_Z (Qfloor x + 1) == inject_Z (Qfloor x) + 1)%Q)
    by (rewrite inject_Z_plus; reflexivity).
  rewrite H1 in Hc.
  destruct (x - inject_Z (Qfloor x) ?= 1 # 2)%Q eqn:C.
  - apply Qeq_alt in C.
    destruct (Z.even (Qfloor x)); rewrite ?H1; split; lra.
  - apply Qlt_alt in C. split; lra.
  - apply Qgt_alt in C. rewrite H1. split; lra.
Qed.

Lemma inject_Z_le_half (z n : Z) :
  (inject_Z z <= inject_Z n + (1 # 2))%Q -> z <= n.
Proof.
  unfold Qle, Qplus, inject_Z. simpl. lia.
Qed.

Lemma inject_Z_ge_half (z n : Z) :
  (inject_Z n - (1 # 2) <= inject_Z z)%Q -> n <= z.
Proof.
  unfold Qle, Qminus, Qplus, Qopp, inject_Z. simpl. lia.
Qed.

(** X9.  The desired torque is the nearest integer to steer * 409, at
    most one half away from it; for a steer command in [-1, 1] it lies
    in [-409, 409]; and a steer command of exactly 0 asks for torque
    0. *)
Theorem new_steer_within_steer_max :
  forall (act : Actuators),
    (steer act * (409 # 1) - (1 # 2) <= inject_Z (new_steer_of act)
     <= steer act * (409 # 1) + (1 # 2))%Q
    /\ ((- (1 # 1) <= steer act <= 1 # 1)%Q ->
        - SteerLimitParams.STEER_MAX <= new_steer_of act
        <= SteerLimitParams.STEER_MAX)
    /\ ((steer act == 0)%Q -> new_steer_of act = 0).
Proof.
  intro act. unfold new_steer_of, SteerLimitParams.STEER_MAX.
  assert (N := py_round_near (steer act * inject_Z 409)).
  change (inject_Z 409) with (409 # 1)%Q in *.
  split; [exact N|]. split.
  - intros [H1 H2]. split.
    + apply inject_Z_ge_half.
      change (inject_Z (Z.opp 409)) with (- (409 # 1))%Q. lra.
    + apply inject_Z_le_half. change (inject_Z 409) with (409 # 1)%Q. lra.
  - intro H0.
    assert (A : 0 <= py_round (steer act * (409 # 1))).
    { apply inject_Z_ge_half. change (inject_Z 0) with 0%Q. lra. }
    assert (B : py_round (steer act * (409 # 1)) <= 0).
    { apply inject_Z_le_half. change (inject_Z 0) with 0%Q. lra. }
    lia.
Qed.

(** ** The lateral gate, further *)

(** X10.  Steering is active in a call exactly when the system is
    enabled, the steering angle is below the variant's maximum in
    magnitude, the Genesis low-speed case (Genesis fingerprint, MDPS on
    bus 0, speed below 60 km/h) does not apply, and the blinker case
    (turning-indicator alert and speed below 2 km/h) does not apply.  When
    it is active the limiter's output is applied unchanged; a non-zero
    torque is stored or sent only when it is active. *)
Theorem lateral_gate_conditions :
  forall (E : Externals) (CC : CarController) (a : UpdateArgs),
    let o := out (CS a) in
    let kph := KPH_TO_MS (CV E) in
    (lkas_active_of E CC a = true <->
     enabled a = true
     /\ (Qabs (steeringAngleDeg o) < CP_maxSteeringAngleDeg (CS a))%Q
     /\ ~ ((vEgo o < (60 # 1) * kph)%Q /\ car_fingerprint CC = GENESIS
           /\ mdps_bus (CS a) = 0)
     /\ ~ (turning_indicator_alert CC = true /\ (vEgo o < (2 # 1) * kph)%Q))
    /\ (lkas_active_of E CC a = true ->
        apply_steer_last (next E CC a) = limited_steer E CC a)
    /\ (apply_steer_last (next E CC a) <> 0 ->
        lkas_active_of E CC a = true)
    /\ (forall t, In t (lkas11_torques (can_sends_of E CC a)) ->
          t = apply_steer_last (next E CC a)).
Proof.
  intros E CC a o kph. subst o kph.
  rewrite next_apply_steer_last, can_sends_lkas11_torques.
  unfold apply_steer_of.
  repeat apply conj.
  - unfold lkas_active_of, KPH, Z_truthy.
    destruct (turning_indicator_alert CC
              && (vEgo (out (CS a)) <?q (2 # 1) * KPH_TO_MS (CV E))) eqn:B;
      [discriminate|].
    destruct ((vEgo (out (CS a)) <?q (60 # 1) * KPH_TO_MS (CV E))
              && CAR_eqb (car_fingerprint CC) GENESIS
              && negb (negb (mdps_bus (CS a) =? 0))) eqn:Gn; [discriminate|].
    intro H. apply andb_true_iff in H. destruct H as [En An].
    apply Qltb_lt in An.
    split; [exact En|]. split; [exact An|]. split.
    + intros (K1 & K2 & K3). apply Qltb_lt in K1. apply CAR_eqb_eq in K2.
      apply Z.eqb_eq in K3. rewrite K1, K2, K3 in Gn. discriminate.
    + intros (K1 & K2). apply Qltb_lt in K2. rewrite K1, K2 in B.
      discriminate.
  - intros (En & An & NG & NB). unfold lkas_active_of, KPH, Z_truthy.
    apply Qltb_lt in An. rewrite En, An. cbn [andb].
    destruct (turning_indicator_alert CC
              && (vEgo (out (CS a)) <?q (2 # 1) * KPH_TO_MS (CV E))) eqn:B.
    { exfalso. apply andb_true_iff in B. destruct B as [B1 B2].
      apply NB. split; [exact B1 | apply Qltb_lt; exact B2]. }
    destruct ((vEgo (out (CS a)) <?q (60 # 1) * KPH_TO_MS (CV E))
              && CAR_eqb (car_fingerprint CC) GENESIS
              && negb (negb (mdps_bus (CS a) =? 0))) eqn:Gn; [|reflexivity].
    exfalso. apply andb_true_iff in Gn. destruct Gn as [Gn G3].
    apply andb_true_iff in Gn. destruct Gn as [G1 G2].
    apply NG. repeat split.
    + apply Qltb_lt. exact G1.
    + apply CAR_eqb_eq. exact G2.
    + rewrite negb_involutive in G3. apply Z.eqb_eq. exact G3.
  - intro H. rewrite H. reflexivity.
  - destruct (lkas_active_of E CC a); [reflexivity|].
    cbn [negb]. intro H. contradiction.
  - intros t Ht.
    destruct (Z_truthy (mdps_bus (CS a)) || (scc_bus (CS a) =? 1));
      simpl in Ht; intuition.
Qed.

(** ** The speed shown to the MDPS *)

Lemma enabled_speed_bounds (E : Externals) (CC : CarController)
    (a : UpdateArgs) :
  let speed := CF_Clu_Vanz (clu11 (CS a)) in
  let floor : Q := if is_set_speed_in_mph (CS a) then 38 # 1 else 60 # 1 in
  (speed <= enabled_speed_of E CC a)%Q
  /\ (lkas_active_of E CC a = true -> (floor <= enabled_speed_of E CC a)%Q)
  /\ (lkas_active_of E CC a = false -> enabled_speed_of E CC a = speed)
  /\ (enabled_speed_of E CC a = speed \/ enabled_speed_of E CC a = floor).
Proof.
  intros speed floor. subst speed floor. unfold enabled_speed_of.
  destruct (lkas_active_of E CC a); cbn [negb];
    destruct (CF_Clu_Vanz (clu11 (CS a))
              >?q (if is_set_speed_in_mph (CS a) then 38 # 1 else 60 # 1))
      eqn:G; cbn [orb];
    try apply Qgtb_gt in G; try apply Qgtb_le in G;
    repeat apply conj; intros; try discriminate; auto;
    try apply Qle_refl; try (apply Qlt_le_weak; exact G); try exact G.
Qed.

(** X11.  On odd frames with a non-zero MDPS bus the call sends the
    cluster message for the MDPS with counter (frame // 2) % 16, in
    [0, 16), and no button pressed.  The speed it shows is never below
    the real cluster speed; while steering is active it is at least 38
    (mph clusters) or 60 (km/h clusters); while steering is inactive it
    is the real speed. *)
Theorem mdps_speed_floor :
  forall (E : Externals) (CC : CarController) (a : UpdateArgs),
    let speed := CF_Clu_Vanz (clu11 (CS a)) in
    let floor : Q := if is_set_speed_in_mph (CS a) then 38 # 1 else 60 # 1 in
    let shown := enabled_speed_of E CC a in
    (frame a mod 2 <> 0 -> mdps_bus (CS a) <> 0 ->
     In (create_clu11 (frame a / 2 mod 16) (mdps_bus (CS a)) (clu11 (CS a))
           (NONE (Buttons E)) shown)
        (can_sends_of E CC a)
     /\ 0 <= frame a / 2 mod 16 < 16)
    /\ (speed <= shown)%Q
    /\ (lkas_active_of E CC a = true -> (floor <= shown)%Q)
    /\ (lkas_active_of E CC a = false -> shown = speed)
    /\ (shown = speed \/ shown = floor).
Proof.
  intros E CC a speed floor shown. subst speed floor shown.
  split; [|apply enabled_speed_bounds].
  intros Hf Hm. split; [|apply Z.mod_pos_bound; reflexivity].
  rewrite can_sends_blocks. unfold blocks.
  apply in_or_app. right. apply in_or_app. left.
  unfold clu11_mdps_sends, Z_truthy.
  apply Z.eqb_neq in Hf. apply Z.eqb_neq in Hm. rewrite Hf, Hm.
  left. reflexivity.
Qed.

(** ** Fusion, the native request and the SCC12 counter *)

Lemma scc12_accels_app (l1 l2 : list CanMsg) :
  scc12_accels (l1 ++ l2) = scc12_accels l1 ++ scc12_accels l2.
Proof.
  induction l1 as [|m t IH]; [reflexivity|].
  destruct m; simpl; rewrite IH; reflexivity.
Qed.

Lemma scc12_accels_none (l : list CanMsg) :
  (forall m, In m l -> is_scc12 m = false) -> scc12_accels l = [].
Proof.
  induction l as [|m t IH]; intro H; [reflexivity|].
  assert (Hm := H m (or_introl eq_refl)).
  destruct m; simpl in *; try discriminate;
    apply IH; intros x Hx; apply H; right; exact Hx.
Qed.

Section Fusion.

Variable E : Externals.

Ltac open_call CC a :=
  unfold next, can_sends_of, update;
  destruct (accel_command CC (actuators a)) as [cmd steady'];
  destruct (process_hud_alert (enabled a) (car_fingerprint CC)
              (visual_alert a) (left_lane a) (right_lane a)
              (left_lane_depart a) (right_lane_depart a))
    as [[[warn state] lw] rw];
  destruct (auto_resume E CC a (CF_Clu_Vanz (clu11 (CS a))))
    as [rs [[last' cnt'] wait']];
  cbn [fst snd].

Lemma update_controls_fields CC a :
  let ctl := controls a in
  let ctl' := snd (fst (update E CC a)) in
  let aReq := aReqValue (scc12 (CS a)) in
  let fused :=
    get_fused_accel (smoother a) (fst (accel_command CC (actuators a)))
      aReq in
  fused_accel ctl' = (if scc_gate CC a then fst fused else fused_accel ctl)
  /\ lead_drel ctl' = (if scc_gate CC a then snd fused else lead_drel ctl)
  /\ aReqValueMin ctl'
     = (if aReq <?q aReqValueMin ctl then aReq else aReqValueMin ctl)
  /\ aReqValueMax ctl'
     = (if aReq >?q aReqValueMax ctl then aReq else aReqValueMax ctl)
  /\ c_aReqValue ctl' = aReq
  /\ clu_speed_ms ctl' = (CF_Clu_Vanz (clu11 (CS a)) * KPH_TO_MS (CV E))%Q
  /\ sm_radarState ctl' = sm_radarState ctl.
Proof.
  intros ctl ctl' aReq fused. subst ctl ctl' aReq fused.
  open_call CC a. repeat apply conj; reflexivity.
Qed.

Lemma can_sends_scc12_accels CC a :
  scc12_accels (can_sends_of E CC a)
  = if scc_gate CC a
    then [fst (get_fused_accel (smoother a)
                 (fst (accel_command CC (actuators a)))
                 (aReqValue (scc12 (CS a))))]
    else [].
Proof.
  rewrite can_sends_blocks. unfold blocks.
  rewrite !scc12_accels_app.
  rewrite (scc12_accels_none (lkas_sends E CC a)),
    (scc12_accels_none (clu11_mdps_sends E CC a)),
    (scc12_accels_none (cancel_sends E CC a)),
    (scc12_accels_none (presses_of E CC a)),
    (scc12_accels_none (map smoother_msg _)),
    (scc12_accels_none (mdps12_sends a)),
    (scc12_accels_none (lfa_sends E CC a)).
  - destruct (scc_gate CC a); [|reflexivity].
    unfold scc_sends.
    destruct (has_scc13 (CS a) && (frame a mod 20 =? 0));
      destruct (has_scc14 (CS a)); reflexivity.
  - intros m Hm. unfold lfa_sends in Hm.
    destruct ((frame a mod 5 =? 0) && send_lfa_mfa E (car_fingerprint CC));
      simpl in Hm; intuition (subst; reflexivity).
  - intros m Hm. unfold mdps12_sends in Hm.
    destruct (Z_truthy (mdps_bus (CS a)));
      simpl in Hm; intuition (subst; reflexivity).
  - intros m Hm. apply (smoother_msg_other _ _ Hm).
  - intros m Hm. apply (presses_of_other E _ _ _ Hm).
  - intros m Hm. unfold cancel_sends in Hm.
    destruct (pcm_cancel_cmd a
              && (longcontrol CC && negb (mad_mode_enabled CC)));
      simpl in Hm; intuition (subst; reflexivity).
  - intros m Hm. unfold clu11_mdps_sends in Hm.
    destruct (Z_truthy (frame a mod 2) && Z_truthy (mdps_bus (CS a)));
      simpl in Hm; intuition (subst; reflexivity).
  - intros m Hm. unfold lkas_sends in Hm.
    destruct (Z_truthy (mdps_bus (CS a)) || (scc_bus (CS a) =? 1));
      simpl in Hm; intuition (subst; reflexivity).
Qed.

End Fusion.

(** C2 as stated fails for the accel that is emitted: in the first cycle
    after construction, full longitudinal control on, the SCC on bus 1,
    full gas, the limiter's command is 1.5; the fusion collaborator lets
    the vehicle's own request 2.25 through, and the SCC12 message, the
    only message with an accel, carries 2.25, outside [-4, 1.5]. *)
Lemma emitted_accel_outside_limits :
  let s0 := Sample.start Sample.long_car_params in
  let ci := Scenario.native_request in
  let r := cycle Sample.externals s0 ci in
  (gas (c_actuators (ci_control ci))
   - brake (c_actuators (ci_control ci)) == 1)%Q
  /\ (apply_accel_last (controller (fst r)) == 15 # 10)%Q
  /\ (c_apply_accel (snd (fst r)) == 15 # 10)%Q
  /\ (accel_steady (controller (fst r))
      * Qmax CarControllerParams.ACCEL_MAX
             (Qabs CarControllerParams.ACCEL_MIN) == 392 # 100)%Q
  /\ scc12_accels (snd r) = [9 # 4]
  /\ (fused_accel (snd (fst r)) == 9 # 4)%Q
  /\ ~ (- (4 # 1) <= 9 # 4 <= 15 # 10)%Q.
Proof.
  vm_compute. repeat split; try discriminate.
  intros [_ H]. apply H. reflexivity.
Qed.

(** C2, amended.  In every call of update, whatever the state: the steady
    value of the hysteresis filter changes only if the raw input
    (gas - brake) differs from it by more than 0.02; the limiter's
    command, which update stores in the controller and in the controls
    object, is the new steady value scaled by
    max(ACCEL_MAX, |ACCEL_MIN|) = 4 and then clipped to
    [ACCEL_MIN, ACCEL_MAX]; it lies in [-4, 1.5] and equals the scaled
    steady value whenever that lies in the range.  The accel that is
    emitted is another value: update sends an accel only in the SCC12
    message, only when the SCC block runs, and it is the first result of
    the fusion collaborator for the command and the vehicle's reported
    request; it lies in [-4, 1.5] when the collaborator returns the
    command itself. *)
Theorem accel_command_hysteresis_scale_clip :
  forall (E : Externals) (CC : CarController) (a : UpdateArgs),
    let raw := (gas (actuators a) - brake (actuators a))%Q in
    let CC' := next E CC a in
    let scaled :=
      (accel_steady CC'
       * Qmax CarControllerParams.ACCEL_MAX
              (Qabs CarControllerParams.ACCEL_MIN))%Q in
    let cmd := apply_accel_last CC' in
    let fused :=
      fst (get_fused_accel (smoother a) cmd (aReqValue (scc12 (CS a)))) in
    let sent := scc12_accels (can_sends_of E CC a) in
    (accel_steady CC' <> accel_steady CC ->
     ((2 # 100) < Qabs (raw - accel_steady CC))%Q)
    /\ ((Qabs (raw - accel_steady CC) <= 2 # 100)%Q ->
        accel_steady CC' = accel_steady CC)
    /\ cmd
       = clip scaled CarControllerParams.ACCEL_MIN
           CarControllerParams.ACCEL_MAX
    /\ c_apply_accel (snd (fst (update E CC a))) = cmd
    /\ (- (4 # 1) <= cmd <= 15 # 10)%Q
    /\ ((- (4 # 1) <= scaled <= 15 # 10)%Q -> (cmd == scaled)%Q)
    /\ (scc_gate CC a = true -> sent = [fused])
    /\ (scc_gate CC a = false -> sent = [])
    /\ (forall x, In x sent ->
          x = fused
          /\ ((fused == cmd)%Q -> (- (4 # 1) <= x <= 15 # 10)%Q)).
Proof.
  intros E CC a raw CC' scaled cmd fused sent.
  destruct (accel_command_stored E CC a) as (H1 & H2 & H3 & H4 & H5 & H6).
  assert (Hs : sent = if scc_gate CC a then [fused] else []).
  { subst sent fused cmd CC'. rewrite can_sends_scc12_accels.
    rewrite next_apply_accel_last. reflexivity. }
  split; [exact H1|]. split; [exact H2|]. split; [exact H3|].
  split; [exact H4|]. split; [exact H5|]. split; [exact H6|].
  split; [|split].
  - intro G. rewrite Hs, G. reflexivity.
  - intro G. rewrite Hs, G. reflexivity.
  - intros x Hx. rewrite Hs in Hx.
    destruct (scc_gate CC a); [|contradiction].
    destruct Hx as [Hx|[]]. subst x.
    split; [reflexivity|]. intro K. rewrite K. exact H5.
Qed.

(** X12.  When the native-cruise pair is sent, the SCC12 message carries
    the accel the fusion collaborator returns for the limiter's command
    and the vehicle's reported request, and that value and the lead
    distance are recorded in the controls object; the controller's own
    stored command and steady value are the limiter's, untouched by the
    fusion.  When the pair is not sent the recorded fused accel and lead
    distance stay as they were. *)
Theorem fusion_replaces_emission_only :
  forall (E : Externals) (CC : CarController) (a : UpdateArgs),
    let cmd := fst (accel_command CC (actuators a)) in
    let ctl' := snd (fst (update E CC a)) in
    let fused :=
      get_fused_accel (smoother a) cmd (aReqValue (scc12 (CS a))) in
    apply_accel_last (next E CC a) = cmd
    /\ c_apply_accel ctl' = cmd
    /\ accel_steady (next E CC a) = snd (accel_command CC (actuators a))
    /\ (scc_gate CC a = true ->
        scc12_accels (can_sends_of E CC a) = [fst fused]
        /\ fused_accel ctl' = fst fused
        /\ lead_drel ctl' = snd fused)
    /\ (scc_gate CC a = false ->
        scc12_accels (can_sends_of E CC a) = []
        /\ fused_accel ctl' = fused_accel (controls a)
        /\ lead_drel ctl' = lead_drel (controls a)).
Proof.
  intros E CC a cmd ctl' fused. subst cmd ctl' fused.
  destruct (update_controls_fields E CC a) as (Hf & Hl & _).
  cbn zeta in Hf, Hl.
  rewrite next_apply_accel_last, update_controls_apply_accel,
    next_accel_steady, can_sends_scc12_accels, Hf, Hl.
  repeat apply conj; try reflexivity; intro G; rewrite G;
    repeat apply conj; reflexivity.
Qed.

(** X13.  The running bounds of the vehicle's reported accel request:
    after a call the minimum is at most the reported value and the
    maximum at least it, the minimum never rises and the maximum never
    falls; so after any run of the driver loop every value reported
    during the run lies between the recorded minimum and maximum. *)
Theorem reported_request_bounds :
  forall (E : Externals),
    (forall CC a,
        let ctl' := snd (fst (update E CC a)) in
        let aReq := aReqValue (scc12 (CS a)) in
        (aReqValueMin ctl' <= aReq <= aReqValueMax ctl')%Q
        /\ (aReqValueMin ctl' <= aReqValueMin (controls a))%Q
        /\ (aReqValueMax (controls a) <= aReqValueMax ctl')%Q)
    /\ (forall l s,
          let s' := after_all E s l in
          (aReqValueMin (snd s') <= aReqValueMin (snd s))%Q
          /\ (aReqValueMax (snd s) <= aReqValueMax (snd s'))%Q
          /\ (forall ci, In ci l ->
                (aReqValueMin (snd s') <= aReq_of ci
                 <= aReqValueMax (snd s'))%Q)).
Proof.
  intro E.
  assert (Call : forall CC a,
             let ctl' := snd (fst (update E CC a)) in
             let aReq := aReqValue (scc12 (CS a)) in
             (aReqValueMin ctl' <= aReq <= aReqValueMax ctl')%Q
             /\ (aReqValueMin ctl' <= aReqValueMin (controls a))%Q
             /\ (aReqValueMax (controls a) <= aReqValueMax ctl')%Q).
  { intros CC a ctl' aReq. subst ctl' aReq.
    destruct (update_controls_fields E CC a) as (_ & _ & Hmin & Hmax & _).
    cbn zeta in Hmin, Hmax. rewrite Hmin, Hmax.
    destruct (aReqValue (scc12 (CS a)) <?q aReqValueMin (controls a)) eqn:L;
      destruct (aReqValue (scc12 (CS a)) >?q aReqValueMax (controls a))
        eqn:G;
      try apply Qltb_lt in L; try apply Qltb_ge in L;
      try apply Qgtb_gt in G; try apply Qgtb_le in G;
      repeat split; lra. }
  split; [exact Call|].
  induction l as [|ci l IH]; intros s s'; subst s'.
  - split; [apply Qle_refl|]. split; [apply Qle_refl|]. intros c [].
  - rewrite after_all_cons.
    destruct (IH (after E s ci)) as (Imin & Imax & Iall).
    assert (Step : (aReqValueMin (snd (after E s ci)) <= aReq_of ci
                    <= aReqValueMax (snd (after E s ci)))%Q
                   /\ (aReqValueMin (snd (after E s ci))
                       <= aReqValueMin (snd s))%Q
                   /\ (aReqValueMax (snd s)
                       <= aReqValueMax (snd (after E s ci)))%Q).
    { destruct s as [I ctl]. unfold after, cycle, apply, aReq_of.
      cbn [fst snd].
      specialize (Call (I_CC (fst (interface_update E I (ci_update ci))))
                    (apply_args (fst (interface_update E I (ci_update ci)))
                       (ci_control ci)
                       (with_radarState ctl (ci_radarState ci))
                       (i_smoother (ci_update ci)))).
      destruct (update E _ _) as [[CC' ctl'] sends].
      cbn [fst snd] in Call |- *. exact Call. }
    destruct Step as ((S1 & S2) & S3 & S4).
    split; [eapply Qle_trans; eassumption|].
    split; [eapply Qle_trans; eassumption|].
    intros c [Hc|Hc]; [subst c | apply (Iall _ Hc)].
    split; eapply Qle_trans; eassumption.
Qed.

(** X14.  Whatever the stored counter and the vehicle's echo are, also
    out of range or negative, the counter embedded in an SCC12 message is
    in [0, 15), and the counter stored after the call is in [0, 15]. *)
Theorem scc12_counter_always_wrapped :
  forall (E : Externals) (CC : CarController) (a : UpdateArgs),
    (forall c, In c (scc12_counters (can_sends_of E CC a)) -> 0 <= c < 15)
    /\ 0 <= scc12_cnt (next E CC a) <= 15
    /\ (scc_gate CC a = false -> 0 <= scc12_cnt (next E CC a) < 15).
Proof.
  intros E CC a.
  rewrite can_sends_scc12_counters, next_scc12_cnt.
  assert (B : 0 <= scc12_cnt_wrapped CC a < 15).
  { unfold scc12_cnt_wrapped. apply Z.mod_pos_bound. reflexivity. }
  destruct (scc_gate CC a); repeat split; try lia; try discriminate.
  - destruct H as [H|[]]. lia.
  - destruct H as [H|[]]. lia.
  - destruct H.
  - destruct H.
Qed.

(** ** Events: occurrences and membership *)

Lemma EventName_eqb_eq (a b : EventName) : EventName_eqb a b = true <-> a = b.
Proof.
  destruct a, b; simpl; split; intro H; try discriminate; try reflexivity.
  - apply Nat.eqb_eq in H. subst. reflexivity.
  - injection H as H. apply Nat.eqb_eq. exact H.
Qed.

Lemma EventName_eqb_refl (a : EventName) : EventName_eqb a a = true.
Proof. apply EventName_eqb_eq. reflexivity. Qed.

Lemma EventName_eqb_neq (a b : EventName) :
  EventName_eqb a b = false <-> a <> b.
Proof.
  split; intro H.
  - intro K. apply EventName_eqb_eq in K. congruence.
  - destruct (EventName_eqb a b) eqn:B; [|reflexivity].
    apply EventName_eqb_eq in B. contradiction.
Qed.

Lemma event_in_In (x : EventName) (l : list EventName) :
  event_in x l = true <-> In x l.
Proof.
  unfold event_in. rewrite existsb_exists. split.
  - intros [y [Hy He]]. apply EventName_eqb_eq in He. subst. exact Hy.
  - intro H. exists x. split; [exact H | apply EventName_eqb_refl].
Qed.

Lemma occurrences_zero (x : EventName) (l : list EventName) :
  occurrences x l = 0%nat <-> ~ In x l.
Proof.
  unfold occurrences. induction l as [|y t IH]; simpl; [tauto|].
  destruct (EventName_eqb x y) eqn:B; simpl.
  - apply EventName_eqb_eq in B. subst. split; [discriminate|].
    intro H. exfalso. apply H. left. reflexivity.
  - apply EventName_eqb_neq in B. rewrite IH. split.
    + intros H [K|K]; [congruence|contradiction].
    + intros H K. apply H. right. exact K.
Qed.

Lemma occurrences_add (x y : EventName) (l : list EventName) :
  occurrences x (add l y)
  = (occurrences x l + (if EventName_eqb x y then 1 else 0))%nat.
Proof.
  unfold occurrences, add. rewrite filter_app, length_app. simpl.
  destruct (EventName_eqb x y); reflexivity.
Qed.

Lemma occurrences_remove_first_same (x : EventName) (l : list EventName) :
  occurrences x (remove_first x l) = pred (occurrences x l).
Proof.
  unfold occurrences. induction l as [|y t IH]; [reflexivity|].
  simpl. destruct (EventName_eqb x y) eqn:B; simpl.
  - reflexivity.
  - rewrite B. exact IH.
Qed.

Lemma occurrences_remove_first_other (x y : EventName)
    (l : list EventName) :
  x <> y -> occurrences x (remove_first y l) = occurrences x l.
Proof.
  intro Hne. unfold occurrences. induction l as [|z t IH]; [reflexivity|].
  simpl. destruct (EventName_eqb y z) eqn:B.
  - apply EventName_eqb_eq in B. subst z.
    apply EventName_eqb_neq in Hne. rewrite Hne. reflexivity.
  - simpl. destruct (EventName_eqb x z); simpl; rewrite IH; reflexivity.
Qed.

Lemma occurrences_discard_same (x : EventName) (l : list EventName) :
  occurrences x (discard x l) = pred (occurrences x l).
Proof.
  unfold discard. destruct (event_in x l) eqn:B.
  - apply occurrences_remove_first_same.
  - assert (H : ~ In x l).
    { intro K. apply event_in_In in K. congruence. }
    apply occurrences_zero in H. rewrite H. reflexivity.
Qed.

Lemma occurrences_discard_other (x y : EventName) (l : list EventName) :
  x <> y -> occurrences x (discard y l) = occurrences x l.
Proof.
  intro H. unfold discard. destruct (event_in y l); [|reflexivity].
  apply occurrences_remove_first_other. exact H.
Qed.

Lemma In_occurrences (x : EventName) (l : list EventName) :
  In x l <-> (0 < occurrences x l)%nat.
Proof.
  split; intro H.
  - destruct (occurrences x l) eqn:O; [|lia].
    apply occurrences_zero in O. contradiction.
  - destruct (in_dec (fun a b =>
                match EventName_eqb a b as r
                      return EventName_eqb a b = r -> {a = b} + {a <> b}
                with
                | true => fun e => left (proj1 (EventName_eqb_eq a b) e)
                | false => fun e => right (proj1 (EventName_eqb_neq a b) e)
                end eq_refl) x l) as [K|K]; [exact K|].
    apply occurrences_zero in K. lia.
Qed.

Section ButtonLoop.

Variable E : Externals.

(** What one button event does to the number of occurrences of an
    event the loop neither adds nor removes. *)
Lemma handle_button_other CC en evs b e :
  e <> buttonCancel -> e <> buttonEnable ->
  e <> wrongCarMode -> e <> pcmDisable ->
  occurrences e (handle_button CC en evs b) = occurrences e evs.
Proof.
  intros H1 H2 H3 H4. unfold handle_button.
  apply EventName_eqb_neq in H1. apply EventName_eqb_neq in H2.
  assert (A : forall l, occurrences e (add l buttonCancel) = occurrences e l)
    by (intro l; rewrite occurrences_add, H1; lia).
  assert (B : forall l, occurrences e (add l buttonEnable) = occurrences e l)
    by (intro l; rewrite occurrences_add, H2; lia).
  repeat match goal with
         | |- context [if ?c then _ else _] => destruct c
         end;
    rewrite ?occurrences_discard_other by assumption;
    rewrite ?B, ?A; reflexivity.
Qed.

Lemma handle_buttons_other CC en bs e :
  e <> buttonCancel -> e <> buttonEnable ->
  e <> wrongCarMode -> e <> pcmDisable ->
  forall evs,
    occurrences e (fold_left (handle_button CC en) bs evs)
    = occurrences e evs.
Proof.
  intros H1 H2 H3 H4. induction bs as [|b t IH]; intro evs; [reflexivity|].
  simpl. rewrite IH. apply handle_button_other; assumption.
Qed.

Lemma events_of_loop I ia alert low :
  events_of E I ia alert low
  = fold_left
      (handle_button (I_CC I) (reported_cruise_enabled I (ret0 ia)))
      (button_events E (new_CS ia))
      (events_before_buttons I ia alert low).
Proof. reflexivity. Qed.

(** No button event has the type "cancel". *)
Lemma button_events_never_cancel cs :
  forall b, In b (button_events E cs) -> be_type b <> bt_cancel.
Proof.
  intros b Hb. unfold button_events in Hb.
  apply in_app_or in Hb. destruct Hb as [Hb|Hb].
  - destruct (negb (cruise_buttons cs =? prev_cruise_buttons cs));
      [|contradiction].
    destruct Hb as [Hb|[]]. subst b. cbn [be_type].
    repeat match goal with
           | |- context [if ?c then _ else _] => destruct c
           end; discriminate.
  - destruct (negb (cruise_main_button cs =? prev_cruise_main_button cs));
      [|contradiction].
    destruct Hb as [Hb|[]]. subst b. discriminate.
Qed.

Lemma handle_buttons_no_cancel CC en bs :
  (forall b, In b bs -> be_type b <> bt_cancel) ->
  forall evs,
    occurrences buttonCancel (fold_left (handle_button CC en) bs evs)
    = occurrences buttonCancel evs.
Proof.
  induction bs as [|b t IH]; intros Hb evs; [reflexivity|].
  simpl. rewrite IH by (intros x Hx; apply Hb; right; exact Hx).
  assert (Hc : ButtonType_eqb (be_type b) bt_cancel = false).
  { assert (K := Hb b (or_introl eq_refl)).
    destruct (be_type b); try reflexivity. contradiction. }
  unfold handle_button. rewrite Hc. cbn [andb].
  assert (B : forall l,
             occurrences buttonCancel (add l buttonEnable)
             = occurrences buttonCancel l)
    by (intro l; rewrite occurrences_add; cbn; lia).
  repeat match goal with
         | |- context [if ?c then _ else _] => destruct c
         end;
    rewrite ?occurrences_discard_other by discriminate;
    rewrite ?B; reflexivity.
Qed.

End ButtonLoop.

(** ** CarInterface.update, further *)

(** X15.  After every call of [CarInterface.update] the car parameter
    "enable cruise" equals the controller's flag "SCC live"; neither
    update nor apply ever changes that flag, so along every run from
    construction "enable cruise" is the opposite of "radar off CAN". *)
Theorem enable_cruise_mirrors_scc_live :
  forall (E : Externals),
    (forall I ia,
        let I' := fst (interface_update E I ia) in
        enableCruise (I_CP I') = scc_live (I_CC I')
        /\ scc_live (I_CC I') = scc_live (I_CC I))
    /\ (forall CC a, scc_live (next E CC a) = scc_live CC)
    /\ (forall CP mad cs0 ctl0 ci l,
          let s := after_all E (CarInterface_init CP mad cs0, ctl0)
                     (ci :: l) in
          scc_live (controller s) = negb (radarOffCan CP)
          /\ enableCruise (I_CP (fst s)) = negb (radarOffCan CP)).
Proof.
  intro E.
  assert (U : forall I ia,
             let I' := fst (interface_update E I ia) in
             enableCruise (I_CP I') = scc_live (I_CC I')
             /\ scc_live (I_CC I') = scc_live (I_CC I)).
  { intros I ia I'. subst I'. cbn.
    destruct (enableCruise (I_CP I)), (scc_live (I_CC I)); split;
      reflexivity. }
  split; [exact U|]. split; [apply next_scc_live|].
  assert (Step : forall s ci,
             scc_live (controller (after E s ci)) = scc_live (controller s)
             /\ enableCruise (I_CP (fst (after E s ci)))
                = scc_live (controller s)).
  { intros [I ctl] ci. destruct (U I (ci_update ci)) as (U1 & U2).
    cbn zeta in U1, U2.
    destruct (cycle_unfold E I ctl ci) as (Hcc & _).
    cbn zeta in Hcc. unfold controller, after. cbn [fst].
    rewrite Hcc, next_scc_live. unfold cycle_CC. rewrite U2.
    split; [reflexivity|].
    unfold cycle, apply. cbn [fst snd].
    destruct (update E _ _) as [[CC' ctl'] sends]. cbn [fst I_CP].
    rewrite U1, U2. reflexivity. }
  assert (Run : forall l s ci,
             scc_live (controller (after_all E s (ci :: l)))
             = scc_live (controller s)
             /\ enableCruise (I_CP (fst (after_all E s (ci :: l))))
                = scc_live (controller s)).
  { induction l as [|c l IH]; intros s ci; rewrite after_all_cons.
    - apply Step.
    - destruct (Step s ci) as (S1 & _).
      destruct (IH (after E s ci) c) as (R1 & R2).
      rewrite R1, R2, S1. split; reflexivity. }
  intros CP mad cs0 ctl0 ci l s. subst s.
  destruct (Run l (CarInterface_init CP mad cs0, ctl0) ci) as (R1 & R2).
  rewrite R1, R2. split; reflexivity.
Qed.

(** X16.  The low-speed steering alert has a hysteresis band: above the
    minimum steering speed plus 0.7 it is cleared; below the minimum plus
    0.2 it is raised, for variants whose minimum exceeds 10; in between
    it keeps its value; and for a variant whose minimum is at most 10 it
    is never raised. *)
Theorem low_speed_alert_hysteresis :
  forall (E : Externals) (I : CarInterface) (ia : InterfaceArgs),
    let m := minSteerSpeed (I_CP I) in
    let v := vEgo (ret0 ia) in
    let alert' := low_speed_alert (fst (interface_update E I ia)) in
    ((m + (7 # 10) < v)%Q -> alert' = false)
    /\ ((v < m + (2 # 10))%Q -> (10 # 1 < m)%Q -> alert' = true)
    /\ ((m + (2 # 10) <= v)%Q -> (v <= m + (7 # 10))%Q ->
        alert' = low_speed_alert I)
    /\ ((m <= 10 # 1)%Q -> low_speed_alert I = false -> alert' = false).
Proof.
  intros E I ia m v alert'. subst m v alert'.
  cbn [interface_update fst low_speed_alert]. unfold low_speed_alert_of.
  destruct (vEgo (ret0 ia) >?q minSteerSpeed (I_CP I) + (7 # 10)) eqn:G;
    destruct (vEgo (ret0 ia) <?q minSteerSpeed (I_CP I) + (2 # 10)) eqn:L;
    destruct (minSteerSpeed (I_CP I) >?q 10 # 1) eqn:M;
    try apply Qgtb_gt in G; try apply Qgtb_le in G;
    try apply Qltb_lt in L; try apply Qltb_ge in L;
    try apply Qgtb_gt in M; try apply Qgtb_le in M;
    cbn [andb]; repeat apply conj; intros;
    try reflexivity; try assumption; try (exfalso; lra).
Qed.

(** X17.  A cycle yields at most two button events, none when neither
    the combined button code nor the main button changed.  A change of
    the combined code gives an event that is "pressed" exactly when the
    new code is non-zero; a change of the main button gives an
    alternate-function event.  No button event ever has the type
    "cancel", whatever the codes. *)
Theorem button_events_shape :
  forall (E : Externals) (cs : CarState),
    let evs := button_events E cs in
    (List.length evs <= 2)%nat
    /\ (cruise_buttons cs = prev_cruise_buttons cs ->
        cruise_main_button cs = prev_cruise_main_button cs -> evs = [])
    /\ (cruise_buttons cs <> prev_cruise_buttons cs ->
        exists ty rest,
          evs = {| be_type := ty; pressed := negb (cruise_buttons cs =? 0) |}
                :: rest
          /\ ty <> altButton3)
    /\ (cruise_main_button cs <> prev_cruise_main_button cs ->
        In {| be_type := altButton3;
              pressed := negb (cruise_main_button cs =? 0) |} evs)
    /\ (forall b, In b evs -> be_type b <> bt_cancel).
Proof.
  intros E cs evs. subst evs.
  split; [|split; [|split; [|split]]].
  - unfold button_events. rewrite length_app.
    destruct (negb (cruise_buttons cs =? prev_cruise_buttons cs));
      destruct (negb (cruise_main_button cs =? prev_cruise_main_button cs));
      simpl; lia.
  - intros H1 H2. unfold button_events. rewrite H1, H2, !Z.eqb_refl.
    reflexivity.
  - intro H. unfold button_events. apply Z.eqb_neq in H. rewrite H.
    cbn [negb app]. eexists. eexists. split; [reflexivity|].
    repeat match goal with
           | |- context [if ?c then _ else _] => destruct c
           end; discriminate.
  - intro H. unfold button_events. apply Z.eqb_neq in H. rewrite H.
    apply in_or_app. right. left. reflexivity.
  - apply button_events_never_cancel.
Qed.

(** X18.  [CarInterface.update] never requests a cancel on its own: the
    events at the end of the button loop hold "button cancel" exactly as
    often as the common events do. *)
Theorem interface_never_adds_button_cancel :
  forall (E : Externals) (I : CarInterface) (ia : InterfaceArgs)
         (alert low : bool),
    occurrences buttonCancel (events_of E I ia alert low)
    = occurrences buttonCancel (common_events ia)
    /\ (In buttonCancel (events_of E I ia alert low) <->
        In buttonCancel (common_events ia)).
Proof.
  intros E I ia alert low.
  assert (O : occurrences buttonCancel (events_of E I ia alert low)
              = occurrences buttonCancel (common_events ia)).
  { rewrite events_of_loop.
    rewrite handle_buttons_no_cancel by apply button_events_never_cancel.
    unfold events_before_buttons.
    repeat match goal with
           | |- context [if ?c then _ else _] => destruct c
           end;
      rewrite ?occurrences_discard_other by discriminate;
      rewrite ?occurrences_add; cbn; lia. }
  split; [exact O|]. rewrite !In_occurrences, O. reflexivity.
Qed.

Section LongMode.

Variable E : Externals.

(** In the mode "full longitudinal control, SCC not live" every button
    event removes one occurrence of each of the two events. *)
Lemma handle_button_long_clears CC en evs b e :
  longcontrol CC = true -> scc_live CC = false ->
  e = wrongCarMode \/ e = pcmDisable ->
  occurrences e (handle_button CC en evs b) = pred (occurrences e evs).
Proof.
  intros Hl Hs He. unfold handle_button. rewrite Hl, Hs. cbn [andb negb].
  assert (A : forall l, occurrences e (add l buttonCancel) = occurrences e l)
    by (intro l; rewrite occurrences_add; destruct He; subst e; cbn; lia).
  assert (B : forall l, occurrences e (add l buttonEnable) = occurrences e l)
    by (intro l; rewrite occurrences_add; destruct He; subst e; cbn; lia).
  destruct He; subst e.
  - rewrite occurrences_discard_other by discriminate.
    rewrite occurrences_discard_same.
    repeat match goal with
           | |- context [if ?c then _ else _] => destruct c
           end; rewrite ?B, ?A; reflexivity.
  - rewrite occurrences_discard_same.
    rewrite occurrences_discard_other by discriminate.
    repeat match goal with
           | |- context [if ?c then _ else _] => destruct c
           end; rewrite ?B, ?A; reflexivity.
Qed.

Lemma handle_buttons_long_clears CC en bs e :
  longcontrol CC = true -> scc_live CC = false ->
  e = wrongCarMode \/ e = pcmDisable ->
  forall evs,
    occurrences e (fold_left (handle_button CC en) bs evs)
    = (occurrences e evs - List.length bs)%nat.
Proof.
  intros Hl Hs He. induction bs as [|b t IH]; intro evs.
  - simpl. lia.
  - simpl. rewrite IH, (handle_button_long_clears CC en evs b e Hl Hs He).
    lia.
Qed.

(** A release of the accelerate or of the decelerate button. *)
Lemma button_events_release cs code :
  code <> 0 ->
  code = RES_ACCEL (Buttons E) \/ code = SET_DECEL (Buttons E) ->
  prev_cruise_buttons cs = code -> cruise_buttons cs = 0 ->
  exists ty rest,
    button_events E cs = {| be_type := ty; pressed := false |} :: rest
    /\ (ty = accelCruise \/ ty = decelCruise).
Proof.
  intros Hnz Hc Hprev Hnow. unfold button_events. rewrite Hprev, Hnow.
  replace (0 =? code) with false by (symmetry; apply Z.eqb_neq; congruence).
  cbn [negb Z.eqb app].
  destruct (code =? RES_ACCEL (Buttons E)) eqn:R.
  - eexists. eexists. split; [reflexivity | left; reflexivity].
  - destruct Hc as [Hc|Hc].
    + apply Z.eqb_neq in R. contradiction.
    + rewrite Hc, Z.eqb_refl.
      eexists. eexists. split; [reflexivity | right; reflexivity].
Qed.

Lemma handle_button_long_keeps_enable CC en evs b :
  longcontrol CC = true -> scc_live CC = false ->
  In buttonEnable evs -> In buttonEnable (handle_button CC en evs b).
Proof.
  intros Hl Hs H. apply In_occurrences. apply In_occurrences in H.
  unfold handle_button. rewrite Hl, Hs. cbn [andb negb].
  rewrite !occurrences_discard_other by discriminate.
  repeat match goal with
         | |- context [if ?c then _ else _] => destruct c
         end; rewrite ?occurrences_add; cbn; lia.
Qed.

Lemma handle_buttons_long_keep_enable CC en bs :
  longcontrol CC = true -> scc_live CC = false ->
  forall evs,
    In buttonEnable evs ->
    In buttonEnable (fold_left (handle_button CC en) bs evs).
Proof.
  intros Hl Hs. induction bs as [|b t IH]; intros evs H; [exact H|].
  simpl. apply IH. apply handle_button_long_keeps_enable; assumption.
Qed.

End LongMode.

(** X19.  With full longitudinal control on and the SCC not live: a
    release of the accelerate or of the decelerate button requests
    enable, whether or not cruise is reported enabled; each button event
    of the cycle removes one occurrence of "wrong car mode" and one of
    "PCM disable", so an event that occurs at most once is gone when the
    cycle has a button event; and a cycle without button events removes
    neither. *)
Theorem long_mode_buttons :
  forall (E : Externals) (I : CarInterface) (ia : InterfaceArgs)
         (alert low : bool),
    longcontrol (I_CC I) = true ->
    scc_live (I_CC I) = false ->
    let evs := events_of E I ia alert low in
    let before := events_before_buttons I ia alert low in
    let n := List.length (button_events E (new_CS ia)) in
    (forall code,
        code <> 0 ->
        code = RES_ACCEL (Buttons E) \/ code = SET_DECEL (Buttons E) ->
        prev_cruise_buttons (new_CS ia) = code ->
        cruise_buttons (new_CS ia) = 0 ->
        In buttonEnable evs)
    /\ occurrences wrongCarMode evs = (occurrences wrongCarMode before - n)%nat
    /\ occurrences pcmDisable evs = (occurrences pcmDisable before - n)%nat
    /\ (n <> 0%nat -> (occurrences wrongCarMode before <= 1)%nat ->
        ~ In wrongCarMode evs)
    /\ (n = 0%nat -> evs = before).
Proof.
  intros E I ia alert low Hl Hs evs before n. subst evs before n.
  rewrite events_of_loop.
  assert (W := handle_buttons_long_clears (I_CC I)
                 (reported_cruise_enabled I (ret0 ia))
                 (button_events E (new_CS ia)) wrongCarMode Hl Hs
                 (or_introl eq_refl) (events_before_buttons I ia alert low)).
  assert (P := handle_buttons_long_clears (I_CC I)
                 (reported_cruise_enabled I (ret0 ia))
                 (button_events E (new_CS ia)) pcmDisable Hl Hs
                 (or_intror eq_refl) (events_before_buttons I ia alert low)).
  split; [|split; [exact W|split; [exact P|split]]].
  - intros code Hnz Hc Hprev Hnow.
    destruct (button_events_release E (new_CS ia) code Hnz Hc Hprev Hnow)
      as (ty & rest & -> & Hty).
    cbn [fold_left]. apply handle_buttons_long_keep_enable; try assumption.
    apply In_occurrences. unfold handle_button. rewrite Hl, Hs.
    cbn [andb negb be_type pressed].
    rewrite !occurrences_discard_other by discriminate.
    destruct Hty; subst ty; cbn [ButtonType_eqb andb orb];
      rewrite occurrences_add; cbn; lia.
  - intros Hn H1. apply occurrences_zero. rewrite W. lia.
  - intro Hn. apply length_zero_iff_nil in Hn. rewrite Hn. reflexivity.
Qed.

Lemma long_mode_buttons_witness :
  let I :=
    CarInterface_init Scenario.long_no_radar_params false
      Scenario.snapshot0 in
  let ia := Scenario.accel_released in
  let evs := events_of Sample.externals I ia false false in
  let before := events_before_buttons I ia false false in
  let n := List.length (button_events Sample.externals (new_CS ia)) in
  (forall code,
      code <> 0 ->
      code = RES_ACCEL (Buttons Sample.externals)
      \/ code = SET_DECEL (Buttons Sample.externals) ->
      prev_cruise_buttons (new_CS ia) = code ->
      cruise_buttons (new_CS ia) = 0 ->
      In buttonEnable evs)
  /\ occurrences wrongCarMode evs = (occurrences wrongCarMode before - n)%nat
  /\ occurrences pcmDisable evs = (occurrences pcmDisable before - n)%nat
  /\ (n <> 0%nat -> (occurrences wrongCarMode before <= 1)%nat ->
      ~ In wrongCarMode evs)
  /\ (n = 0%nat -> evs = before).
Proof.
  intros I ia.
  apply (long_mode_buttons Sample.externals I ia false false);
    reflexivity.
Defined.

(** X20.  The override mode: when it is on, the reported "cruise
    enabled" is the vehicle's "cruise available" and one occurrence of
    "pedal pressed" is removed from the events; when it is off, "cruise
    enabled" is passed on and "pedal pressed" occurs as often as in the
    common events. *)
Theorem override_mode_effects :
  forall (E : Externals) (I : CarInterface) (ia : InterfaceArgs)
         (alert low : bool),
    let ret := snd (interface_update E I ia) in
    let pedal l := occurrences pedalPressed l in
    (I_mad_mode_enabled I = true ->
     cs_enabled (cruiseState ret) = cs_available (cruiseState (ret0 ia))
     /\ pedal (events_of E I ia alert low)
        = pred (pedal (common_events ia)))
    /\ (I_mad_mode_enabled I = false ->
        cs_enabled (cruiseState ret) = cs_enabled (cruiseState (ret0 ia))
        /\ pedal (events_of E I ia alert low) = pedal (common_events ia))
    /\ cs_available (cruiseState ret) = cs_available (cruiseState (ret0 ia))
    /\ standstill (cruiseState ret) = standstill (cruiseState (ret0 ia)).
Proof.
  intros E I ia alert low ret pedal. subst ret pedal.
  cbn [interface_update snd cruiseState cs_enabled cs_available standstill].
  unfold reported_cruise_enabled.
  assert (B : forall m,
             I_mad_mode_enabled I = m ->
             occurrences pedalPressed (events_of E I ia alert low)
             = if m then pred (occurrences pedalPressed (common_events ia))
               else occurrences pedalPressed (common_events ia)).
  { intros m Hm. rewrite events_of_loop.
    rewrite handle_buttons_other by discriminate.
    unfold events_before_buttons. rewrite Hm.
    destruct m; rewrite ?occurrences_discard_same;
      repeat match goal with
             | |- context [if ?c then _ else _] => destruct c
             end;
      rewrite ?occurrences_add; cbn; try lia;
      rewrite ?Nat.add_0_r; reflexivity. }
  repeat apply conj; try reflexivity; intro Hm; rewrite Hm;
    (split; [reflexivity | apply (B _ Hm)]).
Qed.

(** X21.  The three alert events of the cycle: the event list at the end
    of the button loop holds "brake unavailable" once more than the
    common events exactly when full longitudinal control is on and the
    cruise is unavailable, "below steer speed" once more exactly when the
    low-speed alert is set and the MDPS is on bus 0, and "turning
    indicator on" once more exactly when the turning-indicator alert is
    set; no button event changes them. *)
Theorem alert_events_added_once :
  forall (E : Externals) (I : CarInterface) (ia : InterfaceArgs)
         (alert low : bool),
    let evs := events_of E I ia alert low in
    let common := common_events ia in
    occurrences brakeUnavailable evs
    = (occurrences brakeUnavailable common
       + (if longcontrol (I_CC I) && cruise_unavail (new_CS ia)
          then 1 else 0))%nat
    /\ occurrences belowSteerSpeed evs
       = (occurrences belowSteerSpeed common
          + (if low && (mdps_bus (new_CS ia) =? 0)%Z then 1 else 0))%nat
    /\ occurrences turningIndicatorOn evs
       = (occurrences turningIndicatorOn common
          + (if alert then 1 else 0))%nat
    /\ events (snd (interface_update E I ia))
       = inject_events (i_smoother ia)
           (events_of E I ia
              (turning_indicator_alert_of E (I_CC I) (ret0 ia))
              (low_speed_alert_of I (ret0 ia))).
Proof.
  intros E I ia alert low evs common. subst evs common.
  split; [|split; [|split; [|reflexivity]]];
    rewrite events_of_loop;
    rewrite handle_buttons_other by discriminate;
    unfold events_before_buttons, Z_truthy;
    rewrite negb_involutive;
    repeat match goal with
           | |- context [if ?c then _ else _] => destruct c
           end;
    rewrite ?occurrences_discard_other by discriminate;
    rewrite ?occurrences_add; cbn; lia.
Qed.

(** ** CarInterface.get_params: buses and safety model *)

(** X22.  The bus indices [get_params] derives from the fingerprint: the
    MDPS and SAS buses are 0 or 1 and the SCC bus is 0, 1, 2 or -1; an
    SCC seen on bus 0 wins over the other buses; when address 1296 is
    seen on bus 1 nothing is placed on bus 1; "radar off CAN" holds
    exactly when the SCC bus is -1, that is when the SCC is seen on no
    usable bus, and "enable cruise" is its opposite, which is also the
    "SCC live" flag the controller is constructed with. *)
Theorem bus_topology_from_fingerprint :
  forall (candidate : CAR) (fp : Fingerprint) (long mad : bool),
    let t := get_params_topology candidate fp long mad in
    In (mdpsBus t) [0; 1] /\ In (sasBus t) [0; 1]
    /\ In (sccBus t) [0; 1; 2; -1]
    /\ (on_bus fp 1056 0 = true -> sccBus t = 0)
    /\ (on_bus fp 1296 1 = true ->
        mdpsBus t = 0 /\ sasBus t = 0 /\ sccBus t <> 1)
    /\ (t_radarOffCan t = true <-> sccBus t = -1)
    /\ (t_radarOffCan t = true <->
        on_bus fp 1056 0 = false
        /\ (on_bus fp 1056 1 = false \/ on_bus fp 1296 1 = true)
        /\ on_bus fp 1056 2 = false)
    /\ t_enableCruise t = negb (t_radarOffCan t)
    /\ (forall CP flag,
          radarOffCan CP = t_radarOffCan t ->
          scc_live (CarController_init CP flag) = t_enableCruise t).
Proof.
  intros candidate fp long mad t. subst t.
  unfold get_params_topology.
  cbn [mdpsBus sasBus sccBus t_radarOffCan t_enableCruise].
  destruct (on_bus fp 593 1), (on_bus fp 688 1), (on_bus fp 1296 1),
    (on_bus fp 1056 0), (on_bus fp 1056 1), (on_bus fp 1056 2);
    cbn [andb negb Z.eqb];
    repeat apply conj; intros;
    try (cbn; tauto); try reflexivity; try discriminate; try lia;
    try (split; intros; try discriminate; try lia; tauto);
    try (cbn [CarController_init scc_live];
         match goal with
         | H : radarOffCan _ = _ |- _ => rewrite H
         end; reflexivity).
Qed.

(** X23.  The safety model [get_params] selects is the community model
    exactly when the radar is off CAN, or the MDPS or the SCC is on bus
    1, or full longitudinal control or the override mode is on;
    otherwise it is the stock model for the Sonata and the legacy model
    for every other variant.  Only the Sonata and the Palisade are not
    community features. *)
Theorem safety_model_selection :
  forall (candidate : CAR) (fp : Fingerprint) (long mad : bool),
    let t := get_params_topology candidate fp long mad in
    let community :=
      t_radarOffCan t = true \/ mdpsBus t = 1 \/ long = true
      \/ sccBus t = 1 \/ mad = true in
    (safetyModel t = hyundaiCommunity <-> community)
    /\ (safetyModel t = hyundai <-> ~ community /\ candidate = SONATA)
    /\ (safetyModel t = hyundaiLegacy <-> ~ community /\ candidate <> SONATA)
    /\ (communityFeature t = false <->
        candidate = SONATA \/ candidate = PALISADE).
Proof.
  intros candidate fp long mad t community. subst t community.
  unfold get_params_topology.
  cbn [mdpsBus sasBus sccBus t_radarOffCan safetyModel communityFeature].
  set (mdps := if on_bus fp 593 1 && negb (on_bus fp 1296 1) then 1 else 0).
  set (scc := if on_bus fp 1056 0 then 0
              else if on_bus fp 1056 1 && negb (on_bus fp 1296 1) then 1
              else if on_bus fp 1056 2 then 2 else -1).
  assert (S : CAR_in candidate [SONATA] = true <-> candidate = SONATA).
  { rewrite CAR_in_In. simpl. split; [intros [H|[]]; auto | auto]. }
  assert (P : CAR_in candidate [SONATA; PALISADE] = true <->
              candidate = SONATA \/ candidate = PALISADE).
  { rewrite CAR_in_In. simpl.
    split; [intros [H|[H|[]]]; auto | intros [H|H]; subst; auto]. }
  assert (C : ((scc =? -1) = true \/ mdps = 1 \/ long = true
               \/ scc = 1 \/ mad = true)
              <-> ((scc =? -1) || (mdps =? 1) || long || (scc =? 1) || mad)
                  = true).
  { rewrite !orb_true_iff, !Z.eqb_eq. tauto. }
  rewrite C.
  destruct ((scc =? -1) || (mdps =? 1) || long || (scc =? 1) || mad).
  - split; [|split; [|split]].
    + tauto.
    + split; [discriminate | intros [K _]; exfalso; apply K; reflexivity].
    + split; [discriminate | intros [K _]; exfalso; apply K; reflexivity].
    + rewrite negb_false_iff. exact P.
  - split; [|split; [|split]].
    + split; [|discriminate].
      destruct (CAR_in candidate [SONATA]); discriminate.
    + destruct (CAR_in candidate [SONATA]) eqn:CS.
      * split; [intros _; split; [discriminate | apply S; reflexivity]
               | reflexivity].
      * split; [discriminate|]. intros [_ K]. apply S in K. discriminate.
    + destruct (CAR_in candidate [SONATA]) eqn:CS.
      * split; [discriminate|]. intros [_ K]. exfalso. apply K.
        apply S. reflexivity.
      * split; [|reflexivity]. intros _. split; [discriminate|].
        intro K. apply S in K. discriminate.
    + rewrite negb_false_iff. exact P.
Qed.

(** ** Frames *)

Lemma lkas11_frames_app (l1 l2 : list CanMsg) :
  lkas11_frames (l1 ++ l2) = lkas11_frames l1 ++ lkas11_frames l2.
Proof.
  induction l1 as [|m t IH]; [reflexivity|].
  destruct m; simpl; try exact IH.
  destruct (bus =? 0); simpl; rewrite IH; reflexivity.
Qed.

Lemma lkas11_frames_none (l : list CanMsg) :
  count is_lkas11 l = 0 -> lkas11_frames l = [].
Proof.
  induction l as [|m t IH]; intro H; [reflexivity|].
  rewrite count_cons in H. assert (N := count_nonneg is_lkas11 t).
  destruct m; cbn [is_lkas11] in H; simpl; try (apply IH; lia). lia.
Qed.

Lemma can_sends_lkas11_frames (E : Externals) (CC : CarController)
    (a : UpdateArgs) :
  lkas11_frames (can_sends_of E CC a) = [frame a].
Proof.
  destruct (lkas_block_leads E CC a) as (rest & Heq & Hr).
  rewrite Heq.
  change (lkas11_to E CC a 0 :: ?x) with ([lkas11_to E CC a 0] ++ x).
  rewrite !lkas11_frames_app, (lkas11_frames_none rest Hr).
  destruct (Z_truthy (mdps_bus (CS a)) || (scc_bus (CS a) =? 1));
    reflexivity.
Qed.

(** X24.  The frame counter of the interface: [update] leaves it alone
    and [apply] adds one, so after a run of n cycles it has advanced by
    n; the lane-keep messages for bus 0 of the run, one per cycle, carry
    the consecutive frames starting with the frame the run started
    with. *)
Theorem frames_are_consecutive :
  forall (E : Externals),
    (forall I ia, I_frame (fst (interface_update E I ia)) = I_frame I)
    /\ (forall l s,
          I_frame (fst (after_all E s l))
          = I_frame (fst s) + Z.of_nat (List.length l)
          /\ lkas11_frames (snd (run E s l))
             = frames_from (I_frame (fst s)) (List.length l)).
Proof.
  intro E. split; [reflexivity|].
  induction l as [|ci l IH]; intro s.
  - cbn. split; [lia | reflexivity].
  - rewrite after_all_cons, run_cons. cbn [snd].
    destruct (IH (after E s ci)) as (IH1 & IH2).
    assert (Step : I_frame (fst (after E s ci)) = I_frame (fst s) + 1
                   /\ lkas11_frames (snd (cycle E s ci))
                      = [I_frame (fst s)]).
    { destruct s as [I ctl].
      destruct (cycle_unfold E I ctl ci) as (_ & Hf & Hs & Hfr & _).
      cbn zeta in Hf, Hs, Hfr. unfold after. cbn [fst].
      rewrite Hf, Hs, can_sends_lkas11_frames, Hfr. split; reflexivity. }
    destruct Step as (S1 & S2).
    fold (after E s ci). rewrite IH1, lkas11_frames_app, S2, IH2, S1.
    split.
    + cbn [List.length]. lia.
    + reflexivity.
Qed.

(** ** The blinker countdown along a run *)

Lemma inject_Z_pred (n : Z) : (inject_Z n - 1 == inject_Z (n - 1))%Q.
Proof. unfold Qeq, Qminus, Qplus, Qopp, inject_Z. simpl. lia. Qed.

Lemma Qgtb_inject_Z (t : Q) (n : Z) :
  (t == inject_Z n)%Q -> (t >?q 0) = (0 <? n).
Proof.
  intro H. destruct (0 <? n) eqn:L.
  - apply Qgtb_gt. rewrite H. apply Z.ltb_lt in L.
    change 0%Q with (inject_Z 0). rewrite <- Zlt_Qlt. exact L.
  - apply Qgtb_le. rewrite H. apply Z.ltb_ge in L.
    change 0%Q with (inject_Z 0). rewrite <- Zle_Qle. exact L.
Qed.

Section Countdown.

Variable E : Externals.

Lemma cycle_turning_signal_timer s ci :
  turning_signal_timer (controller (after E s ci))
  = let t :=
      if leftBlinker (ret0 (ci_update ci))
         || rightBlinker (ret0 (ci_update ci))
      then blinker_reset E else turning_signal_timer (controller s) in
    if t >?q 0 then (t - 1)%Q else t.
Proof.
  destruct s as [I ctl].
  destruct (cycle_unfold E I ctl ci) as (Hcc & _).
  cbn zeta in Hcc. unfold controller, after. cbn [fst].
  rewrite Hcc, next_turning_signal_timer. reflexivity.
Qed.

Lemma countdown_step s ci n :
  0 <= n ->
  (turning_signal_timer (controller s) == inject_Z n)%Q ->
  blinkers_off ci = true ->
  (turning_signal_timer (controller (after E s ci))
   == inject_Z (Z.max 0 (n - 1)))%Q.
Proof.
  intros Hn Ht Hb. rewrite cycle_turning_signal_timer.
  unfold blinkers_off in Hb. apply negb_true_iff in Hb. rewrite Hb.
  cbn zeta. rewrite (Qgtb_inject_Z _ n Ht).
  destruct (0 <? n) eqn:L.
  - apply Z.ltb_lt in L. rewrite Ht, inject_Z_pred.
    replace (Z.max 0 (n - 1)) with (n - 1) by lia. reflexivity.
  - apply Z.ltb_ge in L. rewrite Ht.
    replace (Z.max 0 (n - 1)) with n by lia. reflexivity.
Qed.

Lemma reset_step s ci N :
  1 <= N ->
  (blinker_reset E == inject_Z N)%Q ->
  blinkers_off ci = false ->
  (turning_signal_timer (controller (after E s ci)) == inject_Z (N - 1))%Q.
Proof.
  intros HN Hr Hb. rewrite cycle_turning_signal_timer.
  unfold blinkers_off in Hb. apply negb_false_iff in Hb. rewrite Hb.
  cbn zeta. rewrite (Qgtb_inject_Z _ N Hr).
  replace (0 <? N) with true by (symmetry; apply Z.ltb_lt; lia).
  rewrite Hr. apply inject_Z_pred.
Qed.

End Countdown.

(** X25.  With no blinker active the countdown runs down one per cycle
    and stops at zero: from the whole number n it stands at
    max(0, n - k) after k cycles, so it is 0 after n cycles and stays
    0. *)
Theorem blinker_countdown_runs_down :
  forall (E : Externals) (l : list CycleInput)
         (s : CarInterface * Controls) (n : Z),
    0 <= n ->
    (turning_signal_timer (controller s) == inject_Z n)%Q ->
    (forall ci, In ci l -> blinkers_off ci = true) ->
    (turning_signal_timer (controller (after_all E s l))
     == inject_Z (Z.max 0 (n - Z.of_nat (List.length l))))%Q.
Proof.
  intros E l. induction l as [|ci l IH]; intros s n Hn Ht Hall.
  - cbn [List.length Z.of_nat]. unfold after_all. cbn [run fst].
    rewrite Ht. replace (Z.max 0 (n - 0)) with n by lia. reflexivity.
  - rewrite after_all_cons.
    assert (Hs := countdown_step E s ci n Hn Ht (Hall ci (or_introl eq_refl))).
    assert (Hm : 0 <= Z.max 0 (n - 1)) by lia.
    rewrite (IH (after E s ci) (Z.max 0 (n - 1)) Hm Hs
               (fun x Hx => Hall x (or_intror Hx))).
    replace (Z.max 0 (Z.max 0 (n - 1) - Z.of_nat (List.length l)))
      with (Z.max 0 (n - Z.of_nat (List.length (ci :: l))))
      by (cbn [List.length]; lia).
    reflexivity.
Qed.

Lemma blinker_countdown_runs_down_witness :
  let E := Sample.externals in
  let s :=
    after E (Sample.start Sample.car_params)
      (Sample.cycle_input
         (Sample.snapshot 10 true false false 0 0 0 0 0)) in
  let l := repeat Scenario.cruising 3 in
  (turning_signal_timer (controller (after_all E s l))
   == inject_Z (Z.max 0 (49 - Z.of_nat (List.length l))))%Q.
Proof.
  intros E s l.
  apply (blinker_countdown_runs_down E l s 49).
  - lia.
  - vm_compute. reflexivity.
  - intros ci Hci. cbn in Hci.
    repeat (destruct Hci as [Hci|Hci]; [subst ci; reflexivity|]).
    contradiction.
Defined.

(** X26.  When 0.5 s is a whole number N >= 1 of cycles, the countdown
    is a whole number between 0 and N - 1 after every run from
    construction: it is never negative, and a cycle with a blinker
    active leaves it at N - 1. *)
Theorem blinker_countdown_range :
  forall (E : Externals) (N : Z),
    1 <= N ->
    (blinker_reset E == inject_Z N)%Q ->
    (forall CP mad cs0 ctl0 l,
        exists k,
          0 <= k <= N - 1
          /\ (turning_signal_timer
                (controller
                   (after_all E (CarInterface_init CP mad cs0, ctl0) l))
              == inject_Z k)%Q)
    /\ (forall s ci,
          blinkers_off ci = false ->
          (turning_signal_timer (controller (after E s ci))
           == inject_Z (N - 1))%Q).
Proof.
  intros E N HN Hr. split.
  - intros CP mad cs0 ctl0 l.
    assert (G : forall l s,
               (exists k, 0 <= k <= N - 1
                          /\ (turning_signal_timer (controller s)
                              == inject_Z k)%Q) ->
               exists k, 0 <= k <= N - 1
                         /\ (turning_signal_timer
                               (controller (after_all E s l))
                             == inject_Z k)%Q).
    { clear l. induction l as [|ci l IH]; intros s Hs; [exact Hs|].
      rewrite after_all_cons. apply IH.
      destruct Hs as (k & Hk & Ht).
      destruct (blinkers_off ci) eqn:B.
      - exists (Z.max 0 (k - 1)). split; [lia|].
        apply countdown_step; [lia | exact Ht | exact B].
      - exists (N - 1). split; [lia|].
        apply (reset_step E s ci N HN Hr B). }
    apply G. exists 0. split; [lia | reflexivity].
  - intros s ci B. apply (reset_step E s ci N HN Hr B).
Qed.

Lemma blinker_countdown_range_witness :
  (forall CP mad cs0 ctl0 l,
      exists k,
        0 <= k <= 50 - 1
        /\ (turning_signal_timer
              (controller
                 (after_all Sample.externals
                    (CarInterface_init CP mad cs0, ctl0) l))
            == inject_Z k)%Q)
  /\ (forall s ci,
        blinkers_off ci = false ->
        (turning_signal_timer (controller (after Sample.externals s ci))
         == inject_Z (50 - 1))%Q).
Proof.
  apply (blinker_countdown_range Sample.externals 50).
  - lia.
  - reflexivity.
Defined.

(** ** The counters of the resume presses *)

Section PressCounters.

Variable E : Externals.

Lemma presses_nonneg l : forall s, 0 <= presses E s l.
Proof.
  induction l as [|ci l IH]; intro s; cbn [presses]; [lia|].
  specialize (IH (after E s ci)). lia.
Qed.

Lemma cycle_press_counter s ci :
  at_standstill ci = true ->
  ~ (last_lead_distance (controller s) == 0)%Q ->
  is_active (i_smoother (ci_update ci)) = false ->
  resume_wait_timer (controller s) <= 0 ->
  ~ (lead_distance (new_CS (ci_update ci))
     == last_lead_distance (controller s))%Q ->
  clu11_counters (cycle_presses E s ci) = [resume_cnt (controller s)].
Proof.
  destruct (cycle_view E s ci) as (Hn & _ & Hl & Hc & Hw & Hs & Hd & Hsm).
  intros Hst H0 Ha Ht Hne. unfold cycle_presses.
  rewrite <- Hs in Hst. rewrite <- Hl in H0. rewrite <- Hsm in Ha.
  rewrite <- Hw in Ht. rewrite <- Hd, <- Hl in Hne.
  destruct (resume_press E _ _ Hst H0 Ha Ht Hne) as (Hp & _).
  rewrite Hp, Hc. reflexivity.
Qed.

Lemma press_counters_from l :
  forall s,
    (forall x, In x l -> at_standstill x = true) ->
    0 <= resume_cnt (controller s) < 8 ->
    ((last_lead_distance (controller s) == 0)%Q ->
     resume_cnt (controller s) = 0) ->
    press_counters E s l
    = counters_from 8 (resume_cnt (controller s))
        (Z.to_nat (presses E s l)).
Proof.
  induction l as [|ci l IH]; intros s Hall Hr Hz; [reflexivity|].
  assert (Hs := Hall ci (or_introl eq_refl)).
  assert (Hall' : forall x, In x l -> at_standstill x = true)
    by (intros x Hx; apply Hall; right; exact Hx).
  assert (Hr' := cycle_resume_cnt_range E s ci Hr).
  assert (Keep : last_lead_distance (controller (after E s ci))
                 = last_lead_distance (controller s) ->
                 ~ (last_lead_distance (controller s) == 0)%Q ->
                 (last_lead_distance (controller (after E s ci)) == 0)%Q ->
                 resume_cnt (controller (after E s ci)) = 0)
    by (intros Hl H0 K; rewrite Hl in K; contradiction).
  assert (Pn := presses_nonneg l (after E s ci)).
  cbn [press_counters presses].
  destruct (cycle_branch s ci) as [H0|[H0 [Ha|[Ha [Ht|[Ht [Hd|Hd]]]]]]].
  - destruct (cycle_capture E s ci Hs H0) as (Hp & Hl & Hc & _).
    rewrite Hp, (IH (after E s ci) Hall' Hr' (fun _ => Hc)), Hc, (Hz H0).
    reflexivity.
  - destruct (cycle_smoother_active E s ci Hs H0 Ha) as (Hp & Hl & Hc & _).
    rewrite Hp, (IH (after E s ci) Hall' Hr' (Keep Hl H0)), Hc.
    reflexivity.
  - destruct (cycle_cooldown E s ci Hs H0 Ha Ht) as (Hp & Hl & Hc & _).
    rewrite Hp, (IH (after E s ci) Hall' Hr' (Keep Hl H0)), Hc.
    reflexivity.
  - destruct (cycle_press E s ci Hs H0 Ha Ht Hd) as (Hp & Hl & Hc & _).
    rewrite (cycle_press_counter s ci Hs H0 Ha Ht Hd), Hp.
    rewrite (IH (after E s ci) Hall' Hr' (Keep Hl H0)), Hc.
    replace (Z.to_nat (Z.of_nat 1 + presses E (after E s ci) l))
      with (S (Z.to_nat (presses E (after E s ci) l))) by lia.
    cbn [counters_from app].
    rewrite (Z.mod_small (resume_cnt (controller s)) 8 Hr).
    f_equal. apply counters_from_mod; [discriminate|].
    destruct (resume_cnt (controller s) + 1 >=? 8) eqn:G; [|reflexivity].
    apply Z.geb_le in G.
    replace (resume_cnt (controller s) + 1) with 8 by lia. reflexivity.
  - destruct (cycle_hold E s ci Hs H0 Ha Ht Hd) as (Hp & Hl & Hc & _).
    rewrite Hp, (IH (after E s ci) Hall' Hr' (Keep Hl H0)), Hc.
    reflexivity.
Qed.

End PressCounters.

(** X27.  Within a standstill episode the resume presses carry the
    counters 0, 1, ..., 7, 0, 1, ... in the order they are sent: the
    k-th press of the episode carries k mod 8. *)
Theorem resume_press_counters_cycle_through_eight :
  forall (E : Externals) (s : CarInterface * Controls) (ci : CycleInput)
         (l : list CycleInput),
    (last_lead_distance (controller s) == 0)%Q ->
    (forall x, In x (ci :: l) -> at_standstill x = true) ->
    press_counters E s (ci :: l)
    = counters_from 8 0 (Z.to_nat (presses E s (ci :: l))).
Proof.
  intros E s ci l H0 Hall.
  assert (Hs := Hall ci (or_introl eq_refl)).
  destruct (cycle_capture E s ci Hs H0) as (Hp & _ & Hc & _).
  assert (Hr : 0 <= resume_cnt (controller (after E s ci)) < 8)
    by (rewrite Hc; lia).
  cbn [press_counters presses]. rewrite Hp. cbn [clu11_counters app].
  rewrite (press_counters_from E l (after E s ci)
             (fun x Hx => Hall x (or_intror Hx)) Hr (fun _ => Hc)), Hc.
  reflexivity.
Qed.

Lemma resume_press_counters_cycle_through_eight_witness :
  press_counters Sample.externals (Sample.start Sample.car_params)
    (Sample.stopped 5 Sample.quiet_smoother
     :: repeat (Sample.stopped 4 Sample.quiet_smoother) 8)
  = counters_from 8 0
      (Z.to_nat
         (presses Sample.externals (Sample.start Sample.car_params)
            (Sample.stopped 5 Sample.quiet_smoother
             :: repeat (Sample.stopped 4 Sample.quiet_smoother) 8))).
Proof.
  apply (resume_press_counters_cycle_through_eight Sample.externals
           (Sample.start Sample.car_params)
           (Sample.stopped 5 Sample.quiet_smoother)
           (repeat (Sample.stopped 4 Sample.quiet_smoother) 8)).
  - reflexivity.
  - intros x Hx. cbn in Hx.
    repeat (destruct Hx as [Hx|Hx]; [subst x; reflexivity|]).
    contradiction.
Defined.

Example burst_press_counters :
  press_counters Sample.externals (Sample.start Sample.car_params)
    Sample.burst_episode
  = [0; 1; 2; 3; 4; 5; 6; 7].
Proof. vm_compute. reflexivity. Qed.
